(** * FloorForge: room extraction and the floor-plan hook

    A shallow embedding of two parts of the FloorForge front end:
    - [extractRoomInfo] of [utils/helpers.js], with the three regular
      expressions it builds per room type;
    - the [useFloorPlan] hook of [hooks/useFloorPlan.js]: its five state
      cells, the mount-time loader, the localStorage mirror effect and the
      generate / save / delete callbacks.

    and, beside them, the other text helpers of [utils/helpers.js], the
    remote client of [services/api.js] and the rename handler of the
    page.

    A text is a [string] (a list of [ascii]) holding its UTF-8 encoding,
    except where the code counts UTF-16 code units; numbers that the code
    only stores and prints are exact decimals. *)

From Stdlib Require Import ZArith NArith String Ascii List Bool Lia.
From Stdlib Require Import DecimalString.
From Stdlib Require DecimalFacts DecimalPos DecimalN.
From stdpp Require Import gmap strings.
Import ListNotations.

Local Open Scope string_scope.
Local Open Scope list_scope.

#[local] Set Warnings "-register-all".

(** ** Characters *)

Module Chars.

Definition code (c : ascii) : N := N_of_ascii c.

Definition is_digit (c : ascii) : bool :=
  ((48 <=? code c) && (code c <=? 57))%N.

Definition is_upper (c : ascii) : bool :=
  ((65 <=? code c) && (code c <=? 90))%N.

Definition is_lower (c : ascii) : bool :=
  ((97 <=? code c) && (code c <=? 122))%N.

(** [\w] of a regular expression: letters, digits and the underscore. *)
Definition is_word (c : ascii) : bool :=
  is_digit c || is_upper c || is_lower c || (code c =? 95)%N.

(** [\s] and the characters [String.prototype.trim] strips, on the ASCII
    range: tab, line feed, vertical tab, form feed, carriage return,
    space. *)
Definition is_space (c : ascii) : bool :=
  ((9 <=? code c) && (code c <=? 13) || (code c =? 32))%N.

Definition to_upper (c : ascii) : ascii :=
  if is_lower c then ascii_of_N (code c - 32) else c.

Definition to_lower (c : ascii) : ascii :=
  if is_upper c then ascii_of_N (code c + 32) else c.

Definition digit_value (c : ascii) : N := (code c - 48)%N.

(** The double quote and the backslash, by code. *)
Definition dquote : ascii := ascii_of_N 34.
Definition backslash : ascii := ascii_of_N 92.

End Chars.

(** ** Regular expressions

    The fragment of the JavaScript regular expressions that
    [extractRoomInfo] builds: literal characters, the classes [\d] and
    [\s] under [+], [?], alternation, one capturing group and [\b].  The
    matcher is the backtracking one of the language: greedy quantifiers,
    alternatives tried left to right, and [exec] trying every start
    position from the left. *)

Module Regex.

Inductive regex : Type :=
| REps
| RChar (c : ascii)
| RPlus (cls : ascii -> bool)
| ROpt (r : regex)
| RSeq (r1 r2 : regex)
| RAlt (r1 r2 : regex)
| RGroup (r : regex)
| RWordB.

(** A position in the subject: the character just before it (for [\b]),
    how many characters the attempt has consumed, the text that remains,
    and what group 1 captured so far. *)
Record mstate : Type := MState {
  prev : option ascii;
  pos : nat;
  rest : list ascii;
  cap1 : option (list ascii)
}.

Definition orelse {A} (a b : option A) : option A :=
  match a with Some x => Some x | None => b end.

(** Zero or more characters of a class, longest first. *)
Fixpoint rstar (cls : ascii -> bool) (k : mstate -> option mstate)
    (pv : option ascii) (i : nat) (s : list ascii) (cap : option (list ascii))
    : option mstate :=
  match s with
  | x :: s' =>
      if cls x
      then orelse (rstar cls k (Some x) (S i) s' cap) (k (MState pv i s cap))
      else k (MState pv i s cap)
  | [] => k (MState pv i s cap)
  end.

Definition word_at (o : option ascii) : bool :=
  match o with Some c => Chars.is_word c | None => false end.

(** With the [i] flag both sides are canonicalised to upper case. *)
Definition same_char_i (a b : ascii) : bool :=
  (Chars.code (Chars.to_upper a) =? Chars.code (Chars.to_upper b))%N.

Fixpoint rmatch (r : regex) (st : mstate) (k : mstate -> option mstate)
    : option mstate :=
  match r with
  | REps => k st
  | RChar c =>
      match rest st with
      | x :: s' =>
          if same_char_i x c
          then k (MState (Some x) (S (pos st)) s' (cap1 st))
          else None
      | [] => None
      end
  | RPlus cls =>
      match rest st with
      | x :: s' =>
          if cls x then rstar cls k (Some x) (S (pos st)) s' (cap1 st)
          else None
      | [] => None
      end
  | ROpt r1 => orelse (rmatch r1 st k) (k st)
  | RSeq r1 r2 => rmatch r1 st (fun st' => rmatch r2 st' k)
  | RAlt r1 r2 => orelse (rmatch r1 st k) (rmatch r2 st k)
  | RGroup r1 =>
      rmatch r1 st (fun st' =>
        k (MState (prev st') (pos st') (rest st')
             (Some (firstn (pos st' - pos st) (rest st)))))
  | RWordB =>
      if xorb (word_at (prev st)) (word_at (hd_error (rest st)))
      then k st else None
  end.

(** [exec] without the [g] flag: the leftmost start position that
    matches. *)
Fixpoint search (r : regex) (pv : option ascii) (s : list ascii)
    : option mstate :=
  match rmatch r (MState pv 0 s None) Some with
  | Some m => Some m
  | None =>
      match s with
      | [] => None
      | x :: s' => search r (Some x) s'
      end
  end.

Definition exec (r : regex) (subject : string) : option mstate :=
  search r None (list_ascii_of_string subject).

Definition test (r : regex) (subject : string) : bool :=
  match exec r subject with Some _ => true | None => false end.

(** A literal word, one [RChar] per character. *)
Fixpoint lit (w : list ascii) : regex :=
  match w with
  | [] => REps
  | c :: w' => RSeq (RChar c) (lit w')
  end.

Definition word (w : string) : regex := lit (list_ascii_of_string w).

End Regex.

(** ** [extractRoomInfo] (utils/helpers.js) *)

Module Helpers.
Import Regex.

Definition roomTypes : list string :=
  [ "bedroom"; "bathroom"; "kitchen"; "living room"; "dining room";
    "office"; "studio"; "balcony"; "patio"; "garage" ].

(** [new RegExp(`(\\d+)\\s+${type}s?`, "i")] *)
Definition digits_pattern (type : string) : regex :=
  RSeq (RGroup (RPlus Chars.is_digit))
    (RSeq (RPlus Chars.is_space)
       (RSeq (word type) (ROpt (RChar "s")))).

(** [new RegExp(`(one|two|three|four|five)\\s+${type}s?`, "i")] *)
Definition words_pattern (type : string) : regex :=
  RSeq (RGroup (RAlt (word "one") (RAlt (word "two") (RAlt (word "three")
                 (RAlt (word "four") (word "five"))))))
    (RSeq (RPlus Chars.is_space)
       (RSeq (word type) (ROpt (RChar "s")))).

Definition patterns (type : string) : list regex :=
  [ digits_pattern type; words_pattern type ].

(** [new RegExp(`\\b${type}\\b`, "i")] *)
Definition bare_pattern (type : string) : regex :=
  RSeq RWordB (RSeq (word type) RWordB).

(** [isNaN(count)] on what group 1 of the two patterns can hold: a run of
    digits converts to a number, a number word does not. *)
Definition isNaN (count : list ascii) : bool :=
  negb (forallb Chars.is_digit count).

(** The [textToNumber] table, looked up after [toLowerCase]. *)
Definition textToNumber (w : list ascii) : option N :=
  let w := string_of_list_ascii (map Chars.to_lower w) in
  if String.eqb w "one" then Some 1%N
  else if String.eqb w "two" then Some 2%N
  else if String.eqb w "three" then Some 3%N
  else if String.eqb w "four" then Some 4%N
  else if String.eqb w "five" then Some 5%N
  else None.

(** [parseInt(count, 10)] on a run of decimal digits, as an exact
    integer (JavaScript rounds to a double above 2^53). *)
Definition parseInt (count : list ascii) : N :=
  fold_left (fun acc c => (acc * 10 + Chars.digit_value c)%N) count 0%N.

(** [a || b] on numbers: zero is falsy. *)
Definition num_or (a : option N) (b : N) : N :=
  match a with
  | Some 0%N | None => b
  | Some n => n
  end.

(** The value stored for a match: the body of [if (match) { ... }]. *)
Definition count_of (m : mstate) : N :=
  let count := default [] (cap1 m) in
  if isNaN count then num_or (textToNumber count) 1%N else parseInt count.

(** The [for (const pattern of patterns)] loop with its [break]. *)
Fixpoint first_match (ps : list regex) (prompt : string) : option N :=
  match ps with
  | [] => None
  | p :: ps' =>
      match exec p prompt with
      | Some m => Some (count_of m)
      | None => first_match ps' prompt
      end
  end.

(** [!result[type]]: the key is absent, or holds zero. *)
Definition falsy_at (result : gmap string N) (type : string) : bool :=
  match result !! type with
  | None | Some 0%N => true
  | Some _ => false
  end.

(** The body of [roomTypes.forEach]. *)
Definition visit (prompt : string) (result : gmap string N) (type : string)
    : gmap string N :=
  let result :=
    match first_match (patterns type) prompt with
    | Some n => <[type := n]> result
    | None => result
    end in
  if falsy_at result type && test (bare_pattern type) prompt
  then <[type := 1%N]> result
  else result.

Definition extractRoomInfo (prompt : string) : gmap string N :=
  if String.eqb prompt "" then ∅
  else fold_left (visit prompt) roomTypes ∅.

(** What [visit] leaves at its own key, from what the key held before. *)
Definition room_count (prompt type : string) (before : option N) : option N :=
  let now :=
    match first_match (patterns type) prompt with
    | Some n => Some n
    | None => before
    end in
  match now with
  | None | Some 0%N =>
      if test (bare_pattern type) prompt then Some 1%N else now
  | Some _ => now
  end.

(** [w] starts the text [s], letter case apart. *)
Fixpoint starts_with_i (w s : list ascii) : bool :=
  match w, s with
  | [], _ => true
  | a :: w', b :: s' => same_char_i b a && starts_with_i w' s'
  | _ :: _, [] => false
  end.

(** The positions of [s], counted from [i], at which [w] starts. *)
Fixpoint occurrences_from (w : list ascii) (i : nat) (s : list ascii)
    : list nat :=
  (if starts_with_i w s then [i] else []) ++
  match s with
  | [] => []
  | _ :: s' => occurrences_from w (S i) s'
  end.

(** Where the word [w] occurs in a text, letter case apart. *)
Definition occurrences (w text : string) : list nat :=
  occurrences_from (list_ascii_of_string w) 0 (list_ascii_of_string text).

Definition last_is_digit (s : list ascii) : bool :=
  match rev s with
  | c :: _ => Chars.is_digit c
  | [] => false
  end.

Definition ends_in_digit (s : string) : bool :=
  last_is_digit (list_ascii_of_string s).

(** The five number words of [words_pattern]. *)
Definition number_words : list (list ascii) :=
  map list_ascii_of_string ["one"; "two"; "three"; "four"; "five"].

End Helpers.

(** ** JavaScript values and JSON text

    What [JSON.parse] returns and [JSON.stringify] prints.  A number is an
    exact decimal [mantissa / 10 ^ scale], printed in plain notation (the
    form JavaScript uses between 1e-6 and 1e21); a string is its bytes, and
    a [\uXXXX] escape is decoded to the UTF-8 bytes of that code unit. *)

Module Json.

Record number : Type := Num { mantissa : Z; scale : nat }.

Inductive value : Type :=
| VUndef
| VNull
| VBool (b : bool)
| VNum (n : number)
| VStr (s : string)
| VArr (items : list value)
| VObj (members : list (string * value)).

(** A plain object: its own properties in insertion order. *)
Definition object : Type := list (string * value).

Definition of_Z (z : Z) : value := VNum (Num z 0).

(** *** Property access and the operators the hook uses *)

Fixpoint lookup_member (k : string) (o : object) : option value :=
  match o with
  | [] => None
  | (k', v) :: o' => if String.eqb k' k then Some v else lookup_member k o'
  end.

(** [o.k] on an object; a missing property reads as [undefined]. *)
Definition prop (o : object) (k : string) : value :=
  default VUndef (lookup_member k o).

(** [o[k] = v]: replace in place, or append. *)
Fixpoint set_member (k : string) (v : value) (o : object) : object :=
  match o with
  | [] => [(k, v)]
  | (k', v') :: o' =>
      if String.eqb k' k then (k, v) :: o' else (k', v') :: set_member k v o'
  end.

(** [v.k] on any value: [None] is the TypeError of reading a property of
    [null] or [undefined]; the keys read here are no property of a
    primitive or an array. *)
Definition get (v : value) (k : string) : option value :=
  match v with
  | VUndef | VNull => None
  | VObj o => Some (prop o k)
  | _ => Some VUndef
  end.

Definition is_zero (n : number) : bool := (mantissa n =? 0)%Z.

Definition truthy (v : value) : bool :=
  match v with
  | VUndef | VNull => false
  | VBool b => b
  | VNum n => negb (is_zero n)
  | VStr s => negb (String.eqb s "")
  | VArr _ | VObj _ => true
  end.

(** [a || b] *)
Definition or_else (a b : value) : value := if truthy a then a else b.

(** [Array.isArray] *)
Definition isArray (v : value) : bool :=
  match v with VArr _ => true | _ => false end.

(** Strip the trailing zeros of the fraction. *)
Fixpoint normalize (m : Z) (sc : nat) : number :=
  match sc with
  | O => Num m 0
  | S sc' => if (m mod 10 =? 0)%Z then normalize (m / 10) sc' else Num m sc
  end.

Definition num_eqb (a b : number) : bool :=
  let a := normalize (mantissa a) (scale a) in
  let b := normalize (mantissa b) (scale b) in
  (mantissa a =? mantissa b)%Z && Nat.eqb (scale a) (scale b).

(** [a === b].  Identifiers are primitives; two objects or arrays are the
    same only by reference, which a value does not carry, so they compare
    unequal here. *)
Definition strict_eq (a b : value) : bool :=
  match a, b with
  | VUndef, VUndef | VNull, VNull => true
  | VBool x, VBool y => Bool.eqb x y
  | VNum x, VNum y => num_eqb x y
  | VStr x, VStr y => String.eqb x y
  | _, _ => false
  end.

(** *** [JSON.stringify] *)

Definition hex_digit (n : N) : ascii :=
  ascii_of_N (if (n <? 10)%N then 48 + n else 87 + n).

Definition escape_char (c : ascii) : list ascii :=
  let n := Chars.code c in
  let bs := Chars.backslash in
  if (n =? 34)%N then [bs; Chars.dquote]
  else if (n =? 92)%N then [bs; bs]
  else if (n =? 8)%N then [bs; "b"%char]
  else if (n =? 12)%N then [bs; "f"%char]
  else if (n =? 10)%N then [bs; "n"%char]
  else if (n =? 13)%N then [bs; "r"%char]
  else if (n =? 9)%N then [bs; "t"%char]
  else if (n <? 32)%N
       then [bs; "u"; "0"; "0"; hex_digit (n / 16); hex_digit (n mod 16)]%char
  else [c].

Definition quote (s : string) : list ascii :=
  (Chars.dquote :: flat_map escape_char (list_ascii_of_string s))
  ++ [Chars.dquote].

Definition digits_of_N (n : N) : list ascii :=
  list_ascii_of_string (NilZero.string_of_uint (N.to_uint n)).

Definition pad_left (width : nat) (ds : list ascii) : list ascii :=
  repeat "0"%char (width - length ds) ++ ds.

Definition print_number (n : number) : list ascii :=
  let n := normalize (mantissa n) (scale n) in
  let m := Z.abs_N (mantissa n) in
  let unit := (10 ^ N.of_nat (scale n))%N in
  (if (mantissa n <? 0)%Z then ["-"%char] else []) ++
  digits_of_N (m / unit) ++
  match scale n with
  | O => []
  | S _ => "."%char :: pad_left (scale n) (digits_of_N (m mod unit))
  end.

Definition chars (s : string) : list ascii := list_ascii_of_string s.

(** In an array [undefined] prints as [null]; in an object a member whose
    value is [undefined] is left out. *)
Fixpoint print (v : value) : list ascii :=
  match v with
  | VUndef | VNull => chars "null"
  | VBool true => chars "true"
  | VBool false => chars "false"
  | VNum n => print_number n
  | VStr s => quote s
  | VArr items =>
      let fix elems (first : bool) (l : list value) : list ascii :=
        match l with
        | [] => []
        | x :: l' =>
            (if first then [] else [","%char]) ++ print x ++ elems false l'
        end in
      "["%char :: elems true items ++ ["]"%char]
  | VObj members =>
      let fix fields (first : bool) (l : list (string * value)) : list ascii :=
        match l with
        | [] => []
        | (_, VUndef) :: l' => fields first l'
        | (k, x) :: l' =>
            (if first then [] else [","%char]) ++
            quote k ++ ":"%char :: print x ++ fields false l'
        end in
      "{"%char :: fields true members ++ ["}"%char]
  end.

Definition stringify (v : value) : string := string_of_list_ascii (print v).

(** *** [JSON.parse]

    A recursive-descent reader of the JSON grammar; [None] is the
    SyntaxError. *)

Definition is_ws (c : ascii) : bool :=
  let n := Chars.code c in
  ((n =? 32) || (n =? 9) || (n =? 10) || (n =? 13))%N.

Fixpoint skip_ws (s : list ascii) : list ascii :=
  match s with
  | c :: s' => if is_ws c then skip_ws s' else s
  | [] => []
  end.

Definition hex_value (c : ascii) : option N :=
  let n := Chars.code c in
  if Chars.is_digit c then Some (n - 48)%N
  else if ((97 <=? n) && (n <=? 102))%N then Some (n - 87)%N
  else if ((65 <=? n) && (n <=? 70))%N then Some (n - 55)%N
  else None.

Definition utf8 (n : N) : list ascii :=
  if (n <? 128)%N then [ascii_of_N n]
  else if (n <? 2048)%N
       then [ascii_of_N (192 + n / 64); ascii_of_N (128 + n mod 64)]
  else [ascii_of_N (224 + n / 4096); ascii_of_N (128 + (n / 64) mod 64);
        ascii_of_N (128 + n mod 64)].

Definition unescape (e : ascii) : option ascii :=
  let n := Chars.code e in
  if (n =? 34)%N then Some Chars.dquote
  else if (n =? 92)%N then Some Chars.backslash
  else if (n =? 47)%N then Some "/"%char
  else if (n =? 98)%N then Some (ascii_of_N 8)
  else if (n =? 102)%N then Some (ascii_of_N 12)
  else if (n =? 110)%N then Some (ascii_of_N 10)
  else if (n =? 114)%N then Some (ascii_of_N 13)
  else if (n =? 116)%N then Some (ascii_of_N 9)
  else None.

(** The text after an opening quote, up to the closing one. *)
Fixpoint read_string (s : list ascii) (acc : list ascii)
    : option (string * list ascii) :=
  match s with
  | [] => None
  | c :: s' =>
      if (Chars.code c =? 34)%N
      then Some (string_of_list_ascii (rev acc), s')
      else if (Chars.code c =? 92)%N then
        match s' with
        | [] => None
        | e :: s'' =>
            if (Chars.code e =? 117)%N then
              match s'' with
              | h1 :: h2 :: h3 :: h4 :: s5 =>
                  match hex_value h1, hex_value h2, hex_value h3, hex_value h4 with
                  | Some a, Some b, Some c', Some d =>
                      read_string s5
                        (rev (utf8 (((a * 16 + b) * 16 + c') * 16 + d)) ++ acc)
                  | _, _, _, _ => None
                  end
              | _ => None
              end
            else
              match unescape e with
              | Some x => read_string s'' (x :: acc)
              | None => None
              end
        end
      else if (Chars.code c <? 32)%N then None
      else read_string s' (c :: acc)
  end.

Fixpoint take_digits (s : list ascii) : list ascii * list ascii :=
  match s with
  | c :: s' =>
      if Chars.is_digit c
      then let (ds, r) := take_digits s' in (c :: ds, r)
      else ([], s)
  | [] => ([], [])
  end.

Definition digits_value (ds : list ascii) : Z :=
  fold_left (fun acc c => (acc * 10 + Z.of_N (Chars.digit_value c))%Z) ds 0%Z.

(** [-? int frac? exp?], where [int] has no leading zero. *)
Definition read_number (s : list ascii) : option (number * list ascii) :=
  let (neg, s) :=
    match s with
    | c :: s' => if (Chars.code c =? 45)%N then (true, s') else (false, s)
    | [] => (false, s)
    end in
  let (int, s) := take_digits s in
  match int with
  | [] => None
  | d :: int' =>
      if (Chars.code d =? 48)%N && negb (Nat.eqb (length int') 0) then None
      else
        let frac_s :=
          match s with
          | c :: s' =>
              if (Chars.code c =? 46)%N
              then let (fr, r) := take_digits s' in
                   match fr with [] => None | _ => Some (fr, r) end
              else Some ([], s)
          | [] => Some ([], s)
          end in
        match frac_s with
        | None => None
        | Some (frac, s) =>
            let exp_s :=
              match s with
              | c :: s' =>
                  if ((Chars.code c =? 101) || (Chars.code c =? 69))%N then
                    let (eneg, s'') :=
                      match s' with
                      | g :: t =>
                          if (Chars.code g =? 45)%N then (true, t)
                          else if (Chars.code g =? 43)%N then (false, t)
                          else (false, s')
                      | [] => (false, s')
                      end in
                    let (ex, r) := take_digits s'' in
                    match ex with
                    | [] => None
                    | _ => Some ((if eneg then - digits_value ex
                                  else digits_value ex)%Z, r)
                    end
                  else Some (0%Z, s)
              | [] => Some (0%Z, s)
              end in
            match exp_s with
            | None => None
            | Some (ex, s) =>
                let m := digits_value (int ++ frac) in
                let m := if neg then (- m)%Z else m in
                let sc := (Z.of_nat (length frac) - ex)%Z in
                Some (if (sc <? 0)%Z
                      then Num (m * 10 ^ (- sc))%Z 0
                      else normalize m (Z.to_nat sc), s)
            end
        end
  end.

Fixpoint strip_prefix (w s : list ascii) : option (list ascii) :=
  match w, s with
  | [], _ => Some s
  | a :: w', b :: s' =>
      if (Chars.code a =? Chars.code b)%N then strip_prefix w' s' else None
  | _ :: _, [] => None
  end.

Fixpoint read_value (fuel : nat) (s : list ascii)
    : option (value * list ascii) :=
  match fuel with
  | O => None
  | S fuel' =>
      match s with
      | [] => None
      | c :: s' =>
          let n := Chars.code c in
          if (n =? 34)%N then
            match read_string s' [] with
            | Some (str, r) => Some (VStr str, r)
            | None => None
            end
          else if (n =? 91)%N then
            match skip_ws s' with
            | d :: r =>
                if (Chars.code d =? 93)%N then Some (VArr [], r)
                else read_items fuel' (d :: r) []
            | [] => None
            end
          else if (n =? 123)%N then
            match skip_ws s' with
            | d :: r =>
                if (Chars.code d =? 125)%N then Some (VObj [], r)
                else read_members fuel' (d :: r) []
            | [] => None
            end
          else if (n =? 116)%N then
            option_map (pair (VBool true)) (strip_prefix (chars "true") s)
          else if (n =? 102)%N then
            option_map (pair (VBool false)) (strip_prefix (chars "false") s)
          else if (n =? 110)%N then
            option_map (pair VNull) (strip_prefix (chars "null") s)
          else
            match read_number s with
            | Some (num, r) => Some (VNum num, r)
            | None => None
            end
      end
  end

with read_items (fuel : nat) (s : list ascii) (acc : list value)
    : option (value * list ascii) :=
  match fuel with
  | O => None
  | S fuel' =>
      match read_value fuel' s with
      | None => None
      | Some (v, r) =>
          match skip_ws r with
          | d :: r' =>
              if (Chars.code d =? 44)%N
              then read_items fuel' (skip_ws r') (v :: acc)
              else if (Chars.code d =? 93)%N
                   then Some (VArr (rev (v :: acc)), r')
              else None
          | [] => None
          end
      end
  end

with read_members (fuel : nat) (s : list ascii) (acc : object)
    : option (value * list ascii) :=
  match fuel with
  | O => None
  | S fuel' =>
      match s with
      | q :: s' =>
          if (Chars.code q =? 34)%N then
            match read_string s' [] with
            | None => None
            | Some (k, r) =>
                match skip_ws r with
                | col :: r1 =>
                    if (Chars.code col =? 58)%N then
                      match read_value fuel' (skip_ws r1) with
                      | None => None
                      | Some (v, r2) =>
                          match skip_ws r2 with
                          | d :: r3 =>
                              if (Chars.code d =? 44)%N
                              then read_members fuel' (skip_ws r3)
                                     (set_member k v acc)
                              else if (Chars.code d =? 125)%N
                                   then Some (VObj (set_member k v acc), r3)
                              else None
                          | [] => None
                          end
                      end
                    else None
                | [] => None
                end
            end
          else None
      | [] => None
      end
  end.

(** [JSON.parse(text)]: one value between optional white space. *)
Definition parse (text : string) : option value :=
  let s := skip_ws (chars text) in
  match read_value (2 * length s + 2) s with
  | Some (v, r) =>
      match skip_ws r with
      | [] => Some v
      | _ :: _ => None
      end
  | None => None
  end.

End Json.


(** ** The [useFloorPlan] hook (hooks/useFloorPlan.js)

    The five [useState] cells are a record, each callback a function from
    the cells before the call to the cells after it.  The collection is an
    array of plain objects, [currentPlan] is [null] or one.  What the
    remote client and the clock answer is an argument. *)

Module Hook.
Import Json.

Record State : Type := mkState {
  floorPlans : list object;
  currentPlan : option object;
  isLoading : bool;
  isGenerating : bool;
  error : option string
}.

(** The cells as [useState] initialises them. *)
Definition initial : State := mkState [] None false false None.

Definition setFloorPlans (l : list object) (st : State) : State :=
  mkState l (currentPlan st) (isLoading st) (isGenerating st) (error st).
Definition setCurrentPlan (p : option object) (st : State) : State :=
  mkState (floorPlans st) p (isLoading st) (isGenerating st) (error st).
Definition setIsLoading (b : bool) (st : State) : State :=
  mkState (floorPlans st) (currentPlan st) b (isGenerating st) (error st).
Definition setIsGenerating (b : bool) (st : State) : State :=
  mkState (floorPlans st) (currentPlan st) (isLoading st) b (error st).
Definition setError (e : option string) (st : State) : State :=
  mkState (floorPlans st) (currentPlan st) (isLoading st) (isGenerating st) e.

(** How a promise of the remote client settles. *)
Inductive settled : Type :=
| Resolved (data : value)
| Rejected.

(** The item of [localStorage] under the key [floorPlans]; [None] when
    [getItem] answers [null]. *)
Definition Storage : Type := option string.

(** *** The mirror effect

    [if (floorPlans.length > 0) localStorage.setItem(...)], run after a
    render in which [floorPlans] is a new array.  [setItem] is taken to
    succeed. *)

Definition collection (st : State) : value := VArr (map VObj (floorPlans st)).

Definition mirror (st : State) (ls : Storage) : Storage :=
  if (0 <? length (floorPlans st))%nat
  then Some (stringify (collection st))
  else ls.

(** [touched] tells whether the call went through [setFloorPlans]. *)
Definition after_render (touched : bool) (st : State) (ls : Storage)
    : Storage :=
  if touched then mirror st ls else ls.

(** *** [loadFloorPlans] *)

Definition load_failed_msg : string :=
  "Failed to load floor plans from server. Using locally saved plans instead.".

(** An array of objects, as the collection is typed here. *)
Fixpoint objects_of (items : list value) : option (list object) :=
  match items with
  | [] => Some []
  | VObj o :: items' => option_map (cons o) (objects_of items')
  | _ :: _ => None
  end.

Definition as_plans (v : value) : option (list object) :=
  match v with
  | VArr items => objects_of items
  | _ => None
  end.

(** [data && data.floorPlans && Array.isArray(data.floorPlans)] *)
Definition plan_array (data : value) : option value :=
  if truthy data then
    match get data "floorPlans" with
    | Some fp => if truthy fp && isArray fp then Some fp else None
    | None => None
    end
  else None.

(** [getItem], [if (savedPlans)], [JSON.parse(savedPlans)]. *)
Inductive saved : Type :=
| NothingSaved
| Parsed (v : value)
| SyntaxError.

Definition read_saved (ls : Storage) : saved :=
  match ls with
  | None => NothingSaved
  | Some text =>
      if String.eqb text "" then NothingSaved
      else match parse text with
           | Some v => Parsed v
           | None => SyntaxError
           end
  end.

(** How the loader ends: it returns; an exception leaves it (the promise
    of the [async] function rejects); or [setFloorPlans] was handed a
    value that is not an array of objects, which the typed collection does
    not hold.  [touched] is as for [after_render]. *)
Inductive load_end : Type :=
| Loaded (touched : bool) (st : State)
| LoadThrew (st : State)
| LoadForeign (v : value) (st : State).

Definition load_begin (st : State) : State :=
  setError None (setIsLoading true st).

(** [setFloorPlans(v)], then the rest of the block, then [finally]. *)
Definition adopt (v : value) (rest : State -> State) (st : State) : load_end :=
  match as_plans v with
  | Some l => Loaded true (setIsLoading false (rest (setFloorPlans l st)))
  | None => LoadForeign v (setIsLoading false (rest st))
  end.

(** The [catch] block, then [finally]. *)
Definition load_catch (ls : Storage) (st : State) : load_end :=
  match read_saved ls with
  | NothingSaved =>
      Loaded false (setIsLoading false (setError (Some load_failed_msg) st))
  | Parsed v => adopt v (setError (Some load_failed_msg)) st
  | SyntaxError => LoadThrew (setIsLoading false st)
  end.

(** From the [await] on. *)
Definition load_resume (res : settled) (ls : Storage) (st : State)
    : load_end :=
  match res with
  | Rejected => load_catch ls st
  | Resolved data =>
      match plan_array data with
      | Some fp => adopt fp id st
      | None =>
          match read_saved ls with
          | NothingSaved => Loaded false (setIsLoading false st)
          | Parsed v => adopt v id st
          | SyntaxError => load_catch ls st
          end
      end
  end.

Definition loadFloorPlans (res : settled) (ls : Storage) (st : State)
    : load_end :=
  load_resume res ls (load_begin st).

(** *** [generateFloorPlan] *)

Definition empty_prompt_msg : string :=
  "Please enter a description for your floor plan".
Definition generate_failed_msg : string :=
  "Failed to generate floor plan. Please try again.".
Definition placeholder_url : string :=
  "https://placehold.co/600x600/e2e8f0/1e293b?text=Floor+Plan".

(** The WhiteSpace and LineTerminator code points of the language, each
    by its UTF-8 encoding: U+0009 to U+000D, U+0020, U+00A0, U+1680,
    U+2000 to U+200A, U+2028, U+2029, U+202F, U+205F, U+3000, U+FEFF. *)
Definition white_space : list (list N) :=
  [ [9]; [10]; [11]; [12]; [13]; [32];
    [194; 160];
    [225; 154; 128];
    [226; 128; 128]; [226; 128; 129]; [226; 128; 130]; [226; 128; 131];
    [226; 128; 132]; [226; 128; 133]; [226; 128; 134]; [226; 128; 135];
    [226; 128; 136]; [226; 128; 137]; [226; 128; 138];
    [226; 128; 168]; [226; 128; 169];
    [226; 128; 175];
    [226; 129; 159];
    [227; 128; 128];
    [239; 187; 191] ]%N.

(** The text after the bytes [w], when it starts with them. *)
Fixpoint strip_codes (w : list N) (s : list ascii) : option (list ascii) :=
  match w, s with
  | [], _ => Some s
  | n :: w', c :: s' =>
      if (Chars.code c =? n)%N then strip_codes w' s' else None
  | _ :: _, [] => None
  end.

Fixpoint strip_any (ws : list (list N)) (s : list ascii)
    : option (list ascii) :=
  match ws with
  | [] => None
  | w :: ws' =>
      match strip_codes w s with
      | Some s' => Some s'
      | None => strip_any ws' s
      end
  end.

(** Strip the characters of [ws] from the head, as long as there is one;
    each takes at least one byte, so the length of the text is fuel
    enough. *)
Fixpoint drop_spaces (ws : list (list N)) (fuel : nat) (s : list ascii)
    : list ascii :=
  match fuel with
  | O => s
  | S fuel' =>
      match strip_any ws s with
      | Some s' => drop_spaces ws fuel' s'
      | None => s
      end
  end.

Definition drop_space (s : list ascii) : list ascii :=
  drop_spaces white_space (length s) s.

(** From the end: the same on the reversed text, each encoding
    reversed. *)
Definition drop_space_end (s : list ascii) : list ascii :=
  rev (drop_spaces (map (@rev N) white_space) (length s) (rev s)).

(** [String.prototype.trim]; a text is the UTF-8 encoding of the
    JavaScript string. *)
Definition trim (s : string) : string :=
  string_of_list_ascii (drop_space_end (drop_space (list_ascii_of_string s))).

(** What the clock, the random generator and the build answer during one
    call. *)
Record Env : Type := mkEnv {
  now_iso : string;        (* new Date().toISOString() *)
  now_ms : string;         (* Date.now().toString() *)
  random_seed : number;    (* Math.floor(Math.random() * 1000000) *)
  development : bool       (* process.env.NODE_ENV === "development" *)
}.

Definition default_parameters (options : object) (env : Env) : value :=
  VObj [ ("numInferenceSteps",
            or_else (prop options "numInferenceSteps") (of_Z 50));
         ("guidanceScale",
            or_else (prop options "guidanceScale") (VNum (Num 75 1)));
         ("seed", or_else (prop options "seed") (VNum (random_seed env))) ].

(** The object literal of the [try] block; [None] when reading [data.id]
    throws. *)
Definition newFloorPlan (data : value) (options : object) (env : Env)
    : option object :=
  match get data "id" with
  | None => None
  | Some _ =>
      let field k := default VUndef (get data k) in
      Some [ ("id", field "id");
             ("prompt", field "prompt");
             ("imageUrl", field "imageUrl");
             ("createdAt", or_else (field "createdAt") (VStr (now_iso env)));
             ("parameters",
                or_else (field "parameters") (default_parameters options env));
             ("generationTime", or_else (field "generationTime") (of_Z 0)) ]
  end.

Definition demoFloorPlan (prompt : string) (options : object) (env : Env)
    : object :=
  [ ("id", VStr (now_ms env));
    ("prompt", VStr prompt);
    ("imageUrl", VStr placeholder_url);
    ("createdAt", VStr (now_iso env));
    ("parameters", default_parameters options env);
    ("generationTime", VNum (Num 15 1)) ].

(** What a callback hands back: its return value, the cells, and whether
    it went through [setFloorPlans]. *)
Record outcome (R : Type) : Type := mkOutcome {
  returned : R;
  cells : State;
  touched : bool
}.
Arguments mkOutcome {R} _ _ _.
Arguments returned {R} _.
Arguments cells {R} _.
Arguments touched {R} _.

(** [setCurrentPlan(plan); setFloorPlans((prev) => [plan, ...prev])] *)
Definition prepend (plan : object) (st : State) : State :=
  setFloorPlans (plan :: floorPlans st) (setCurrentPlan (Some plan) st).

(** The first lines of the [try] block, up to the [await]. *)
Definition generate_begin (st : State) : State :=
  setError None (setIsGenerating true st).

(** The [catch] block, then [finally]. *)
Definition generate_catch (prompt : string) (options : object) (env : Env)
    (st : State) : outcome (option object) :=
  let st := setError (Some generate_failed_msg) st in
  if development env then
    let demo := demoFloorPlan prompt options env in
    mkOutcome (Some demo) (setIsGenerating false (prepend demo st)) true
  else mkOutcome None (setIsGenerating false st) false.

(** From the [await] on. *)
Definition generate_resume (res : settled) (prompt : string)
    (options : object) (env : Env) (st : State) : outcome (option object) :=
  match res with
  | Rejected => generate_catch prompt options env st
  | Resolved data =>
      match newFloorPlan data options env with
      | Some plan =>
          mkOutcome (Some plan) (setIsGenerating false (prepend plan st)) true
      | None => generate_catch prompt options env st
      end
  end.

(** One call of the remote client's [generateFloorPlan]. *)
Definition request : Type := (string * object)%type.

(** The whole callback against a remote client [api]; the last component
    lists the requests it sent. *)
Definition generateFloorPlan (api : string -> object -> settled) (env : Env)
    (prompt : string) (options : object) (st : State)
    : outcome (option object) * list request :=
  if String.eqb (trim prompt) ""
  then (mkOutcome None (setError (Some empty_prompt_msg) st) false, [])
  else (generate_resume (api prompt options) prompt options env
          (generate_begin st),
        [(prompt, options)]).

(** *** [saveFloorPlan] and [deleteFloorPlan] *)

(** [currentPlan?.id] *)
Definition current_id (st : State) : value :=
  match currentPlan st with
  | Some p => prop p "id"
  | None => VUndef
  end.

Definition saveFloorPlan (plan : object) (st : State)
    : outcome (option object) :=
  let st := setError None (setIsLoading true st) in
  let st' :=
    setFloorPlans
      (map (fun p => if strict_eq (prop p "id") (prop plan "id")
                     then plan else p) (floorPlans st)) st in
  let st' :=
    if strict_eq (current_id st) (prop plan "id")
    then setCurrentPlan (Some plan) st' else st' in
  mkOutcome (Some plan) (setIsLoading false st') true.

Definition deleteFloorPlan (id : string) (st : State) : outcome bool :=
  let st := setError None (setIsLoading true st) in
  let st' :=
    setFloorPlans
      (List.filter (fun p => negb (strict_eq (prop p "id") (VStr id)))
         (floorPlans st)) st in
  let st' :=
    if strict_eq (current_id st) (VStr id)
    then setCurrentPlan None st' else st' in
  mkOutcome true (setIsLoading false st') true.

(** *** A session of the hook

    The cells, the stored item, the [generateFloorPlan] calls waiting for
    the remote client, and whether the loader of the mount effect is still
    waiting.  A step is one synchronous stretch of a callback followed by
    the render it causes.  A loader that hands [setFloorPlans] a value
    other than an array of objects has no step: the typed collection does
    not hold such a value. *)

Record Session : Type := mkSession {
  hook : State;
  storage : Storage;
  pending : list request;
  loading : bool
}.

(** After the first render: both effects have run, the loader up to its
    [await], the mirror without writing (the collection is empty). *)
Definition start (ls : Storage) : Session :=
  mkSession (load_begin initial) ls [] true.

Definition rendered {R} (o : outcome R) (s : Session) (waiting : list request)
    : Session :=
  mkSession (cells o) (after_render (touched o) (cells o) (storage s))
    waiting (loading s).

Inductive step : Session -> Session -> Prop :=
| StepLoaded (s : Session) (res : settled) (t : bool) (st' : State) :
    loading s = true ->
    load_resume res (storage s) (hook s) = Loaded t st' ->
    step s (mkSession st' (after_render t st' (storage s)) (pending s) false)
| StepLoadThrew (s : Session) (res : settled) (st' : State) :
    loading s = true ->
    load_resume res (storage s) (hook s) = LoadThrew st' ->
    step s (mkSession st' (storage s) (pending s) false)
| StepGenerateBlank (s : Session) (prompt : string) (options : object) :
    String.eqb (trim prompt) "" = true ->
    step s (mkSession (setError (Some empty_prompt_msg) (hook s))
              (storage s) (pending s) (loading s))
| StepGenerateSent (s : Session) (prompt : string) (options : object) :
    String.eqb (trim prompt) "" = false ->
    step s (mkSession (generate_begin (hook s)) (storage s)
              ((prompt, options) :: pending s) (loading s))
| StepGenerateSettled (s : Session) (i : nat) (prompt : string)
    (options : object) (res : settled) (env : Env) :
    pending s !! i = Some (prompt, options) ->
    step s (rendered (generate_resume res prompt options env (hook s)) s
              (delete i (pending s)))
| StepSave (s : Session) (plan : object) :
    step s (rendered (saveFloorPlan plan (hook s)) s (pending s))
| StepDelete (s : Session) (id : string) :
    step s (rendered (deleteFloorPlan id (hook s)) s (pending s))
| StepSelect (s : Session) (p : option object) :
    step s (mkSession (setCurrentPlan p (hook s)) (storage s) (pending s)
              (loading s))
| StepClearError (s : Session) :
    step s (mkSession (setError None (hook s)) (storage s) (pending s)
              (loading s)).

Inductive reachable : Session -> Prop :=
| reach_start (ls : Storage) : reachable (start ls)
| reach_step (s s' : Session) : reachable s -> step s s' -> reachable s'.

(** Two invariants of a session: the store agrees with a collection that
    is not empty; with no generate call waiting, the flag is down. *)
Definition mirrored (s : Session) : Prop :=
  floorPlans (hook s) <> [] ->
  storage s = Some (stringify (collection (hook s))).

Definition released (s : Session) : Prop :=
  pending s = [] -> isGenerating (hook s) = false.

(** What the remote list call offers for adoption, if anything. *)
Definition remote_plans (res : settled) : option value :=
  match res with
  | Resolved data => plan_array data
  | Rejected => None
  end.

End Hook.

(** ** A sample session

    The remote list call fails and nothing is stored; one plan is
    generated; it is deleted again. *)

Module Scenario.
Import Json Hook.

Definition env0 : Env :=
  mkEnv "2025-01-01T00:00:00.000Z" "1735689600000" (Num 7 0) false.

Definition response0 : value := VObj [("id", VStr "p1")].

Definition plan0 : object :=
  [ ("id", VStr "p1");
    ("prompt", VUndef);
    ("imageUrl", VUndef);
    ("createdAt", VStr "2025-01-01T00:00:00.000Z");
    ("parameters", VObj [ ("numInferenceSteps", of_Z 50);
                          ("guidanceScale", VNum (Num 75 1));
                          ("seed", of_Z 7) ]);
    ("generationTime", of_Z 0) ].

Definition s_loaded : Session :=
  mkSession
    (setIsLoading false (setError (Some load_failed_msg) (load_begin initial)))
    None [] false.

Definition s_sent : Session :=
  mkSession (generate_begin (hook s_loaded)) None [("a studio", [])] false.

Definition s_generated : Session :=
  rendered (generate_resume (Resolved response0) "a studio" [] env0
              (hook s_sent)) s_sent [].

Definition s_deleted : Session :=
  rendered (deleteFloorPlan "p1" (hook s_generated)) s_generated [].




(** A response with an integer id. *)
Definition response42 : value := VObj [("id", of_Z 42)].

(** A prompt of one no-break space (U+00A0) between a space and a tab. *)
Definition blank_prompt : string :=
  String " " (String (ascii_of_N 194) (String (ascii_of_N 160)
    (String (ascii_of_N 9) EmptyString))).

End Scenario.

(** ** The other text helpers (utils/helpers.js)

    [truncateString], [getFileExtension] and [createSlugFromPrompt].
    [truncateString] measures and cuts by UTF-16 code units, so there a
    text is the list of its code units.  In the other two a text is a
    string of bytes and [toLowerCase] maps the ASCII letters. *)

Module TextHelpers.

(** [s.substring(0, n)]: a negative [n] counts as 0, one beyond the
    length as the length. *)
Definition substring0 (s : list ascii) (n : Z) : list ascii :=
  firstn (Z.to_nat n) s.

Definition toLowerCase (s : list ascii) : list ascii := map Chars.to_lower s.

(** The code units [String.prototype.trim] strips: the WhiteSpace and
    LineTerminator code points, all of one unit. *)
Definition white_unit (u : N) : bool :=
  ((9 <=? u) && (u <=? 13) || (u =? 32) || (u =? 160) || (u =? 5760)
   || (8192 <=? u) && (u <=? 8202) || (u =? 8232) || (u =? 8233)
   || (u =? 8239) || (u =? 8287) || (u =? 12288) || (u =? 65279))%N.

Fixpoint drop_white (s : list N) : list N :=
  match s with
  | u :: s' => if white_unit u then drop_white s' else s
  | [] => []
  end.

(** [String.prototype.trim], on code units. *)
Definition trim_units (s : list N) : list N :=
  rev (drop_white (rev (drop_white s))).

(** Three full stops. *)
Definition ellipsis : list N := [46; 46; 46]%N.

(** [truncateString(str, maxLength)]; the caller passes 100 where the
    source defaults it.  [str.substring(0, maxLength)] takes a negative
    [maxLength] as 0 and one beyond the length as the length. *)
Definition truncateString (str : list N) (maxLength : Z) : list N :=
  if match str with [] => true | _ :: _ => false end
     || (Z.of_nat (length str) <=? maxLength)%Z
  then str
  else trim_units (firstn (Z.to_nat maxLength) str) ++ ellipsis.

(** The code units of an ASCII text. *)
Definition units_of (s : string) : list N :=
  map Chars.code (list_ascii_of_string s).

(** [s.split(sep)] for a one-character separator: the pieces between the
    separators, at least one piece. *)
Fixpoint split_at (sep : ascii) (s : list ascii) : list (list ascii) :=
  match s with
  | [] => [[]]
  | c :: s' =>
      if (Chars.code c =? Chars.code sep)%N
      then [] :: split_at sep s'
      else match split_at sep s' with
           | piece :: pieces => (c :: piece) :: pieces
           | [] => [[c]]
           end
  end.

(** [pieces.pop()] of an array that is not empty. *)
Definition pop (pieces : list (list ascii)) : list ascii :=
  List.last pieces [].

Definition getFileExtension (filename : string) : string :=
  if String.eqb filename "" then ""
  else string_of_list_ascii
         (toLowerCase (pop (split_at "." (list_ascii_of_string filename)))).

Definition is_dot (c : ascii) : bool := (Chars.code c =? Chars.code ".")%N.

Definition is_hyphen (c : ascii) : bool := (Chars.code c =? 45)%N.

(** [.replace(/[^\w\s-]/g, "")] *)
Definition remove_special (s : list ascii) : list ascii :=
  List.filter (fun c => Chars.is_word c || Chars.is_space c || is_hyphen c) s.

(** [.replace(/\s+/g, "-")]: every maximal run of white space becomes one
    hyphen; [inside] tells that the run has begun. *)
Fixpoint spaces_to_hyphen (inside : bool) (s : list ascii) : list ascii :=
  match s with
  | [] => []
  | c :: s' =>
      if Chars.is_space c
      then if inside then spaces_to_hyphen true s'
           else "-"%char :: spaces_to_hyphen true s'
      else c :: spaces_to_hyphen false s'
  end.

(** [.replace(/-+/g, "-")]: every maximal run of hyphens becomes one. *)
Fixpoint collapse_hyphens (inside : bool) (s : list ascii) : list ascii :=
  match s with
  | [] => []
  | c :: s' =>
      if is_hyphen c
      then if inside then collapse_hyphens true s'
           else c :: collapse_hyphens true s'
      else c :: collapse_hyphens false s'
  end.

Fixpoint drop_hyphens (s : list ascii) : list ascii :=
  match s with
  | c :: s' => if is_hyphen c then drop_hyphens s' else s
  | [] => []
  end.

(** [.replace(/^-+|-+$/g, "")]: the hyphens at the start and those at the
    end. *)
Definition strip_hyphens (s : list ascii) : list ascii :=
  rev (drop_hyphens (rev (drop_hyphens s))).

Definition slug_chars (prompt : list ascii) : list ascii :=
  strip_hyphens
    (substring0
       (collapse_hyphens false
          (spaces_to_hyphen false (remove_special (toLowerCase prompt))))
       60).

Definition createSlugFromPrompt (prompt : string) : string :=
  if String.eqb prompt "" then ""
  else string_of_list_ascii (slug_chars (list_ascii_of_string prompt)).

(** What a slug is made of: lower-case letters, digits, the underscore
    and the hyphen. *)
Definition slug_char (c : ascii) : bool :=
  Chars.is_lower c || Chars.is_digit c || (Chars.code c =? 95)%N
  || is_hyphen c.

Fixpoint no_double_hyphen (s : list ascii) : bool :=
  match s with
  | a :: ((b :: _) as s') =>
      negb (is_hyphen a && is_hyphen b) && no_double_hyphen s'
  | _ => true
  end.

Definition no_hyphen_at_ends (s : list ascii) : bool :=
  match s with
  | [] => true
  | c :: _ => negb (is_hyphen c) && negb (is_hyphen (List.last s c))
  end.

End TextHelpers.

(** ** The remote client (services/api.js)

    [fetchApi] and the two methods of [apiService].  What the network
    answers to a request is an argument. *)

Module Api.
Import Json.

Definition API_BASE_URL : string := "/api".

(** [endpoint.replace(/^\//, "")]: one leading slash is dropped. *)
Definition strip_slash (endpoint : string) : string :=
  match endpoint with
  | String c e => if (Chars.code c =? 47)%N then e else endpoint
  | EmptyString => endpoint
  end.

(** [`${API_BASE_URL}/${...}`] *)
Definition url_of (endpoint : string) : string :=
  API_BASE_URL +:+ "/" +:+ strip_slash endpoint.

(** What [fetch] is called with and what it resolves to. *)
Record Request : Type := mkRequest {
  url : string;
  method : option string;
  headers : list (string * string);
  payload : option string
}.

Record Response : Type := mkResponse {
  ok : bool;
  status : N;
  contentType : option string;     (* response.headers.get("content-type") *)
  body : string
}.

(** [fetch] rejects, or resolves with a response. *)
Inductive fetched : Type :=
| NetworkError
| Answer (r : Response).

(** What [fetchApi] throws: the rejection of [fetch], that of
    [response.json()], the TypeError of reading [data.message] off
    [null], or [new Error(message)] with the value it was built from. *)
Inductive failure : Type :=
| FetchFailed
| BodyNotJson
| ReadOfNull
| ApiError (message : value).

Inductive result : Type :=
| Returned (data : value)
| Thrown (e : failure).

Fixpoint starts_with (w s : list ascii) : bool :=
  match w, s with
  | [], _ => true
  | a :: w', b :: s' => (Chars.code a =? Chars.code b)%N && starts_with w' s'
  | _ :: _, [] => false
  end.

(** [hay.includes(needle)] *)
Fixpoint includes (needle hay : list ascii) : bool :=
  starts_with needle hay
  || match hay with
     | [] => false
     | _ :: hay' => includes needle hay'
     end.

(** [contentType && contentType.includes("application/json")] *)
Definition isJson (r : Response) : bool :=
  match contentType r with
  | Some ct =>
      negb (String.eqb ct "")
      && includes (chars "application/json") (chars ct)
  | None => false
  end.

(** [`API error: ${response.status}`] *)
Definition status_message (r : Response) : value :=
  VStr ("API error: " +:+ string_of_list_ascii (digits_of_N (status r))).

(** The body of the [try] block from the answer on. *)
Definition handle (r : Response) : result :=
  let data :=
    if isJson r
    then match parse (body r) with
         | Some v => Returned v
         | None => Thrown BodyNotJson
         end
    else Returned (VStr (body r)) in
  match data with
  | Thrown e => Thrown e
  | Returned v =>
      if ok r then Returned v
      else if isJson r then
        match get v "message" with
        | None => Thrown ReadOfNull
        | Some m =>
            Thrown (ApiError (if truthy m then m else status_message r))
        end
      else Thrown (ApiError (status_message r))
  end.

(** [{ "Content-Type": "application/json", ...options.headers }] *)
Fixpoint set_header (k v : string) (hs : list (string * string))
    : list (string * string) :=
  match hs with
  | [] => [(k, v)]
  | (k', v') :: hs' =>
      if String.eqb k' k then (k, v) :: hs' else (k', v') :: set_header k v hs'
  end.

Definition merged_headers (own : list (string * string))
    : list (string * string) :=
  fold_left (fun hs kv => set_header (fst kv) (snd kv) hs) own
    [("Content-Type", "application/json")].

Definition fetchApi (net : Request -> fetched) (endpoint : string)
    (method : option string) (own_headers : list (string * string))
    (payload : option string) : result :=
  match net (mkRequest (url_of endpoint) method (merged_headers own_headers)
               payload) with
  | NetworkError => Thrown FetchFailed
  | Answer r => handle r
  end.

(** The request body of [apiService.generateFloorPlan]. *)
Definition generate_payload (prompt : string) (options : object) : value :=
  VObj [ ("prompt", VStr prompt);
         ("num_inference_steps",
            or_else (prop options "numInferenceSteps") (of_Z 50));
         ("guidance_scale",
            or_else (prop options "guidanceScale") (VNum (Num 75 1)));
         ("seed", prop options "seed") ].

Definition generateFloorPlan (net : Request -> fetched) (prompt : string)
    (options : object) : result :=
  fetchApi net "generate-floor-plan" (Some "POST") []
    (Some (stringify (generate_payload prompt options))).

Definition getFloorPlans (net : Request -> fetched) : result :=
  fetchApi net "floor-plans" None [] None.

(** How the awaiting hook sees the promise. *)
Definition settle (r : result) : Hook.settled :=
  match r with
  | Returned data => Hook.Resolved data
  | Thrown _ => Hook.Rejected
  end.

(** What the loader is handed by [apiService.getFloorPlans]. *)
Definition list_call (net : Request -> fetched) : Hook.settled :=
  settle (getFloorPlans net).

End Api.

(** ** One more invariant of a session *)

Module SessionMore.
Import Hook.

(** Once the loader has settled, the loading flag is down. *)
Definition loaded_flag_down (s : Session) : Prop :=
  loading s = false -> isLoading (hook s) = false.

End SessionMore.

(** ** The page and the controls (pages/Home.jsx,
    components/features/FloorPlanGenerator/FloorPlanControls.jsx) *)

Module Home.
Import Json Hook.

(** A primitive: what [===] compares by value. *)
Definition primitive (v : value) : bool :=
  match v with
  | VArr _ | VObj _ => false
  | _ => true
  end.

Definition untitled : string := "Untitled Floor Plan".

(** [name.trim() || 'Untitled Floor Plan'], what [handleSave] of the
    controls hands to [onSave]. *)
Definition chosen_name (input : string) : string :=
  if String.eqb (trim input) "" then untitled else trim input.

(** [{ ...currentFloorPlan, name }] *)
Definition updatedFloorPlan (current : object) (name : string) : object :=
  set_member "name" (VStr name) current.

(** [handleSaveFloorPlan]: [None] when there is no current plan and
    [saveFloorPlan] is not called. *)
Definition handleSaveFloorPlan (name : string) (st : State)
    : option (outcome (option object)) :=
  match currentPlan st with
  | Some current => Some (saveFloorPlan (updatedFloorPlan current name) st)
  | None => None
  end.

End Home.

(** ** A value and its text

    What [JSON.parse] makes of a text that [JSON.stringify] wrote, and the
    notions the proof of it needs. *)

Module JsonText.
Import Json.

(** One step of reading a decimal number from the left, as
    [digits_value] folds it. *)
Definition digit_step (acc : Z) (c : ascii) : Z :=
  (acc * 10 + Z.of_N (Chars.digit_value c))%Z.

(** What may follow a number in a JSON text. *)
Definition ends_number (rest : list ascii) : bool :=
  match rest with
  | [] => true
  | c :: _ =>
      negb (Chars.is_digit c) && negb (Chars.code c =? 46)%N
      && negb ((Chars.code c =? 101) || (Chars.code c =? 69))%N
  end.

(** [x !== undefined] *)
Definition defined (x : value) : bool :=
  match x with VUndef => false | _ => true end.

(** What a value is after a trip through its text: [undefined] in an
    array is [null], a member holding [undefined] is gone, a number is in
    lowest terms, and of two members with one key the later value stands
    at the place of the first. *)
Fixpoint scrub (v : value) : value :=
  match v with
  | VUndef | VNull => VNull
  | VBool b => VBool b
  | VNum n => VNum (normalize (mantissa n) (scale n))
  | VStr s => VStr s
  | VArr items => VArr (map scrub items)
  | VObj members =>
      VObj ((fix go (l : list (string * value)) (acc : object) : object :=
               match l with
               | [] => acc
               | (_, VUndef) :: l' => go l' acc
               | (k, x) :: l' => go l' (set_member k (scrub x) acc)
               end) members [])
  end.

(** The members of an object after the trip, on top of those read so
    far. *)
Fixpoint scrub_members (l : list (string * value)) (acc : object) : object :=
  match l with
  | [] => acc
  | (_, VUndef) :: l' => scrub_members l' acc
  | (k, x) :: l' => scrub_members l' (set_member k (scrub x) acc)
  end.

(** What a plan is after a trip through the store. *)
Definition stored_plan (o : object) : object := scrub_members o [].

(** The local functions of [print], by name. *)
Fixpoint print_elems (first : bool) (l : list value) : list ascii :=
  match l with
  | [] => []
  | x :: l' =>
      (if first then [] else [","%char]) ++ print x ++ print_elems false l'
  end.

Fixpoint print_fields (first : bool) (l : list (string * value))
    : list ascii :=
  match l with
  | [] => []
  | (_, VUndef) :: l' => print_fields first l'
  | (k, x) :: l' =>
      (if first then [] else [","%char]) ++
      quote k ++ ":"%char :: print x ++ print_fields false l'
  end.

(** The members that are printed. *)
Definition live (l : list (string * value)) : list (string * value) :=
  List.filter (fun kv => defined (snd kv)) l.

(** What may follow a value inside a text: nothing, a comma or a closing
    bracket. *)
Definition closes (rest : list ascii) : bool :=
  match rest with
  | [] => true
  | c :: _ =>
      ((Chars.code c =? 44) || (Chars.code c =? 93) || (Chars.code c =? 125))%N
  end.

(** The first character of a printed value. *)
Definition opens (c : ascii) : bool :=
  negb (is_ws c) && negb (Chars.code c =? 93)%N
  && negb (Chars.code c =? 125)%N.

(** The property carried through the structure of a value. *)
Definition reads_back (v : value) : Prop :=
  forall (fuel : nat) (rest : list ascii),
    (2 * length (print v) <= fuel + 1)%nat ->
    closes rest = true ->
    read_value fuel (print v ++ rest) = Some (scrub v, rest).

(** No key twice. *)
Fixpoint distinct (ks : list string) : bool :=
  match ks with
  | [] => true
  | k :: ks' => negb (existsb (String.eqb k) ks') && distinct ks'
  end.

(** A value that its text gives back as it is: nothing undefined inside,
    no trailing zero in a fraction, no key twice in an object. *)
Fixpoint tidy (v : value) : bool :=
  match v with
  | VUndef => false
  | VNull | VBool _ | VStr _ => true
  | VNum n =>
      match scale n with
      | O => true
      | S _ => negb (mantissa n mod 10 =? 0)%Z
      end
  | VArr items => forallb tidy items
  | VObj members =>
      distinct (map fst members)
      && forallb (fun kv => tidy (snd kv)) members
  end.

(** No half of a surrogate pair: in UTF-8 one would show as the byte 237
    followed by a byte from 160 on. *)
Fixpoint no_surrogate (s : list ascii) : bool :=
  match s with
  | c :: s' =>
      negb ((Chars.code c =? 237)%N
            && match s' with
               | d :: _ => (160 <=? Chars.code d)%N
               | [] => false
               end)
      && no_surrogate s'
  | [] => true
  end.

(** A key that is no array index: it does not start with a digit. *)
Definition named_key (k : string) : bool :=
  match k with
  | String c _ => negb (Chars.is_digit c)
  | EmptyString => true
  end.

(** The values on which this model of JSON text is exactly the
    program's.  A number has at most fifteen figures and at most six
    decimals: JavaScript prints such a number in plain notation with
    these very figures, and reads the numeral back as the same number.
    An object has no key twice and no key that is an array index (those
    a JavaScript object lists first).  No text holds half a surrogate
    pair. *)
Fixpoint storable (v : value) : bool :=
  match v with
  | VUndef | VNull | VBool _ => true
  | VNum n => (Z.abs (mantissa n) <? 10 ^ 15)%Z && (scale n <=? 6)%nat
  | VStr s => no_surrogate (chars s)
  | VArr items => forallb storable items
  | VObj members =>
      distinct (map fst members)
      && forallb (fun kv => named_key (fst kv)
                            && no_surrogate (chars (fst kv))
                            && storable (snd kv)) members
  end.

(** A member as it is after the trip. *)
Definition scrub_member (kv : string * value) : string * value :=
  (fst kv, scrub (snd kv)).

(** How the text of a collection begins when its first plan starts with
    the member [id]: an opening bracket, an opening brace, the quoted key
    and a colon; the id follows. *)
Definition id_opening : list ascii :=
  ["["; "{"]%char ++ Chars.dquote :: chars "id" ++ [Chars.dquote; ":"%char].

(** A character that stands for itself inside a JSON string: neither a
    control character nor the quote nor the backslash. *)
Definition shown_plain (c : ascii) : bool :=
  (32 <=? Chars.code c)%N && negb (Chars.code c =? 34)%N
  && negb (Chars.code c =? 92)%N.

(** The decimal numeral of an integer. *)
Definition numeral (z : Z) : list ascii :=
  list_ascii_of_string (NilZero.string_of_int (Z.to_int z)).

End JsonText.

(** ** The stored item of a session *)

Module Store.
Import Json JsonText Hook.

(** The item is absent, or it is the text of a collection. *)
Definition own_store (ls : Storage) : Prop :=
  ls = None \/ exists plans : list object,
                 ls = Some (stringify (VArr (map VObj plans))).

(** A collection of one demo plan. *)
Definition demo_state : State :=
  setFloorPlans [demoFloorPlan "a studio" [] Scenario.env0] initial.

(** A server that answers every request with a listing of one plan,
    spaced, beside another member. *)
Definition q : string := String Chars.dquote EmptyString.

Definition sample_body : string :=
  "{ " +:+ q +:+ "total" +:+ q +:+ ": 1," +:+
  "  " +:+ q +:+ "floorPlans" +:+ q +:+ ": [ { " +:+
  q +:+ "id" +:+ q +:+ ": " +:+ q +:+ "p1" +:+ q +:+ " } ] }".

Definition sample_listing : object :=
  [ ("total", of_Z 1); ("floorPlans", VArr [VObj [("id", VStr "p1")]]) ].

Definition sample_response : Api.Response :=
  Api.mkResponse true 200 (Some "application/json; charset=utf-8")
    sample_body.

Definition sample_net (_ : Api.Request) : Api.fetched :=
  Api.Answer sample_response.

(** Options with a falsy step count, no guidance scale and a seed. *)
Definition sample_options : object :=
  [ ("numInferenceSteps", of_Z 0); ("seed", of_Z 7) ].

End Store.

(** ** Letter case in the matcher *)

Module Casing.
Import Regex.

Definition up : ascii -> ascii := Chars.to_upper.

(** A position of the matcher, with every character in upper case. *)
Definition up_state (st : mstate) : mstate :=
  MState (option_map up (prev st)) (pos st) (map up (rest st))
    (option_map (map up) (cap1 st)).

(** Every class of the expression holds of a letter in both cases. *)
Fixpoint case_blind (r : regex) : Prop :=
  match r with
  | REps | RChar _ | RWordB => True
  | RPlus cls => forall c, cls (up c) = cls c
  | ROpt r1 | RGroup r1 => case_blind r1
  | RSeq r1 r2 | RAlt r1 r2 => case_blind r1 /\ case_blind r2
  end.

End Casing.

(** ** [debounce] (utils/helpers.js)

    The closure keeps one variable, [timeout].  The timers of the
    environment are a map from the identifiers [setTimeout] hands out to
    the time each is due and the arguments its callback [later] has
    captured; a timer may fire once its time has come, and
    [clearTimeout] drops an identifier, known or not.  The calls made and
    the runs of [func] are recorded; [func] is taken not to call the
    debounced function itself. *)

Module Debounce.

Section Debounced.
Context {A : Type}.
Variable wait : nat.

Record State : Type := mkState {
  now : nat;
  pending : gmap nat (nat * A);
  next_id : nat;
  timeout : option nat;          (* let timeout *)
  calls : list (nat * A);        (* when and with what, latest first *)
  runs : list A                  (* func(...args), latest first *)
}.

Definition fresh (t : nat) : State := mkState t ∅ 0 None [] [].

(** [clearTimeout(timeout)] *)
Definition clearTimeout (id : option nat) (p : gmap nat (nat * A))
    : gmap nat (nat * A) :=
  match id with
  | Some i => delete i p
  | None => p
  end.

(** [executedFunction(...args)] *)
Definition executedFunction (args : A) (s : State) : State :=
  let p := clearTimeout (timeout s) (pending s) in
  mkState (now s) (<[next_id s := (now s + wait, args)]> p)
    (S (next_id s)) (Some (next_id s))
    ((now s, args) :: calls s) (runs s).

(** The timer [id] fires and runs its [later]; [None] when there is no
    such timer or its time has not come. *)
Definition fire (id : nat) (s : State) : option State :=
  match pending s !! id with
  | Some (due, args) =>
      if (due <=? now s)%nat
      then Some (mkState (now s)
                   (clearTimeout (timeout s) (delete id (pending s)))
                   (next_id s) (timeout s) (calls s) (args :: runs s))
      else None
  | None => None
  end.

Definition elapse (d : nat) (s : State) : State :=
  mkState (now s + d) (pending s) (next_id s) (timeout s) (calls s) (runs s).

Inductive step : State -> State -> Prop :=
| StepCall (s : State) (args : A) : step s (executedFunction args s)
| StepFire (s s' : State) (id : nat) : fire id s = Some s' -> step s s'
| StepElapse (s : State) (d : nat) : step s (elapse d s).

(** Nothing is pending, or the one timer of the latest call. *)
Definition armed (s : State) : Prop :=
  pending s = ∅
  \/ exists id since args earlier,
       timeout s = Some id
       /\ calls s = (since, args) :: earlier
       /\ pending s = {[ id := (since + wait, args) ]}.

End Debounced.

Arguments State : clear implicits.

(** Two calls 100 ms apart with a wait of 300 ms, seen 300 ms later. *)
Definition sample_burst : State string :=
  elapse 300 (executedFunction 300 "b"
                (elapse 100 (executedFunction 300 "a" (fresh 0)))).

End Debounce.

(** * Properties *)

(** ** Room extraction *)

Module HelpersFacts.
Import Regex Helpers.

Lemma chars_app (a b : string) :
  list_ascii_of_string (a +:+ b)
  = list_ascii_of_string a ++ list_ascii_of_string b.
Proof. induction a as [|c a IH]; simpl; [reflexivity | now rewrite IH]. Qed.

Lemma visit_self (prompt type : string) (result : gmap string N) :
  visit prompt result type !! type = room_count prompt type (result !! type).
Proof.
  unfold visit, room_count, falsy_at.
  destruct (first_match (patterns type) prompt) as [n|].
  - rewrite lookup_insert_eq.
    destruct n; destruct (test (bare_pattern type) prompt); simpl;
      now rewrite lookup_insert_eq.
  - destruct (result !! type) as [[|q]|] eqn:E;
      destruct (test (bare_pattern type) prompt); simpl;
      now rewrite ?lookup_insert_eq, ?E.
Qed.

Lemma visit_other (prompt type key : string) (result : gmap string N) :
  type <> key -> visit prompt result type !! key = result !! key.
Proof.
  intros Hne. unfold visit.
  destruct (first_match (patterns type) prompt) as [n|];
    match goal with |- context [if ?b then _ else _] => destruct b end;
    now rewrite ?lookup_insert_ne by assumption.
Qed.

Lemma fold_visit_other (prompt key : string) (types : list string) :
  forall result : gmap string N,
    ~ In key types ->
    fold_left (visit prompt) types result !! key = result !! key.
Proof.
  induction types as [|t types IH]; intros result Hnin; simpl.
  - reflexivity.
  - rewrite IH by (intros H; apply Hnin; now right).
    apply visit_other. intros ->. apply Hnin. now left.
Qed.

Lemma roomTypes_NoDup : List.NoDup roomTypes.
Proof.
  unfold roomTypes.
  repeat (constructor; [simpl; intuition discriminate|]). constructor.
Qed.

(** Each room type is decided by its own visit, on an empty result. *)
Lemma extractRoomInfo_at (prompt type : string) :
  prompt <> "" -> In type roomTypes ->
  extractRoomInfo prompt !! type = room_count prompt type None.
Proof.
  intros Hne Hin. unfold extractRoomInfo.
  destruct (String.eqb_spec prompt "") as [->|_]; [contradiction|].
  pose proof roomTypes_NoDup as Hnd.
  destruct (in_split _ _ Hin) as (l1 & l2 & Heq).
  rewrite Heq in Hnd |- *.
  apply NoDup_remove_2 in Hnd.
  rewrite fold_left_app. simpl.
  rewrite fold_visit_other by (intros H; apply Hnd, in_or_app; now right).
  rewrite visit_self.
  rewrite fold_visit_other by (intros H; apply Hnd, in_or_app; now left).
  now rewrite lookup_empty.
Qed.

(** *** What a match of a numeric pattern looks like *)

Lemma rstar_sound cls k s :
  forall pv i cap m,
    rstar cls k pv i s cap = Some m ->
    exists a b pv' i',
      s = a ++ b /\ forallb cls a = true
      /\ k (MState pv' i' b cap) = Some m.
Proof.
  induction s as [|x s IH]; intros pv i cap m H; simpl in H.
  - exists [], [], pv, i. auto.
  - destruct (cls x) eqn:E.
    + destruct (rstar cls k (Some x) (S i) s cap) as [m'|] eqn:E2;
        simpl in H.
      * injection H as <-.
        apply IH in E2 as (a & b & pv' & i' & -> & Ha & Hk).
        exists (x :: a), b, pv', i'. simpl. rewrite E, Ha. auto.
      * exists [], (x :: s), pv, i. auto.
    + exists [], (x :: s), pv, i. auto.
Qed.

Lemma plus_sound cls k st m :
  rmatch (RPlus cls) st k = Some m ->
  exists a b pv' i',
    rest st = a ++ b /\ a <> [] /\ forallb cls a = true
    /\ k (MState pv' i' b (cap1 st)) = Some m.
Proof.
  cbn [rmatch]. destruct (rest st) as [|x s]; [discriminate|].
  destruct (cls x) eqn:E; [|discriminate]. intros H.
  apply rstar_sound in H as (a & b & pv' & i' & -> & Ha & Hk).
  exists (x :: a), b, pv', i'. simpl. rewrite E, Ha. auto.
Qed.

Lemma lit_sound w :
  forall st k m,
    rmatch (lit w) st k = Some m ->
    exists a st',
      rest st = a ++ rest st' /\ length a = length w
      /\ starts_with_i w (rest st) = true
      /\ cap1 st' = cap1 st /\ k st' = Some m.
Proof.
  induction w as [|c w IH]; intros st k m H; cbn [lit rmatch] in H.
  - exists [], st. auto.
  - destruct (rest st) as [|x s] eqn:Er; [discriminate|].
    destruct (same_char_i x c) eqn:E; [|discriminate].
    apply IH in H as (a & st' & Hr & Hl & Hs & Hc & Hk). cbn [rest cap1] in *.
    exists (x :: a), st'. simpl. rewrite E, Hs, Hl, Hr. auto.
Qed.


Lemma orelse_some {A} (a b : option A) (m : A) :
  orelse a b = Some m -> a = Some m \/ b = Some m.
Proof. destruct a; simpl; auto. Qed.

(** What both numeric patterns end with: white space, the room type, an
    optional s. *)
Lemma tail_sound (type : string) st k m :
  rmatch (RSeq (RPlus Chars.is_space)
            (RSeq (word type) (ROpt (RChar "s")))) st k = Some m ->
  exists W tl,
    rest st = W ++ tl /\ W <> [] /\ forallb Chars.is_space W = true
    /\ starts_with_i (list_ascii_of_string type) tl = true.
Proof.
  cbn [rmatch]. intros H.
  apply plus_sound in H as (W & tl & pv' & i' & Hr & Hne & HW & Hk).
  apply lit_sound in Hk as (a & st' & _ & _ & Hs & _).
  exists W, tl. auto.
Qed.

Lemma digits_sound (type : string) st k m :
  rmatch (digits_pattern type) st k = Some m ->
  exists D W tl,
    rest st = D ++ W ++ tl
    /\ D <> [] /\ forallb Chars.is_digit D = true
    /\ W <> [] /\ forallb Chars.is_space W = true
    /\ starts_with_i (list_ascii_of_string type) tl = true.
Proof.
  unfold digits_pattern. cbn [rmatch]. intros H.
  apply plus_sound in H as (D & b & pv' & i' & Hr & Hne & HD & Hk).
  apply (tail_sound type) in Hk as (W & tl & Hr' & HneW & HW & Hs).
  cbn [rest] in Hr'. subst b. exists D, W, tl. auto 10.
Qed.

Lemma words_sound (type : string) st k m :
  rmatch (words_pattern type) st k = Some m ->
  exists a W tl w,
    rest st = a ++ W ++ tl
    /\ In w number_words /\ length a = length w
    /\ starts_with_i w (rest st) = true
    /\ W <> [] /\ forallb Chars.is_space W = true
    /\ starts_with_i (list_ascii_of_string type) tl = true.
Proof.
  unfold words_pattern. cbn [rmatch]. intros H.
  assert (Hw : exists w, In w number_words
             /\ rmatch (lit w) st
                  (fun st' =>
                     rmatch (RSeq (RPlus Chars.is_space)
                               (RSeq (word type) (ROpt (RChar "s"))))
                       (MState (prev st') (pos st') (rest st')
                          (Some (firstn (pos st' - pos st) (rest st)))) k)
                = Some m).
  { unfold number_words. cbn [map In].
    repeat (apply orelse_some in H as [H|H];
            [eexists; split; [|exact H]; tauto|]).
    eexists; split; [|exact H]; tauto. }
  destruct Hw as (w & Hin & Hm).
  apply lit_sound in Hm as (a & st' & Hr & Hl & Hs & _ & Hk).
  apply (tail_sound type) in Hk as (W & tl & Hr' & HneW & HW & Hs').
  cbn [rest] in Hr'. rewrite Hr' in Hr.
  exists a, W, tl, w. auto 10.
Qed.

Lemma search_sound r s :
  forall pv m,
    search r pv s = Some m ->
    exists a0 s' pv',
      s = a0 ++ s' /\ rmatch r (MState pv' 0 s' None) Some = Some m.
Proof.
  induction s as [|x s IH]; intros pv m H; cbn [search] in H.
  - destruct (rmatch r (MState pv 0 [] None) Some) eqn:E; [|discriminate].
    exists [], [], pv. now rewrite E.
  - destruct (rmatch r (MState pv 0 (x :: s) None) Some) eqn:E.
    + exists [], (x :: s), pv. now rewrite E.
    + apply IH in H as (a0 & s' & pv' & -> & Hm).
      exists (x :: a0), s', pv'. auto.
Qed.

Lemma search_some r s (a0 : list ascii) :
  (forall pv, rmatch r (MState pv 0 s None) Some <> None) ->
  forall pv, search r pv (a0 ++ s) <> None.
Proof.
  intros Hs. induction a0 as [|x a0 IH]; intros pv.
  - specialize (Hs pv). cbn [app].
    destruct s; cbn [search];
      destruct (rmatch r _ Some); congruence.
  - cbn [app search].
    destruct (rmatch r _ Some); [discriminate | apply IH].
Qed.

Lemma occurs_at w a tl :
  forall i,
    starts_with_i w tl = true ->
    In (i + length a)%nat (occurrences_from w i (a ++ tl)).
Proof.
  induction a as [|x a IH]; intros i H.
  - cbn [app length]. rewrite Nat.add_0_r.
    destruct tl; cbn [occurrences_from]; rewrite H; now left.
  - cbn [app length occurrences_from]. apply in_or_app. right.
    replace (i + S (length a))%nat with (S i + length a)%nat by lia.
    now apply IH.
Qed.

(** The last element of a block that ends a text. *)
Lemma last_of_block {A} (P : A -> bool) (u B v : list A) (c : A) :
  B <> [] -> forallb P B = true -> u ++ B = v ++ [c] ->
  P c = true
  /\ exists B', B = B' ++ [c] /\ u ++ B' = v /\ forallb P B' = true.
Proof.
  intros Hne HP Heq.
  destruct (exists_last Hne) as (B' & b & ->).
  rewrite app_assoc in Heq. apply app_inj_tail in Heq as [Hu ->].
  rewrite forallb_app in HP. apply andb_prop in HP as [HB Hc].
  simpl in Hc. rewrite andb_true_r in Hc. eauto.
Qed.

(** A block of white space that ends with a space standing right after
    a character that is no white space is that one space. *)
Lemma single_space (u W v : list ascii) (c : ascii) :
  W <> [] -> forallb Chars.is_space W = true ->
  Chars.is_space c = false ->
  u ++ W = v ++ [c; " "%char] ->
  W = [" "%char] /\ u = v ++ [c].
Proof.
  intros Hne HW Hc Heq.
  change (v ++ [c; " "%char]) with (v ++ [c] ++ [" "%char]) in Heq.
  rewrite app_assoc in Heq.
  destruct (last_of_block _ _ _ _ _ Hne HW Heq) as (_ & W' & -> & Hu & HW').
  destruct W' as [|x W'].
  - rewrite app_nil_r in Hu. auto.
  - assert (Hne' : x :: W' <> []) by discriminate.
    destruct (last_of_block _ _ _ _ _ Hne' HW' Hu) as (Hsp & _). congruence.
Qed.

(** Where a numeric pattern can match when the room type occurs once:
    the text before the room type, cut where the match starts. *)
Lemma before_the_type (type : list ascii) (n : nat)
    (text a0 B tl : list ascii) :
  occurrences_from type 0 text = [n] ->
  text = a0 ++ B ++ tl ->
  starts_with_i type tl = true ->
  length (a0 ++ B) = n.
Proof.
  intros Hocc -> Hs.
  pose proof (occurs_at type (a0 ++ B) tl 0 Hs) as Hin.
  rewrite <- app_assoc, Hocc in Hin. simpl in Hin.
  destruct Hin as [<-|[]]. reflexivity.
Qed.

Lemma three_bedrooms_at pv post :
  rmatch (digits_pattern "bedroom")
    (MState pv 0 (list_ascii_of_string "3 bedrooms" ++ post) None) Some
  = Some (MState (Some "s"%char) 10 post (Some ["3"%char])).
Proof. vm_compute. reflexivity. Qed.

Lemma two_bathrooms_at pv post :
  rmatch (words_pattern "bathroom")
    (MState pv 0 (list_ascii_of_string "two bathrooms" ++ post) None) Some
  = Some (MState (Some "s"%char) 13 post (Some (list_ascii_of_string "two"))).
Proof. vm_compute. reflexivity. Qed.

Lemma bedrooms_position (pre post a0 s' : list ascii) pv' m :
  occurrences_from (list_ascii_of_string "bedroom") 0
    (pre ++ list_ascii_of_string "3 bedrooms" ++ post)
  = [(length pre + 2)%nat] ->
  last_is_digit pre = false ->
  pre ++ list_ascii_of_string "3 bedrooms" ++ post = a0 ++ s' ->
  rmatch (digits_pattern "bedroom") (MState pv' 0 s' None) Some = Some m ->
  a0 = pre.
Proof.
  intros Hocc Hpre Heq Hm.
  apply digits_sound in Hm as (D & W & tl & Hr & HneD & HD & HneW & HW & Hs).
  cbn [rest] in Hr. subst s'.
  assert (Hlen : length (a0 ++ D ++ W) = (length pre + 2)%nat).
  { apply (before_the_type _ _ _ _ _ tl Hocc); [|exact Hs].
    now rewrite Heq, <- !app_assoc. }
  assert (Hcut : a0 ++ D ++ W = pre ++ ["3"; " "]%char).
  { apply (app_inj_1 _ (pre ++ ["3"; " "]%char) tl
             (list_ascii_of_string "bedrooms" ++ post)).
    - rewrite Hlen, length_app. reflexivity.
    - rewrite <- !app_assoc. symmetry. exact Heq. }
  rewrite app_assoc in Hcut.
  apply single_space in Hcut as [-> Hcut]; [|assumption..|reflexivity].
  destruct (last_of_block _ _ _ _ _ HneD HD Hcut) as (_ & D' & -> & Hu & HD').
  destruct D' as [|x D']; [now rewrite app_nil_r in Hu|].
  exfalso.
  assert (Hne : x :: D' <> []) by discriminate.
  destruct (exists_last Hne) as (D'' & d & HD'').
  rewrite HD'' in Hu, HD'. subst pre.
  unfold last_is_digit in Hpre. rewrite app_assoc, rev_app_distr in Hpre.
  simpl in Hpre.
  rewrite forallb_app in HD'. apply andb_prop in HD' as [_ Hd].
  simpl in Hd. rewrite andb_true_r in Hd. congruence.
Qed.

Lemma bathrooms_no_digits (pre post a0 s' : list ascii) pv' m :
  occurrences_from (list_ascii_of_string "bathroom") 0
    (pre ++ list_ascii_of_string "two bathrooms" ++ post)
  = [(length pre + 4)%nat] ->
  pre ++ list_ascii_of_string "two bathrooms" ++ post = a0 ++ s' ->
  rmatch (digits_pattern "bathroom") (MState pv' 0 s' None) Some = Some m ->
  False.
Proof.
  intros Hocc Heq Hm.
  apply digits_sound in Hm as (D & W & tl & Hr & HneD & HD & HneW & HW & Hs).
  cbn [rest] in Hr. subst s'.
  assert (Hlen : length (a0 ++ D ++ W) = (length pre + 4)%nat).
  { apply (before_the_type _ _ _ _ _ tl Hocc); [|exact Hs].
    now rewrite Heq, <- !app_assoc. }
  assert (Hcut : a0 ++ D ++ W = (pre ++ ["t"; "w"]%char) ++ ["o"; " "]%char).
  { rewrite <- app_assoc.
    apply (app_inj_1 _ (pre ++ ["t"; "w"; "o"; " "]%char) tl
             (list_ascii_of_string "bathrooms" ++ post)).
    - rewrite Hlen, length_app. reflexivity.
    - rewrite <- !app_assoc. symmetry. exact Heq. }
  rewrite app_assoc in Hcut.
  apply single_space in Hcut as [-> Hcut]; [|assumption..|reflexivity].
  destruct (last_of_block _ _ _ _ _ HneD HD Hcut) as (Hdig & _).
  discriminate Hdig.
Qed.

Lemma bathrooms_position (pre post a0 s' : list ascii) pv' m :
  occurrences_from (list_ascii_of_string "bathroom") 0
    (pre ++ list_ascii_of_string "two bathrooms" ++ post)
  = [(length pre + 4)%nat] ->
  pre ++ list_ascii_of_string "two bathrooms" ++ post = a0 ++ s' ->
  rmatch (words_pattern "bathroom") (MState pv' 0 s' None) Some = Some m ->
  a0 = pre.
Proof.
  intros Hocc Heq Hm.
  apply words_sound in Hm
    as (a & W & tl & w & Hr & Hin & Hl & Hw & HneW & HW & Hs).
  cbn [rest] in Hr, Hw. subst s'.
  assert (Hlen : length (a0 ++ a ++ W) = (length pre + 4)%nat).
  { apply (before_the_type _ _ _ _ _ tl Hocc); [|exact Hs].
    now rewrite Heq, <- !app_assoc. }
  assert (Hcut : a0 ++ a ++ W = (pre ++ ["t"; "w"]%char) ++ ["o"; " "]%char).
  { rewrite <- app_assoc.
    apply (app_inj_1 _ (pre ++ ["t"; "w"; "o"; " "]%char) tl
             (list_ascii_of_string "bathrooms" ++ post)).
    - rewrite Hlen, length_app. reflexivity.
    - rewrite <- !app_assoc. symmetry. exact Heq. }
  rewrite app_assoc in Hcut.
  apply single_space in Hcut as [-> Hcut]; [|assumption..|reflexivity].
  (* the number word ends with the o of "two" *)
  apply (f_equal (@rev ascii)) in Hcut.
  rewrite !rev_app_distr in Hcut. simpl in Hcut.
  unfold number_words in Hin. cbn [map In list_ascii_of_string] in Hin.
  destruct Hin as [<-|[<-|[<-|[<-|[<-|[]]]]]]; cbn [length] in Hl;
    repeat (destruct a as [|? a]; [discriminate Hl|]);
    destruct a; try discriminate Hl;
    simpl in Hcut; simplify_eq;
    cbn [app starts_with_i] in Hw;
    repeat (apply andb_prop in Hw as [? Hw]);
    try match goal with
        | H : same_char_i "o" _ = true |- _ => discriminate H
        end.
  match goal with
  | H : rev a0 = rev pre |- _ =>
      apply (f_equal (@rev ascii)) in H; now rewrite !rev_involutive in H
  end.
Qed.

Lemma app_not_empty (a b c : string) : b <> "" -> a +:+ b +:+ c <> "".
Proof.
  intros Hb H. apply (f_equal list_ascii_of_string) in H.
  rewrite !chars_app in H.
  destruct b; [contradiction|]. simpl in H.
  now destruct (list_ascii_of_string a).
Qed.

(** When a numeric rule matches with a count other than zero, that count
    is the entry. *)
Lemma first_rule_wins (prompt type : string) (n : N) :
  prompt <> "" -> In type roomTypes ->
  first_match (patterns type) prompt = Some n -> n <> 0%N ->
  extractRoomInfo prompt !! type = Some n.
Proof.
  intros Hp Hin Hm Hn. rewrite extractRoomInfo_at by assumption.
  unfold room_count. rewrite Hm. now destruct n.
Qed.

(** With no numeric match the entry is 1 when the bare word occurs, and
    the key is absent otherwise. *)
Lemma bare_word_default (prompt type : string) :
  prompt <> "" -> In type roomTypes ->
  first_match (patterns type) prompt = None ->
  extractRoomInfo prompt !! type
  = if test (bare_pattern type) prompt then Some 1%N else None.
Proof.
  intros Hp Hin Hm. rewrite extractRoomInfo_at by assumption.
  unfold room_count. now rewrite Hm.
Qed.

(** C7 (the code departs from the claim at a count of zero): on the
    prompt "0 bedroom" the digits rule matches and gives the count 0, yet
    the entry for "bedroom" is 1, because [!result[type]] also holds for
    the stored 0 and the bare-word rule then overwrites it. *)
Theorem zero_count_overwritten :
  first_match (patterns "bedroom") "0 bedroom" = Some 0%N
  /\ test (bare_pattern "bedroom") "0 bedroom" = true
  /\ extractRoomInfo "0 bedroom" !! "bedroom" = Some 1%N.
Proof. repeat split; vm_compute; reflexivity. Qed.

(** C8, as the claim states it, fails: "13 bedrooms" contains
    "3 bedrooms" and maps bedroom to 13; "3 bathrooms, two bathrooms"
    contains "two bathrooms" and maps bathroom to 3. *)
Lemma contains_phrase_other_count :
  extractRoomInfo ("1" +:+ "3 bedrooms" +:+ "") !! "bedroom" = Some 13%N
  /\ extractRoomInfo ("3 bathrooms, " +:+ "two bathrooms" +:+ "") !! "bathroom"
     = Some 3%N.
Proof. split; vm_compute; reflexivity. Qed.

Lemma length_chars (s : string) :
  length (list_ascii_of_string s) = String.length s.
Proof. induction s; simpl; congruence. Qed.

(** C8 (amended): a prompt that contains "3 bedrooms", in which this is
    the only occurrence of "bedroom" and the 3 is not preceded by another
    digit, maps bedroom to 3; a prompt that contains "two bathrooms", in
    which this is the only occurrence of "bathroom", maps bathroom to 2;
    the prompt "garage" yields exactly garage -> 1; the empty prompt
    yields the empty mapping. *)
Theorem extractRoomInfo_examples :
  (forall pre post : string,
      occurrences "bedroom" (pre +:+ "3 bedrooms" +:+ post)
      = [(String.length pre + 2)%nat] ->
      ends_in_digit pre = false ->
      extractRoomInfo (pre +:+ "3 bedrooms" +:+ post) !! "bedroom"
      = Some 3%N)
  /\ (forall pre post : string,
        occurrences "bathroom" (pre +:+ "two bathrooms" +:+ post)
        = [(String.length pre + 4)%nat] ->
        extractRoomInfo (pre +:+ "two bathrooms" +:+ post) !! "bathroom"
        = Some 2%N)
  /\ extractRoomInfo "garage" = {[ "garage" := 1%N ]}
  /\ extractRoomInfo "" = ∅.
Proof.
  split; [|split; [|split]].
  - intros pre post Hocc Hpre.
    apply first_rule_wins; [now apply app_not_empty | simpl; tauto | | lia].
    unfold occurrences in Hocc. rewrite !chars_app, <- length_chars in Hocc.
    cbn [patterns first_match]. unfold exec. rewrite !chars_app.
    destruct (search (digits_pattern "bedroom") None _) as [m|] eqn:E.
    + apply search_sound in E as (a0 & s' & pv' & Heq & Hm).
      pose proof (bedrooms_position _ _ _ _ _ _ Hocc Hpre Heq Hm) as ->.
      apply app_inv_head in Heq. subst s'.
      rewrite three_bedrooms_at in Hm. now injection Hm as <-.
    + exfalso. revert E. apply search_some.
      intros pv. now rewrite three_bedrooms_at.
  - intros pre post Hocc.
    apply first_rule_wins; [now apply app_not_empty | simpl; tauto | | lia].
    unfold occurrences in Hocc. rewrite !chars_app, <- length_chars in Hocc.
    cbn [patterns first_match]. unfold exec. rewrite !chars_app.
    destruct (search (digits_pattern "bathroom") None _) as [m|] eqn:E.
    { apply search_sound in E as (a0 & s' & pv' & Heq & Hm).
      destruct (bathrooms_no_digits _ _ _ _ _ _ Hocc Heq Hm). }
    clear E.
    destruct (search (words_pattern "bathroom") None _) as [m|] eqn:E.
    + apply search_sound in E as (a0 & s' & pv' & Heq & Hm).
      pose proof (bathrooms_position _ _ _ _ _ _ Hocc Heq Hm) as ->.
      apply app_inv_head in Heq. subst s'.
      rewrite two_bathrooms_at in Hm. now injection Hm as <-.
    + exfalso. revert E. apply search_some.
      intros pv. now rewrite two_bathrooms_at.
  - vm_compute. reflexivity.
  - reflexivity.
Qed.

Lemma extractRoomInfo_examples_witness :
  extractRoomInfo ("2 bathrooms, " +:+ "3 bedrooms" +:+ " and 1 garage")
    !! "bedroom" = Some 3%N
  /\ extractRoomInfo ("A house with one kitchen, " +:+ "two bathrooms"
                      +:+ " and 3 bedrooms")
       !! "bathroom" = Some 2%N.
Proof.
  split.
  - apply (proj1 extractRoomInfo_examples); reflexivity.
  - apply (proj1 (proj2 extractRoomInfo_examples)); reflexivity.
Defined.

End HelpersFacts.

(** ** Strings through their text *)

Module JsonStringFacts.
Import Json JsonText.

(** Each character comes back from its escape. *)
Lemma read_escape (c : ascii) (s acc : list ascii) :
  read_string (escape_char c ++ s) acc = read_string s (c :: acc).
Proof.
  destruct c as [[] [] [] [] [] [] [] []]; reflexivity.
Qed.

Lemma read_escaped (cs rest acc : list ascii) :
  read_string (flat_map escape_char cs ++ Chars.dquote :: rest) acc
  = Some (string_of_list_ascii (rev acc ++ cs), rest).
Proof.
  revert acc. induction cs as [|c cs IH]; intros acc.
  - cbn [flat_map app]. rewrite app_nil_r. reflexivity.
  - cbn [flat_map]. rewrite <- app_assoc, read_escape, IH.
    cbn [rev]. now rewrite <- app_assoc.
Qed.

Lemma read_quote (k : string) (rest : list ascii) :
  exists body,
    quote k ++ rest = Chars.dquote :: body
    /\ read_string body [] = Some (k, rest).
Proof.
  exists (flat_map escape_char (list_ascii_of_string k)
          ++ Chars.dquote :: rest).
  split.
  - unfold quote. cbn [app]. now rewrite <- app_assoc.
  - rewrite read_escaped. cbn [rev app].
    now rewrite string_of_list_ascii_of_string.
Qed.

(** A character between space and tilde, the quote and the backslash
    apart, and every byte above them, is printed as it is. *)
Lemma escape_plain (c : ascii) :
  shown_plain c = true -> escape_char c = [c].
Proof.
  destruct c as [[] [] [] [] [] [] [] []]; (reflexivity || discriminate).
Qed.

Lemma escape_plain_all (cs : list ascii) :
  forallb shown_plain cs = true -> flat_map escape_char cs = cs.
Proof.
  induction cs as [|c cs IH]; [reflexivity|].
  cbn [forallb flat_map]. intros H. apply andb_prop in H as [Hc Hcs].
  now rewrite (escape_plain c Hc), (IH Hcs).
Qed.

(** An integer is printed as its numeral. *)
Lemma print_integer (z : Z) : print_number (Num z 0) = numeral z.
Proof.
  unfold print_number, numeral. cbn [normalize mantissa scale].
  change (10 ^ N.of_nat 0)%N with 1%N. rewrite N.div_1_r, app_nil_r.
  destruct z as [|p|p]; reflexivity.
Qed.

(** After a member that is printed comes a comma. *)
Lemma fields_comma (l : list (string * value)) :
  existsb (fun kv => defined (snd kv)) l = true ->
  exists post : list ascii, print_fields false l = ","%char :: post.
Proof.
  induction l as [|[k x] l IH]; [discriminate|].
  cbn [existsb snd]. destruct (defined x) eqn:E.
  - intros _. destruct x; try discriminate; eexists; reflexivity.
  - destruct x; try discriminate. cbn [orb print_fields]. exact IH.
Qed.

Lemma or_else_defined (a b : value) :
  defined b = true -> defined (or_else a b) = true.
Proof.
  intros H. unfold or_else. destruct (truthy a) eqn:E; [|exact H].
  destruct a; (discriminate || reflexivity).
Qed.

End JsonStringFacts.

(** ** The hook *)

Module HookFacts.
Import Json Hook Scenario JsonStringFacts.

(** The mirror effect writes exactly when the collection is not empty. *)
Lemma mirror_nonempty (st : State) (ls : Storage) :
  floorPlans st <> [] -> mirror st ls = Some (stringify (collection st)).
Proof. unfold mirror. destruct (floorPlans st); [contradiction | reflexivity]. Qed.

Lemma mirror_empty (st : State) (ls : Storage) :
  floorPlans st = [] -> mirror st ls = ls.
Proof. unfold mirror. now intros ->. Qed.

Lemma rendered_mirrored {R} (o : outcome R) (s : Session) waiting :
  mirrored s ->
  (touched o = false -> floorPlans (cells o) = floorPlans (hook s)) ->
  mirrored (rendered o s waiting).
Proof.
  unfold mirrored, rendered, after_render. cbn [hook storage].
  intros Hs Hkeep Hne. destruct (touched o).
  - now apply mirror_nonempty.
  - unfold collection in *. rewrite Hkeep in * by reflexivity. now apply Hs.
Qed.

Lemma adopt_Loaded v rest st t st' :
  adopt v rest st = Loaded t st' ->
  t = true /\ exists l, as_plans v = Some l
                        /\ st' = setIsLoading false (rest (setFloorPlans l st)).
Proof.
  unfold adopt. destruct (as_plans v) as [l|]; [|discriminate].
  intros [= <- <-]. eauto.
Qed.

(** A loader that returns without [setFloorPlans] leaves the collection. *)
Lemma load_untouched res ls st st' :
  load_resume res ls st = Loaded false st' -> floorPlans st' = floorPlans st.
Proof.
  unfold load_resume, load_catch. intros H.
  repeat match type of H with
         | context [match ?x with _ => _ end] => destruct x
         | adopt _ _ _ = Loaded false _ =>
             apply adopt_Loaded in H as [? _]; discriminate
         end; try discriminate; now injection H as <-.
Qed.

Lemma load_threw_untouched res ls st st' :
  load_resume res ls st = LoadThrew st' ->
  floorPlans st' = floorPlans st /\ isLoading st' = false.
Proof.
  unfold load_resume, load_catch, adopt. intros H.
  repeat match type of H with
         | context [match ?x with _ => _ end] => destruct x
         end; try discriminate; now injection H as <-.
Qed.

Lemma step_mirrored (s s' : Session) : step s s' -> mirrored s -> mirrored s'.
Proof.
  intros Hstep Hs.
  destruct Hstep as [s res t st' _ Hl | s res st' _ Hl | | | s i prompt options res env _ | | | | ];
    try (exact Hs).
  - destruct t.
    + unfold mirrored; cbn [hook storage after_render]. apply mirror_nonempty.
    + apply load_untouched in Hl.
      unfold mirrored, collection in *; cbn [hook storage after_render].
      rewrite Hl. exact Hs.
  - apply load_threw_untouched in Hl as [Hl _].
    unfold mirrored, collection in *; cbn [hook storage]. rewrite Hl. exact Hs.
  - apply rendered_mirrored; [exact Hs|].
    unfold generate_resume, generate_catch.
    destruct res as [data|]; [destruct (newFloorPlan data options env)|];
      try destruct (development env); cbn; intros; try discriminate; reflexivity.
  - apply rendered_mirrored; [exact Hs | discriminate].
  - apply rendered_mirrored; [exact Hs | discriminate].
Qed.

Lemma s_generated_reachable : reachable s_generated.
Proof.
  assert (H1 : reachable s_loaded).
  { eapply reach_step; [apply (reach_start None)|].
    apply (StepLoaded (start None) Rejected false); reflexivity. }
  pose proof (reach_step _ _ H1 (StepGenerateSent s_loaded "a studio" [] eq_refl))
    as H2.
  exact (reach_step _ _ H2
           (StepGenerateSettled s_sent 0 "a studio" [] (Resolved response0) env0
              eq_refl)).
Defined.

Lemma s_deleted_reachable : reachable s_deleted.
Proof.
  exact (reach_step _ _ s_generated_reachable (StepDelete s_generated "p1")).
Defined.

(** C3, as the claim states it, fails: in a session that loads nothing,
    generates one plan and deletes it, the collection is empty while the
    store still holds the serialization of the deleted plan. *)
Lemma delete_last_leaves_store :
  reachable s_deleted
  /\ floorPlans (hook s_generated) = [plan0]
  /\ floorPlans (hook s_deleted) = []
  /\ storage s_deleted = Some (stringify (VArr [VObj plan0]))
  /\ stringify (collection (hook s_deleted)) = "[]"
  /\ storage s_deleted <> Some (stringify (collection (hook s_deleted))).
Proof.
  split; [exact s_deleted_reachable|].
  vm_compute. repeat split. discriminate.
Qed.

(** C3 (amended): in every reachable session, a collection that is not
    empty is exactly what the store holds, serialized; and a step that
    leaves the collection empty (deleting the last plan, adopting an empty
    list) writes nothing, so the store keeps what it held. *)
Theorem store_mirrors_nonempty_collection :
  (forall s : Session,
      reachable s -> floorPlans (hook s) <> [] ->
      storage s = Some (stringify (collection (hook s))))
  /\ (forall s s' : Session,
        step s s' -> floorPlans (hook s') = [] -> storage s' = storage s).
Proof.
  split.
  - intros s Hr. change (mirrored s).
    induction Hr as [ls | s s' _ IH Hstep].
    + intros H. now contradiction H.
    + eauto using step_mirrored.
  - intros s s' Hstep Hempty.
    destruct Hstep; cbn [hook storage rendered] in *; try reflexivity;
      unfold after_render;
      match goal with
      | |- context [if ?t then _ else _] => destruct t
      end; try reflexivity; now apply mirror_empty.
Qed.

Lemma store_mirrors_nonempty_collection_witness :
  storage s_generated = Some (stringify (collection (hook s_generated)))
  /\ storage s_deleted = storage s_generated.
Proof.
  split.
  - apply (proj1 store_mirrors_nonempty_collection).
    + exact s_generated_reachable.
    + vm_compute. discriminate.
  - apply (proj2 store_mirrors_nonempty_collection).
    + exact (StepDelete s_generated "p1").
    + reflexivity.
Defined.

(** *** The generating flag *)

Lemma generate_resume_clears res prompt options env st :
  isGenerating (cells (generate_resume res prompt options env st)) = false.
Proof.
  unfold generate_resume, generate_catch.
  destruct res as [data|]; [destruct (newFloorPlan data options env)|];
    try destruct (development env); reflexivity.
Qed.

Ltac split_load H :=
  unfold load_resume, load_catch, adopt in H;
  repeat match type of H with
         | context [match ?x with _ => _ end] => destruct x
         end;
  try discriminate.

Lemma load_keeps_generating res ls st t st' :
  load_resume res ls st = Loaded t st' -> isGenerating st' = isGenerating st.
Proof. intros H. split_load H; now injection H as <- <-. Qed.

Lemma load_threw_keeps_generating res ls st st' :
  load_resume res ls st = LoadThrew st' -> isGenerating st' = isGenerating st.
Proof. intros H. split_load H; now injection H as <-. Qed.

Lemma save_keeps_generating plan st :
  isGenerating (cells (saveFloorPlan plan st)) = isGenerating st.
Proof.
  unfold saveFloorPlan. cbn [cells].
  now destruct (strict_eq _ (prop plan "id")).
Qed.

Lemma delete_keeps_generating id st :
  isGenerating (cells (deleteFloorPlan id st)) = isGenerating st.
Proof.
  unfold deleteFloorPlan. cbn [cells].
  now destruct (strict_eq _ (VStr id)).
Qed.

Lemma step_released (s s' : Session) : step s s' -> released s -> released s'.
Proof.
  intros Hstep Hs. unfold released in *.
  destruct Hstep as [s res t st' _ Hl | s res st' _ Hl | | | | | | | ];
    cbn [hook pending rendered]; intros Hp; try (now apply Hs); try discriminate.
  - apply load_keeps_generating in Hl. rewrite Hl. now apply Hs.
  - apply load_threw_keeps_generating in Hl. rewrite Hl. now apply Hs.
  - apply generate_resume_clears.
  - rewrite save_keeps_generating. now apply Hs.
  - rewrite delete_keeps_generating. now apply Hs.
Qed.

(** C9: however the remote call settles (a response, a response whose
    fields cannot be read, a rejection, with or without the development
    placeholder), [generateFloorPlan] returns with [isGenerating] false;
    and in every reachable session with no generate call waiting,
    [isGenerating] is false. *)
Theorem generating_flag_released :
  (forall res prompt options env st,
      isGenerating (cells (generate_resume res prompt options env st)) = false)
  /\ (forall api env prompt options st,
        String.eqb (trim prompt) "" = false ->
        isGenerating
          (cells (fst (generateFloorPlan api env prompt options st))) = false)
  /\ (forall s : Session,
        reachable s -> pending s = [] -> isGenerating (hook s) = false).
Proof.
  split; [|split].
  - apply generate_resume_clears.
  - intros api env prompt options st Hp. unfold generateFloorPlan.
    rewrite Hp. apply generate_resume_clears.
  - intros s Hr. change (released s).
    induction Hr as [ls | s s' _ IH Hstep].
    + intros _. reflexivity.
    + eauto using step_released.
Qed.

Lemma generating_flag_released_witness :
  isGenerating
    (cells (fst (generateFloorPlan (fun _ _ => Rejected) env0 "a studio" []
                   (setIsGenerating true initial)))) = false
  /\ isGenerating (hook s_deleted) = false.
Proof.
  split.
  - apply (proj1 (proj2 generating_flag_released)). reflexivity.
  - apply (proj2 (proj2 generating_flag_released)).
    + exact s_deleted_reachable.
    + reflexivity.
Defined.

(** *** Generating *)

(** The text of a collection whose first plan starts with a string id:
    the opening, and then a string literal that reads as that id. *)
Lemma print_shows_id (s : string) (members : object) (others : list value) :
  exists body post : list ascii,
    print (VArr (VObj (("id", VStr s) :: members) :: others))
    = JsonText.id_opening ++ Chars.dquote :: body
    /\ read_string body [] = Some (s, post)
    /\ (forallb JsonText.shown_plain (chars s) = true ->
        body = chars s ++ Chars.dquote :: post).
Proof.
  change (print (VArr (VObj (("id", VStr s) :: members) :: others)))
    with ("["%char :: JsonText.print_elems true
                        (VObj (("id", VStr s) :: members) :: others)
          ++ ["]"%char]).
  cbn [JsonText.print_elems app].
  change (print (VObj (("id", VStr s) :: members)))
    with ("{"%char :: JsonText.print_fields true (("id", VStr s) :: members)
          ++ ["}"%char]).
  cbn [JsonText.print_fields app print].
  unfold quote at 2. rewrite <- !app_assoc. cbn [app].
  eexists. eexists. split; [|split].
  - unfold JsonText.id_opening, quote, chars.
    cbn [app list_ascii_of_string flat_map escape_char].
    rewrite <- !app_assoc. cbn [app]. reflexivity.
  - rewrite read_escaped. cbn [rev app].
    now rewrite string_of_list_ascii_of_string.
  - intros Hplain. unfold chars in Hplain.
    now rewrite (escape_plain_all _ Hplain).
Qed.

(** The same for an integer id, when a later member is printed: the
    opening, the numeral, and the comma that ends it. *)
Lemma print_shows_number (z : Z) (members : object) (others : list value) :
  existsb (fun kv => JsonText.defined (snd kv)) members = true ->
  exists post : list ascii,
    print (VArr (VObj (("id", VNum (Num z 0)) :: members) :: others))
    = JsonText.id_opening ++ JsonText.numeral z ++ ","%char :: post.
Proof.
  intros Hm. destruct (fields_comma members Hm) as [post Hpost].
  change (print (VArr (VObj (("id", VNum (Num z 0)) :: members) :: others)))
    with ("["%char :: JsonText.print_elems true
                        (VObj (("id", VNum (Num z 0)) :: members) :: others)
          ++ ["]"%char]).
  cbn [JsonText.print_elems app].
  change (print (VObj (("id", VNum (Num z 0)) :: members)))
    with ("{"%char :: JsonText.print_fields true
                        (("id", VNum (Num z 0)) :: members)
          ++ ["}"%char]).
  cbn [JsonText.print_fields app print].
  rewrite print_integer, Hpost.
  eexists. unfold JsonText.id_opening, quote, chars.
  cbn [app list_ascii_of_string flat_map].
  change (escape_char "i"%char) with ["i"%char].
  change (escape_char "d"%char) with ["d"%char].
  cbn [app]. rewrite <- !app_assoc. cbn [app]. reflexivity.
Qed.

(** C1: when the prompt is not blank and the remote call resolves with a
    response (any value whose [id] can be read, that is, neither [null]
    nor [undefined]), [generateFloorPlan] returns a plan carrying the
    response's id; the plan is prepended, so it is the element at index 0
    of the collection; it is the current plan; and the render that follows
    writes the store.  The text written is that of the collection, and it
    contains the plan's id: for a string id the text begins with
    [[{"id":] followed by a string literal that reads as the id, which is
    the id itself between quotes when it holds no character that needs an
    escape; for an integer id (of the exact range, below 2^53) it begins
    with [[{"id":] followed by the decimal numeral of the id and a
    comma. *)
Theorem generate_success
    (api : string -> object -> settled) (env : Env) (prompt : string)
    (options : object) (st : State) (ls : Storage) (data i : value) :
  String.eqb (trim prompt) "" = false ->
  api prompt options = Resolved data ->
  get data "id" = Some i ->
  let o := fst (generateFloorPlan api env prompt options st) in
  exists (plan : object) (text : string),
    returned o = Some plan
    /\ prop plan "id" = i
    /\ floorPlans (cells o) = plan :: floorPlans st
    /\ floorPlans (cells o) !! 0%nat = Some plan
    /\ currentPlan (cells o) = Some plan
    /\ after_render (touched o) (cells o) ls = Some text
    /\ text = stringify (collection (cells o))
    /\ In i (map (fun p => prop p "id") (floorPlans (cells o)))
    /\ (forall s : string,
          i = VStr s ->
          exists body post : list ascii,
            list_ascii_of_string text
            = JsonText.id_opening ++ Chars.dquote :: body
            /\ read_string body [] = Some (s, post)
            /\ (forallb JsonText.shown_plain (list_ascii_of_string s) = true ->
                body = list_ascii_of_string s ++ Chars.dquote :: post))
    /\ (forall z : Z,
          i = VNum (Num z 0) -> (Z.abs z < 2 ^ 53)%Z ->
          exists post : list ascii,
            list_ascii_of_string text
            = JsonText.id_opening ++ JsonText.numeral z ++ ","%char :: post).
Proof.
  intros Hp Hapi Hid o. subst o. unfold generateFloorPlan.
  rewrite Hp, Hapi. cbn [fst generate_resume].
  unfold newFloorPlan. rewrite Hid.
  eexists. eexists. cbn -[stringify].
  repeat split; [now left| |].
  - intros s ->. unfold stringify.
    rewrite list_ascii_of_string_of_list_ascii.
    unfold collection. cbn [floorPlans map]. apply print_shows_id.
  - intros z -> _. unfold stringify.
    rewrite list_ascii_of_string_of_list_ascii.
    unfold collection. cbn [floorPlans map]. apply print_shows_number.
    cbn [existsb snd].
    rewrite (or_else_defined _ (VStr (now_iso env)) eq_refl).
    now rewrite !orb_true_r.
Qed.

Lemma generate_success_witness :
  (exists (plan : object) (text : string),
      returned (fst (generateFloorPlan (fun _ _ => Resolved response0) env0
                       "a studio" [] (hook s_loaded))) = Some plan
      /\ prop plan "id" = VStr "p1"
      /\ floorPlans (cells (fst (generateFloorPlan
                                   (fun _ _ => Resolved response0) env0
                                   "a studio" [] (hook s_loaded))))
         = plan :: floorPlans (hook s_loaded)
      /\ after_render true
           (cells (fst (generateFloorPlan (fun _ _ => Resolved response0) env0
                          "a studio" [] (hook s_loaded)))) None = Some text
      /\ exists post : list ascii,
           list_ascii_of_string text
           = JsonText.id_opening
             ++ Chars.dquote :: list_ascii_of_string "p1"
             ++ Chars.dquote :: post)
  /\ (exists (plan : object) (text : string),
        returned (fst (generateFloorPlan (fun _ _ => Resolved response42) env0
                         "a studio" [] (hook s_loaded))) = Some plan
        /\ after_render true
             (cells (fst (generateFloorPlan
                            (fun _ _ => Resolved response42) env0
                            "a studio" [] (hook s_loaded)))) None = Some text
        /\ exists post : list ascii,
             list_ascii_of_string text
             = JsonText.id_opening
               ++ list_ascii_of_string "42" ++ ","%char :: post).
Proof.
  split.
  - destruct (generate_success (fun _ _ => Resolved response0) env0
                "a studio" [] (hook s_loaded) None response0 (VStr "p1")
                eq_refl eq_refl eq_refl)
      as (plan & text & Hr & Hi & Hf & _ & _ & Hw & _ & _ & Hs & _).
    exists plan, text. repeat split; try assumption.
    destruct (Hs "p1" eq_refl) as (body & post & Ht & _ & Hb).
    exists post. rewrite Ht, (Hb eq_refl). reflexivity.
  - destruct (generate_success (fun _ _ => Resolved response42) env0
                "a studio" [] (hook s_loaded) None response42 (of_Z 42)
                eq_refl eq_refl eq_refl)
      as (plan & text & Hr & _ & _ & _ & _ & Hw & _ & _ & _ & Hn).
    exists plan, text. repeat split; try assumption.
    destruct (Hn 42%Z eq_refl) as (post & Ht); [reflexivity|].
    exists post. exact Ht.
Defined.

(** Each white-space character is stripped from the head of a text. *)
Lemma strip_one (w : list N) (rest : list ascii) :
  In w white_space ->
  strip_any white_space (map ascii_of_N w ++ rest) = Some rest.
Proof.
  unfold white_space. cbn [In]. intros H.
  repeat (destruct H as [<-|H]; [reflexivity|]). contradiction.
Qed.

Lemma white_space_nonempty (w : list N) : In w white_space -> w <> [].
Proof.
  unfold white_space. cbn [In]. intros H.
  repeat (destruct H as [<-|H]; [discriminate|]). contradiction.
Qed.

Lemma drop_spaces_all (blanks : list (list N)) :
  Forall (fun w => In w white_space) blanks ->
  forall fuel : nat,
    (length blanks <= fuel)%nat ->
    drop_spaces white_space fuel (map ascii_of_N (concat blanks)) = [].
Proof.
  induction 1 as [|w blanks Hw _ IH]; intros fuel Hf.
  - destruct fuel; reflexivity.
  - destruct fuel as [|fuel]; [cbn [length] in Hf; lia|].
    cbn [concat drop_spaces]. rewrite map_app, (strip_one w _ Hw).
    apply IH. cbn [length] in Hf. lia.
Qed.

Lemma concat_length (blanks : list (list N)) :
  Forall (fun w => In w white_space) blanks ->
  (length blanks <= length (concat blanks))%nat.
Proof.
  induction 1 as [|w blanks Hw _ IH]; [reflexivity|].
  cbn [concat length]. rewrite length_app.
  pose proof (white_space_nonempty w Hw).
  destruct w; [contradiction|]. cbn [length]. lia.
Qed.

(** C6: a prompt that trims to the empty string makes
    [generateFloorPlan] set the validation message and return [null]; it
    sends no request to the remote client, does not go through
    [setFloorPlans], and leaves the collection, the current plan and the
    two flags as they were.  The prompts that trim to the empty string
    include every text made of white-space characters only, those beyond
    ASCII (the no-break space, the line separators, the byte order mark
    and the others of the language) as well as space, tab and the line
    ends. *)
Theorem generate_blank_rejected
    (api : string -> object -> settled) (env : Env) (prompt : string)
    (options : object) (st : State) :
  (trim prompt = "" ->
   let r := generateFloorPlan api env prompt options st in
   returned (fst r) = None
   /\ snd r = []
   /\ error (cells (fst r)) = Some empty_prompt_msg
   /\ touched (fst r) = false
   /\ floorPlans (cells (fst r)) = floorPlans st
   /\ currentPlan (cells (fst r)) = currentPlan st
   /\ isGenerating (cells (fst r)) = isGenerating st
   /\ isLoading (cells (fst r)) = isLoading st)
  /\ (forall blanks : list (list N),
        Forall (fun w => In w white_space) blanks ->
        list_ascii_of_string prompt = map ascii_of_N (concat blanks) ->
        trim prompt = "").
Proof.
  split.
  - intros Hp r. subst r. unfold generateFloorPlan. rewrite Hp.
    cbn. repeat split.
  - intros blanks Hb Hprompt. unfold trim, drop_space. rewrite Hprompt.
    rewrite drop_spaces_all; [reflexivity|exact Hb|].
    rewrite length_map. now apply concat_length.
Qed.

Lemma generate_blank_rejected_witness :
  list_ascii_of_string blank_prompt
  = map ascii_of_N (concat [[32]; [194; 160]; [9]]%N)
  /\ trim blank_prompt = ""
  /\ returned (fst (generateFloorPlan (fun _ _ => Resolved response0) env0
                      blank_prompt [] (hook s_generated))) = None
  /\ snd (generateFloorPlan (fun _ _ => Resolved response0) env0
            blank_prompt [] (hook s_generated)) = []
  /\ error (cells (fst (generateFloorPlan (fun _ _ => Resolved response0) env0
                          blank_prompt [] (hook s_generated))))
     = Some empty_prompt_msg
  /\ floorPlans (cells (fst (generateFloorPlan
                               (fun _ _ => Resolved response0) env0
                               blank_prompt [] (hook s_generated))))
     = floorPlans (hook s_generated).
Proof.
  assert (Hblank : trim blank_prompt = "").
  { apply (proj2 (generate_blank_rejected (fun _ _ => Resolved response0)
                    env0 blank_prompt [] (hook s_generated))
             [[32]; [194; 160]; [9]]%N); [|reflexivity].
    repeat constructor; cbn; tauto. }
  split; [reflexivity|]. split; [exact Hblank|].
  destruct (proj1 (generate_blank_rejected (fun _ _ => Resolved response0)
                     env0 blank_prompt [] (hook s_generated)) Hblank)
    as (H1 & H2 & H3 & _ & H5 & _).
  auto.
Defined.

(** *** Deleting *)

Lemma strict_eq_str (v : value) (s : string) :
  strict_eq v (VStr s) = true <-> v = VStr s.
Proof.
  destruct v; simpl; try (split; [discriminate | intros [=]]).
  rewrite String.eqb_eq. split; [now intros -> | now intros [= ->]].
Qed.

(** C4, as the claim states it, fails: deleting an id that no plan has
    returns [true], on the empty collection as on any other. *)
Lemma delete_missing_returns_true :
  returned (deleteFloorPlan "missing" initial) = true
  /\ returned (deleteFloorPlan "missing" (hook s_generated)) = true
  /\ floorPlans (cells (deleteFloorPlan "missing" (hook s_generated)))
     = floorPlans (hook s_generated).
Proof. repeat split. Qed.

Lemma delete_floorPlans (id : string) (st : State) :
  floorPlans (cells (deleteFloorPlan id st))
  = List.filter (fun p => negb (strict_eq (prop p "id") (VStr id)))
      (floorPlans st).
Proof.
  unfold deleteFloorPlan. cbn [cells].
  now destruct (strict_eq _ (VStr id)).
Qed.

Lemma delete_currentPlan (id : string) (st : State) :
  currentPlan (cells (deleteFloorPlan id st))
  = if strict_eq (current_id st) (VStr id) then None else currentPlan st.
Proof.
  unfold deleteFloorPlan. cbn [cells].
  change (current_id (setError None (setIsLoading true st)))
    with (current_id st).
  now destruct (strict_eq _ (VStr id)).
Qed.

(** C4 (amended): [deleteFloorPlan id] keeps, in their order, exactly the
    entries whose id differs from the argument; it sets [currentPlan] to
    [null] when the current plan has that id and leaves it otherwise; when
    no entry has the id the collection is unchanged; and it returns
    [true] in every case. *)
Theorem delete_removes_by_id (id : string) (st : State) :
  let o := deleteFloorPlan id st in
  (forall p : object,
      In p (floorPlans (cells o))
      <-> In p (floorPlans st) /\ prop p "id" <> VStr id)
  /\ sublist (floorPlans (cells o)) (floorPlans st)
  /\ (current_id st = VStr id -> currentPlan (cells o) = None)
  /\ (current_id st <> VStr id -> currentPlan (cells o) = currentPlan st)
  /\ ((forall p : object, In p (floorPlans st) -> prop p "id" <> VStr id) ->
      floorPlans (cells o) = floorPlans st)
  /\ returned o = true.
Proof.
  intros o. subst o. rewrite delete_floorPlans, delete_currentPlan.
  split; [|split; [|split; [|split; [|split]]]].
  - intros p. rewrite filter_In, negb_true_iff.
    rewrite <- not_true_iff_false, strict_eq_str. reflexivity.
  - induction (floorPlans st) as [|q l IH]; simpl; [constructor|].
    destruct (negb _); now constructor.
  - intros H. apply strict_eq_str in H. now rewrite H.
  - intros H. destruct (strict_eq (current_id st) (VStr id)) eqn:E.
    + apply strict_eq_str in E. contradiction.
    + reflexivity.
  - intros H. induction (floorPlans st) as [|q l IH]; simpl; [reflexivity|].
    destruct (strict_eq (prop q "id") (VStr id)) eqn:E.
    + apply strict_eq_str in E. exfalso. apply (H q); [now left | exact E].
    + simpl. f_equal. apply IH. intros p Hp. apply H. now right.
  - reflexivity.
Qed.

Lemma delete_removes_by_id_witness :
  currentPlan (cells (deleteFloorPlan "p1" (hook s_generated))) = None
  /\ floorPlans (cells (deleteFloorPlan "p2" (hook s_generated)))
     = floorPlans (hook s_generated).
Proof.
  split.
  - apply (proj1 (proj2 (proj2 (delete_removes_by_id "p1" (hook s_generated))))).
    reflexivity.
  - apply (proj1 (proj2 (proj2 (proj2 (proj2
             (delete_removes_by_id "p2" (hook s_generated))))))).
    vm_compute. intros p [<- | []]. discriminate.
Defined.

(** *** Loading *)


Lemma load_fallback (res : settled) (ls : Storage) (st : State) :
  remote_plans res = None ->
  loadFloorPlans res ls st
  = match read_saved ls with
    | NothingSaved =>
        Loaded false
          (setIsLoading false
             (match res with
              | Rejected => setError (Some load_failed_msg)
              | Resolved _ => fun x => x
              end (load_begin st)))
    | Parsed v =>
        adopt v (match res with
                 | Rejected => setError (Some load_failed_msg)
                 | Resolved _ => fun x => x
                 end) (load_begin st)
    | SyntaxError => LoadThrew (setIsLoading false (load_begin st))
    end.
Proof.
  unfold loadFloorPlans, load_resume, load_catch, remote_plans.
  destruct res as [data|].
  - intros ->. now destruct (read_saved ls).
  - intros _. now destruct (read_saved ls).
Qed.




(** When the loader returns, the advisory error is set exactly when the
    list call was rejected. *)
Lemma loaded_error (res : settled) (ls : Storage) (st : State) t st' :
  loadFloorPlans res ls st = Loaded t st' ->
  error st'
  = match res with
    | Rejected => Some load_failed_msg
    | Resolved _ => None
    end.
Proof.
  unfold loadFloorPlans, load_resume, load_catch, adopt.
  destruct res as [data|];
    repeat match goal with
           | |- context [match ?x with _ => _ end] => destruct x
           end; try discriminate; now intros [= <- <-].
Qed.

(** C5, as the claim states it, fails: a well-formed but empty list is
    adopted as it is; the store, which holds one plan here, is not
    read. *)
Lemma empty_list_is_adopted :
  let data := VObj [("floorPlans", VArr [])] in
  let ls := Some (stringify (VArr [VObj [("id", VStr "p1")]])) in
  plan_array data = Some (VArr [])
  /\ read_saved ls = Parsed (VArr [VObj [("id", VStr "p1")]])
  /\ loadFloorPlans (Resolved data) ls initial
     = Loaded true (mkState [] None false false None).
Proof. repeat split. Qed.

(** An object whose [floorPlans] member is an array offers that array;
    no other answer offers one. *)
Lemma plan_array_offered (o : object) (items : list value) :
  prop o "floorPlans" = VArr items ->
  plan_array (VObj o) = Some (VArr items).
Proof. intros H. unfold plan_array. cbn [truthy get]. now rewrite H. Qed.

Lemma plan_array_none (data : value) :
  (forall (o : object) (items : list value),
      data = VObj o -> prop o "floorPlans" <> VArr items) ->
  plan_array data = None.
Proof.
  intros H. unfold plan_array.
  destruct data as [ | | b | n | s | items | o];
    cbn [truthy get isArray andb]; try reflexivity.
  - now destruct b.
  - now destruct (negb (is_zero n)).
  - now destruct (negb (String.eqb s "")).
  - destruct (prop o "floorPlans") as [ | | b | n | s | items | o'] eqn:E;
      cbn [truthy isArray andb]; try reflexivity.
    + now destruct b.
    + now destruct (negb (is_zero n)).
    + now destruct (negb (String.eqb s "")).
    + exfalso. exact (H o items eq_refl E).
Qed.

(** C5 (amended): an answer that is an object whose member [floorPlans]
    is an array of plans is adopted as the collection, empty or not, and
    the store is not read.  Every other outcome (a rejected call, or an
    answer that is no such object: [null], a text, an object without the
    member or with one that is no array) falls back to the store: with no
    item, or an empty one, the loader returns with the collection as it
    was (empty at start-up); an item that parses to an array of plans is
    adopted; on an item that does not parse the loader ends by the
    SyntaxError, the collection as it was.  The fallback message is the
    error exactly when the call was rejected and the loader returned. *)
Theorem load_adopts_or_falls_back (ls : Storage) (st : State) :
  (forall (o : object) (items : list value) (l : list object),
      prop o "floorPlans" = VArr items -> objects_of items = Some l ->
      loadFloorPlans (Resolved (VObj o)) ls st
      = Loaded true (setIsLoading false (setFloorPlans l (load_begin st))))
  /\ (forall res : settled,
        match res with
        | Rejected => True
        | Resolved data =>
            forall (o : object) (items : list value),
              data = VObj o -> prop o "floorPlans" <> VArr items
        end ->
        let message :=
          match res with
          | Rejected => Some load_failed_msg
          | Resolved _ => None
          end in
        (ls = None \/ ls = Some "" ->
         loadFloorPlans res ls st
         = Loaded false (setIsLoading false (setError message (load_begin st))))
        /\ (forall (text : string) (items : list value) (l : list object),
              ls = Some text -> text <> "" ->
              parse text = Some (VArr items) -> objects_of items = Some l ->
              loadFloorPlans res ls st
              = Loaded true
                  (setIsLoading false
                     (setError message (setFloorPlans l (load_begin st)))))
        /\ (forall text : string,
              ls = Some text -> text <> "" -> parse text = None ->
              loadFloorPlans res ls st
              = LoadThrew (setIsLoading false (load_begin st)))).
Proof.
  split.
  - intros o items l Ho Hl. unfold loadFloorPlans, load_resume.
    rewrite (plan_array_offered o items Ho). unfold adopt, as_plans.
    now rewrite Hl.
  - intros res Hres message.
    assert (Hfall : loadFloorPlans res ls st
                    = match res with
                      | Rejected => load_catch ls (load_begin st)
                      | Resolved _ =>
                          match read_saved ls with
                          | NothingSaved =>
                              Loaded false (setIsLoading false (load_begin st))
                          | Parsed v => adopt v id (load_begin st)
                          | SyntaxError => load_catch ls (load_begin st)
                          end
                      end).
    { unfold loadFloorPlans, load_resume. destruct res as [data|];
        [|reflexivity].
      now rewrite (plan_array_none data Hres). }
    rewrite Hfall. split; [|split].
    + intros Hls.
      assert (Hs : read_saved ls = NothingSaved)
        by (destruct Hls as [->| ->]; reflexivity).
      unfold load_catch. rewrite Hs. subst message.
      now destruct res.
    + intros text items l -> Hne Hparse Hl.
      assert (Hs : read_saved (Some text) = Parsed (VArr items)).
      { unfold read_saved. apply String.eqb_neq in Hne.
        now rewrite Hne, Hparse. }
      unfold load_catch. rewrite Hs. unfold adopt, as_plans. rewrite Hl.
      subst message. now destruct res.
    + intros text -> Hne Hparse.
      assert (Hs : read_saved (Some text) = SyntaxError).
      { unfold read_saved. apply String.eqb_neq in Hne.
        now rewrite Hne, Hparse. }
      unfold load_catch. rewrite Hs. now destruct res.
Qed.

Lemma load_adopts_or_falls_back_witness :
  loadFloorPlans (Resolved (VObj [("floorPlans", VArr [VObj plan0])]))
    (Some "{") initial
  = Loaded true
      (setIsLoading false (setFloorPlans [plan0] (load_begin initial)))
  /\ loadFloorPlans (Resolved (VObj [("floorPlans", VArr [])]))
       (Some (stringify (VArr [VObj [("id", VStr "p1")]]))) initial
     = Loaded true (setIsLoading false (setFloorPlans [] (load_begin initial)))
  /\ loadFloorPlans Rejected None initial
     = Loaded false
         (setIsLoading false
            (setError (Some load_failed_msg) (load_begin initial)))
  /\ loadFloorPlans (Resolved (VObj [("floorPlans", VStr "none")]))
       (Some (stringify (VArr [VObj [("id", VStr "p1")]]))) initial
     = Loaded true
         (setIsLoading false
            (setError None
               (setFloorPlans [[("id", VStr "p1")]] (load_begin initial))))
  /\ loadFloorPlans (Resolved VNull) (Some "{") initial
     = LoadThrew (setIsLoading false (load_begin initial)).
Proof.
  split; [|split; [|split; [|split]]].
  - apply (proj1 (load_adopts_or_falls_back (Some "{") initial)
             [("floorPlans", VArr [VObj plan0])] [VObj plan0] [plan0]);
      reflexivity.
  - apply (proj1 (load_adopts_or_falls_back
                    (Some (stringify (VArr [VObj [("id", VStr "p1")]])))
                    initial)
             [("floorPlans", VArr [])] [] []); reflexivity.
  - apply (proj1 (proj2 (load_adopts_or_falls_back None initial) Rejected I)).
    now left.
  - apply (proj1 (proj2 (proj2 (load_adopts_or_falls_back
                    (Some (stringify (VArr [VObj [("id", VStr "p1")]])))
                    initial)
             (Resolved (VObj [("floorPlans", VStr "none")]))
             (fun o items E => ltac:(injection E as <-; discriminate))))
             (stringify (VArr [VObj [("id", VStr "p1")]]))
             [VObj [("id", VStr "p1")]] [[("id", VStr "p1")]]);
      [reflexivity|discriminate|reflexivity|reflexivity].
  - apply (proj2 (proj2 (proj2 (load_adopts_or_falls_back (Some "{") initial)
             (Resolved VNull) (fun o items E => ltac:(discriminate E))))
             "{"); [reflexivity|discriminate|reflexivity].
Defined.

(** *** The advisory error *)




End HookFacts.

(** ** The other text helpers *)

Module TextFacts.
Import TextHelpers.

Lemma drop_white_split (s : list N) :
  exists lead : list N,
    s = lead ++ drop_white s
    /\ forallb white_unit lead = true
    /\ (forall u, hd_error (drop_white s) = Some u -> white_unit u = false).
Proof.
  induction s as [|c s (lead & Hs & Hl & Hh)]; cbn [drop_white].
  - exists []. repeat split. discriminate.
  - destruct (white_unit c) eqn:E.
    + exists (c :: lead). cbn [app forallb]. rewrite E, Hl.
      repeat split; [now f_equal|exact Hh].
    + exists []. repeat split. now intros u [= <-].
Qed.

Lemma drop_white_length (s : list N) :
  (length (drop_white s) <= length s)%nat.
Proof.
  destruct (drop_white_split s) as (lead & Hs & _).
  rewrite Hs at 2. rewrite length_app. lia.
Qed.

(** Trimming takes the white space off both ends and nothing else. *)
Lemma trim_units_spec (s : list N) :
  exists lead trail : list N,
    s = lead ++ trim_units s ++ trail
    /\ forallb white_unit lead = true
    /\ forallb white_unit trail = true
    /\ (forall u, hd_error (trim_units s) = Some u -> white_unit u = false)
    /\ (forall u, hd_error (rev (trim_units s)) = Some u ->
                  white_unit u = false).
Proof.
  unfold trim_units.
  destruct (drop_white_split s) as (lead & Hs & Hl & Hh).
  destruct (drop_white_split (rev (drop_white s))) as (t & Hr & Ht & Hlast).
  assert (Hmid : drop_white s = rev (drop_white (rev (drop_white s))) ++ rev t).
  { rewrite <- rev_app_distr, <- Hr. now rewrite rev_involutive. }
  exists lead, (rev t). repeat split.
  - now rewrite <- Hmid.
  - exact Hl.
  - rewrite forallb_forall in Ht |- *. intros u Hu. apply Ht.
    now apply in_rev.
  - intros u Hu. apply Hh. rewrite Hmid.
    destruct (rev (drop_white (rev (drop_white s)))); [discriminate|].
    exact Hu.
  - intros u. rewrite rev_involutive. apply Hlast.
Qed.

Lemma trim_units_length (s : list N) :
  (length (trim_units s) <= length s)%nat.
Proof.
  destruct (trim_units_spec s) as (lead & trail & Hs & _).
  rewrite Hs at 2. rewrite !length_app. lia.
Qed.

(** X1: [truncateString] returns the empty text, and a text of at most
    [maxLength] code units, as it is.  Of a longer text it takes the
    first [maxLength] code units, strips the white space at both ends
    and nothing else (the piece kept neither starts nor ends with white
    space), and appends three full stops.  The result is never longer
    than [maxLength + 3] (3 when [maxLength] is negative). *)
Theorem truncateString_bounded (str : list N) (maxLength : Z) :
  (str = [] \/ (Z.of_nat (length str) <= maxLength)%Z ->
   truncateString str maxLength = str)
  /\ (str <> [] -> (maxLength < Z.of_nat (length str))%Z ->
      exists lead body trail : list N,
        firstn (Z.to_nat maxLength) str = lead ++ body ++ trail
        /\ forallb white_unit lead = true
        /\ forallb white_unit trail = true
        /\ (forall u, hd_error body = Some u -> white_unit u = false)
        /\ (forall u, hd_error (rev body) = Some u -> white_unit u = false)
        /\ truncateString str maxLength = body ++ [46; 46; 46]%N)
  /\ (Z.of_nat (length (truncateString str maxLength))
      <= Z.max 0 maxLength + 3)%Z.
Proof.
  unfold truncateString. split; [|split].
  - intros [->|Hle]; [reflexivity|].
    apply Z.leb_le in Hle. now rewrite Hle, orb_true_r.
  - intros Hne Hlt. destruct str as [|u str]; [contradiction|].
    apply Z.leb_gt in Hlt. rewrite Hlt. cbn [orb].
    destruct (trim_units_spec (firstn (Z.to_nat maxLength) (u :: str)))
      as (lead & trail & Hs & Hl & Ht & Hh & Hlast).
    exists lead, (trim_units (firstn (Z.to_nat maxLength) (u :: str))), trail.
    auto 10.
  - destruct str as [|u str]; [cbn; lia|]. cbn [orb].
    destruct (Z.leb_spec (Z.of_nat (length (u :: str))) maxLength)
      as [Hle|Hlt]; [lia|].
    pose proof (trim_units_length (firstn (Z.to_nat maxLength) (u :: str)))
      as Hb.
    rewrite length_firstn in Hb. rewrite length_app. cbn [length ellipsis].
    cbn [length] in Hlt. lia.
Qed.

Lemma truncateString_bounded_witness :
  truncateString (units_of "a studio") 100 = units_of "a studio"
  /\ truncateString [] (-1) = []
  /\ (exists lead body trail : list N,
        firstn (Z.to_nat 6) ([160] ++ units_of " two  bedrooms")%N
        = lead ++ body ++ trail
        /\ forallb white_unit lead = true
        /\ forallb white_unit trail = true
        /\ (forall u, hd_error body = Some u -> white_unit u = false)
        /\ (forall u, hd_error (rev body) = Some u -> white_unit u = false)
        /\ truncateString ([160] ++ units_of " two  bedrooms")%N 6
           = body ++ [46; 46; 46]%N)
  /\ truncateString ([160] ++ units_of " two  bedrooms")%N 6
     = units_of "two...".
Proof.
  split; [|split; [|split]].
  - apply (proj1 (truncateString_bounded (units_of "a studio") 100)).
    right. cbn. lia.
  - apply (proj1 (truncateString_bounded [] (-1))). now left.
  - apply (proj1 (proj2 (truncateString_bounded
                           ([160] ++ units_of " two  bedrooms")%N 6)));
      [discriminate | cbn; lia].
  - reflexivity.
Defined.

(** *** File extensions *)

Lemma to_lower_dot (c : ascii) : is_dot (Chars.to_lower c) = is_dot c.
Proof. destruct c as [[] [] [] [] [] [] [] []]; reflexivity. Qed.

Lemma split_at_nonempty sep s : split_at sep s <> [].
Proof.
  destruct s as [|c s]; simpl; [discriminate|].
  destruct (_ =? _)%N; [discriminate|].
  destruct (split_at sep s); discriminate.
Qed.

(** The last piece of a split holds no separator. *)
Lemma last_piece_clean sep s :
  forallb (fun c => negb (Chars.code c =? Chars.code sep)%N)
    (pop (split_at sep s)) = true.
Proof.
  unfold pop. induction s as [|c s IH]; simpl; [reflexivity|].
  destruct (Chars.code c =? Chars.code sep)%N eqn:E.
  - pose proof (split_at_nonempty sep s) as Hne.
    destruct (split_at sep s) as [|p ps]; [contradiction | exact IH].
  - pose proof (split_at_nonempty sep s) as Hne.
    destruct (split_at sep s) as [|p ps]; [contradiction|].
    destruct ps as [|q ps]; [|exact IH].
    simpl in *. now rewrite E, IH.
Qed.

Lemma split_at_clean sep s :
  forallb (fun c => negb (Chars.code c =? Chars.code sep)%N) s = true ->
  split_at sep s = [s].
Proof.
  induction s as [|c s IH]; simpl; [reflexivity|].
  intros H. apply andb_prop in H as [Hc Hs].
  apply negb_true_iff in Hc. rewrite Hc, (IH Hs). reflexivity.
Qed.

Lemma forallb_same {A} (f g : A -> bool) (l : list A) :
  (forall x, f x = g x) -> forallb f l = forallb g l.
Proof.
  intros H. induction l as [|x l IH]; simpl; [reflexivity|].
  now rewrite H, IH.
Qed.

Lemma forallb_through_map {A B} (f : B -> bool) (g : A -> B) (l : list A) :
  forallb f (map g l) = forallb (fun x => f (g x)) l.
Proof. induction l as [|x l IH]; simpl; [reflexivity | now rewrite IH]. Qed.

(** The piece after the last separator. *)
Lemma split_at_last sep (base ext : list ascii) :
  forallb (fun c => negb (Chars.code c =? Chars.code sep)%N) ext = true ->
  exists p ps, split_at sep (base ++ sep :: ext) = (p :: ps) ++ [ext].
Proof.
  intros Hext. induction base as [|c base (p & ps & IH)]; simpl.
  - rewrite N.eqb_refl, (split_at_clean _ _ Hext). now exists [], [].
  - rewrite IH. destruct (_ =? _)%N.
    + now exists [], (p :: ps).
    + now exists (c :: p), ps.
Qed.

Lemma pop_after_last sep (base ext : list ascii) :
  forallb (fun c => negb (Chars.code c =? Chars.code sep)%N) ext = true ->
  pop (split_at sep (base ++ sep :: ext)) = ext.
Proof.
  intros Hext. destruct (split_at_last sep base ext Hext) as (p & ps & ->).
  unfold pop. apply last_last.
Qed.

(** X2: the result of [getFileExtension] holds no dot; it is the text
    after the last dot in lower case, and for a name without any dot it
    is the whole name in lower case. *)
Theorem getFileExtension_after_last_dot :
  (forall filename : string,
      forallb (fun c => negb (is_dot c))
        (list_ascii_of_string (getFileExtension filename)) = true)
  /\ (forall base ext : string,
        forallb (fun c => negb (is_dot c)) (list_ascii_of_string ext) = true ->
        getFileExtension (base +:+ "." +:+ ext)
        = string_of_list_ascii (toLowerCase (list_ascii_of_string ext)))
  /\ (forall filename : string,
        forallb (fun c => negb (is_dot c)) (list_ascii_of_string filename)
        = true ->
        getFileExtension filename
        = string_of_list_ascii (toLowerCase (list_ascii_of_string filename))).
Proof.
  split; [|split].
  - intros filename. unfold getFileExtension.
    destruct (String.eqb filename ""); [reflexivity|].
    rewrite list_ascii_of_string_of_list_ascii. unfold toLowerCase.
    rewrite forallb_through_map.
    etransitivity;
      [|exact (last_piece_clean "." (list_ascii_of_string filename))].
    apply forallb_same. intros c. now rewrite to_lower_dot.
  - intros base ext Hext. unfold getFileExtension.
    destruct (String.eqb_spec (base +:+ "." +:+ ext) "") as [E|_].
    { exfalso. revert E. now apply HelpersFacts.app_not_empty. }
    rewrite !HelpersFacts.chars_app. simpl.
    now rewrite (pop_after_last "." _ _ Hext).
  - intros filename Hf. unfold getFileExtension.
    destruct (String.eqb_spec filename "") as [->|_]; [reflexivity|].
    now rewrite (split_at_clean "." _ Hf).
Qed.

Lemma getFileExtension_after_last_dot_witness :
  getFileExtension ("plan.final" +:+ "." +:+ "PNG") = "png"
  /\ getFileExtension "README" = "readme".
Proof.
  split.
  - apply (proj1 (proj2 getFileExtension_after_last_dot) "plan.final" "PNG").
    reflexivity.
  - apply (proj2 (proj2 getFileExtension_after_last_dot) "README").
    reflexivity.
Defined.

(** *** Slugs *)

Lemma to_lower_not_upper (c : ascii) : Chars.is_upper (Chars.to_lower c) = false.
Proof. destruct c as [[] [] [] [] [] [] [] []]; reflexivity. Qed.

Lemma slug_char_spec (c : ascii) :
  slug_char c
  = (Chars.is_word c || is_hyphen c) && negb (Chars.is_upper c)
    && negb (Chars.is_space c).
Proof. destruct c as [[] [] [] [] [] [] [] []]; reflexivity. Qed.

Lemma slug_char_fixed (c : ascii) :
  slug_char c = true ->
  Chars.to_lower c = c
  /\ (Chars.is_word c || Chars.is_space c || is_hyphen c) = true
  /\ Chars.is_space c = false.
Proof.
  destruct c as [[] [] [] [] [] [] [] []]; intros H;
    try discriminate H; repeat split.
Qed.

Lemma hyphen_is_slug_char (c : ascii) :
  is_hyphen c = true -> slug_char c = true /\ Chars.is_space c = false.
Proof.
  destruct c as [[] [] [] [] [] [] [] []]; intros H;
    try discriminate H; split; reflexivity.
Qed.

(** After the first two steps every character is a slug character or
    white space. *)
Lemma cleaned_chars (s : list ascii) (c : ascii) :
  In c (remove_special (toLowerCase s)) ->
  slug_char c = true \/ Chars.is_space c = true.
Proof.
  unfold remove_special, toLowerCase. rewrite filter_In, in_map_iff.
  intros [(x & <- & _) Hf]. rewrite slug_char_spec.
  rewrite to_lower_not_upper.
  destruct (Chars.is_space (Chars.to_lower x)); [now right|left].
  rewrite orb_false_r in Hf.
  destruct (Chars.is_word (Chars.to_lower x)); simpl in *; [reflexivity|].
  now rewrite Hf.
Qed.

Lemma spaces_to_hyphen_chars (s : list ascii) :
  forall inside c,
    In c (spaces_to_hyphen inside s) ->
    is_hyphen c = true \/ (In c s /\ Chars.is_space c = false).
Proof.
  induction s as [|x s IH]; intros inside c; simpl; [tauto|].
  destruct (Chars.is_space x) eqn:E.
  - destruct inside; simpl.
    + intros H. apply IH in H. tauto.
    + intros [<-|H]; [now left|]. apply IH in H. tauto.
  - intros [<-|H]; [right; auto|]. apply IH in H. tauto.
Qed.

Lemma collapse_hyphens_chars (s : list ascii) :
  forall inside c, In c (collapse_hyphens inside s) -> In c s.
Proof.
  induction s as [|x s IH]; intros inside c; simpl; [tauto|].
  destruct (is_hyphen x); [destruct inside|]; simpl;
    intros H; try (destruct H as [H|H]; [now left|]); right; eauto.
Qed.

Lemma drop_hyphens_suffix (s : list ascii) :
  exists a, s = a ++ drop_hyphens s.
Proof.
  induction s as [|c s [a IH]]; simpl; [now exists []|].
  destruct (is_hyphen c).
  - exists (c :: a). simpl. now f_equal.
  - now exists [].
Qed.

Lemma drop_hyphens_chars (s : list ascii) (c : ascii) :
  In c (drop_hyphens s) -> In c s.
Proof.
  destruct (drop_hyphens_suffix s) as [a Ha]. intros H.
  rewrite Ha. apply in_or_app. now right.
Qed.

Lemma strip_hyphens_chars (s : list ascii) (c : ascii) :
  In c (strip_hyphens s) -> In c s.
Proof.
  unfold strip_hyphens. intros H. apply in_rev in H.
  apply drop_hyphens_chars in H. apply in_rev in H.
  now apply drop_hyphens_chars.
Qed.

Lemma slug_chars_alphabet (prompt : list ascii) :
  forallb slug_char (slug_chars prompt) = true.
Proof.
  apply forallb_forall. intros c H. unfold slug_chars, substring0 in H.
  apply strip_hyphens_chars in H.
  apply (In_nth _ _ c) in H as (n & Hn & <-).
  rewrite length_firstn in Hn.
  set (l := collapse_hyphens false _).
  assert (Hin : In (nth n (firstn (Z.to_nat 60) l) c) l).
  { rewrite <- (firstn_skipn (Z.to_nat 60) l) at 2.
    apply in_or_app. left. apply nth_In. rewrite length_firstn. exact Hn. }
  revert Hin. generalize (nth n (firstn (Z.to_nat 60) l) c). intros d Hd.
  apply collapse_hyphens_chars in Hd.
  apply spaces_to_hyphen_chars in Hd as [Hd|[Hd Hs]].
  - now apply hyphen_is_slug_char.
  - apply cleaned_chars in Hd as [Hd|Hd]; congruence.
Qed.

Lemma collapse_no_double (s : list ascii) :
  forall inside,
    no_double_hyphen (collapse_hyphens inside s) = true
    /\ (inside = true ->
        match collapse_hyphens inside s with
        | c :: _ => is_hyphen c = false
        | [] => True
        end).
Proof.
  induction s as [|x s IH]; intros inside; simpl; [auto|].
  destruct (is_hyphen x) eqn:E.
  - destruct inside.
    + destruct (IH true) as [H1 H2]. auto.
    + destruct (IH true) as [H1 H2]. split; [|discriminate].
      specialize (H2 eq_refl). simpl.
      destruct (collapse_hyphens true s) as [|y l]; [reflexivity|].
      now rewrite E, H2, H1.
  - destruct (IH false) as [H1 _]. split; [|now rewrite E].
    simpl. destruct (collapse_hyphens false s) as [|y l]; [reflexivity|].
    now rewrite E, H1.
Qed.

Lemma no_double_tail (a : ascii) (l : list ascii) :
  no_double_hyphen (a :: l) = true -> no_double_hyphen l = true.
Proof. destruct l; simpl; [reflexivity|]. now intros H%andb_prop. Qed.

Lemma no_double_firstn (n : nat) (l : list ascii) :
  no_double_hyphen l = true -> no_double_hyphen (firstn n l) = true.
Proof.
  revert l. induction n as [|n IH]; intros l H; [reflexivity|].
  destruct l as [|a l]; [reflexivity|].
  pose proof (IH l (no_double_tail _ _ H)) as IHl.
  cbn [firstn]. destruct l as [|b l]; [now destruct n|].
  destruct n as [|n]; [reflexivity|].
  cbn [firstn] in *. cbn [no_double_hyphen] in H |- *.
  apply andb_prop in H as [Hab _]. rewrite Hab. exact IHl.
Qed.

Lemma no_double_drop (l : list ascii) :
  no_double_hyphen l = true -> no_double_hyphen (drop_hyphens l) = true.
Proof.
  induction l as [|a l IH]; intros H; [reflexivity|]. cbn [drop_hyphens].
  destruct (is_hyphen a); [|exact H]. apply IH. exact (no_double_tail _ _ H).
Qed.

Lemma no_double_snoc (l : list ascii) (x : ascii) :
  no_double_hyphen (l ++ [x])
  = no_double_hyphen l
    && match rev l with
       | y :: _ => negb (is_hyphen y && is_hyphen x)
       | [] => true
       end.
Proof.
  induction l as [|a l IH]; [reflexivity|].
  destruct l as [|b l]; [simpl; now rewrite andb_true_r|].
  change ((a :: b :: l) ++ [x]) with (a :: (b :: l) ++ [x]).
  change (no_double_hyphen (a :: (b :: l) ++ [x]))
    with (negb (is_hyphen a && is_hyphen b)
          && no_double_hyphen ((b :: l) ++ [x])).
  rewrite IH. change (no_double_hyphen (a :: b :: l))
    with (negb (is_hyphen a && is_hyphen b) && no_double_hyphen (b :: l)).
  rewrite <- andb_assoc. f_equal. f_equal.
  cbn [rev]. destruct (rev l ++ [b]) eqn:E.
  - now destruct (rev l).
  - reflexivity.
Qed.

Lemma no_double_rev (l : list ascii) :
  no_double_hyphen (rev l) = no_double_hyphen l.
Proof.
  induction l as [|a l IH]; [reflexivity|].
  cbn [rev]. rewrite no_double_snoc, IH, rev_involutive.
  destruct l as [|b l]; [reflexivity|].
  cbn [no_double_hyphen]. rewrite andb_comm. f_equal.
  now rewrite (andb_comm (is_hyphen b)).
Qed.

Lemma slug_chars_no_double (prompt : list ascii) :
  no_double_hyphen (slug_chars prompt) = true.
Proof.
  unfold slug_chars, strip_hyphens, substring0.
  rewrite no_double_rev. apply no_double_drop. rewrite no_double_rev.
  apply no_double_drop, no_double_firstn, collapse_no_double.
Qed.

Lemma drop_hyphens_head (s : list ascii) :
  match drop_hyphens s with
  | c :: _ => is_hyphen c = false
  | [] => True
  end.
Proof.
  induction s as [|c s IH]; simpl; [exact I|].
  destruct (is_hyphen c) eqn:E; [exact IH | exact E].
Qed.

Lemma last_rev (l : list ascii) (d : ascii) :
  List.last (rev l) d = hd d l.
Proof.
  destruct l as [|a l]; [reflexivity|]. cbn [rev hd]. apply last_last.
Qed.

(** Stripping leaves no hyphen at either end. *)
Lemma strip_hyphens_ends (s : list ascii) :
  no_hyphen_at_ends (strip_hyphens s) = true.
Proof.
  unfold strip_hyphens.
  set (t := drop_hyphens s). set (u := drop_hyphens (rev t)).
  pose proof (drop_hyphens_head s) as Ht. fold t in Ht.
  pose proof (drop_hyphens_head (rev t)) as Hu. fold u in Hu.
  destruct (drop_hyphens_suffix (rev t)) as [a Ha]. fold u in Ha.
  destruct u as [|h u']; [reflexivity|].
  apply (f_equal (@rev ascii)) in Ha.
  rewrite rev_involutive, rev_app_distr in Ha.
  unfold no_hyphen_at_ends.
  destruct (rev (h :: u')) as [|c r] eqn:E.
  { apply (f_equal (@length ascii)) in E. rewrite length_rev in E.
    discriminate. }
  rewrite <- E, last_rev. cbn [hd]. rewrite Hu. cbn [negb].
  rewrite andb_true_r. subst t. rewrite Ha in Ht. cbn [app] in Ht.
  now rewrite Ht.
Qed.

Lemma drop_hyphens_length (s : list ascii) :
  (length (drop_hyphens s) <= length s)%nat.
Proof.
  induction s as [|c s IH]; simpl; [lia|].
  destruct (is_hyphen c); simpl; lia.
Qed.

Lemma slug_chars_length (prompt : list ascii) :
  (length (slug_chars prompt) <= 60)%nat.
Proof.
  unfold slug_chars, strip_hyphens, substring0. rewrite length_rev.
  etransitivity; [apply drop_hyphens_length|]. rewrite length_rev.
  etransitivity; [apply drop_hyphens_length|]. rewrite length_firstn. lia.
Qed.

(** X3: a slug is at most 60 characters long, is made of lower-case
    letters, digits, underscores and hyphens only, has no two hyphens in
    a row and no hyphen at its start or end. *)
Theorem createSlugFromPrompt_shape (prompt : string) :
  let slug := list_ascii_of_string (createSlugFromPrompt prompt) in
  (length slug <= 60)%nat
  /\ forallb slug_char slug = true
  /\ no_double_hyphen slug = true
  /\ no_hyphen_at_ends slug = true.
Proof.
  unfold createSlugFromPrompt.
  destruct (String.eqb prompt ""); cbn zeta.
  - simpl. repeat split. lia.
  - rewrite list_ascii_of_string_of_list_ascii.
    split; [apply slug_chars_length|].
    split; [apply slug_chars_alphabet|].
    split; [apply slug_chars_no_double | apply strip_hyphens_ends].
Qed.

Lemma spaces_to_hyphen_none (s : list ascii) :
  forall inside,
    forallb (fun c => negb (Chars.is_space c)) s = true ->
    spaces_to_hyphen inside s = s.
Proof.
  induction s as [|c s IH]; intros inside H; [reflexivity|].
  simpl in *. apply andb_prop in H as [Hc Hs].
  apply negb_true_iff in Hc. rewrite Hc. f_equal. now apply IH.
Qed.

Lemma collapse_hyphens_none (s : list ascii) :
  forall inside,
    no_double_hyphen s = true ->
    (inside = true -> match s with
                      | c :: _ => is_hyphen c = false
                      | [] => True
                      end) ->
    collapse_hyphens inside s = s.
Proof.
  induction s as [|c s IH]; intros inside Hnd Hhead; [reflexivity|].
  cbn [collapse_hyphens].
  pose proof (no_double_tail _ _ Hnd) as Hs.
  destruct (is_hyphen c) eqn:E.
  - destruct inside; [specialize (Hhead eq_refl); congruence|].
    f_equal. apply IH; [exact Hs|]. intros _.
    destruct s as [|b s]; [exact I|]. cbn [no_double_hyphen] in Hnd.
    rewrite E in Hnd. apply andb_prop in Hnd as [Hb _].
    now destruct (is_hyphen b).
  - f_equal. apply IH; [exact Hs | discriminate].
Qed.

Lemma strip_hyphens_none (s : list ascii) :
  no_hyphen_at_ends s = true -> strip_hyphens s = s.
Proof.
  unfold no_hyphen_at_ends, strip_hyphens.
  destruct s as [|c s]; [reflexivity|]. intros H.
  apply andb_prop in H as [Hc Hl].
  apply negb_true_iff in Hc, Hl.
  cbn [drop_hyphens]. rewrite Hc.
  assert (Hr : drop_hyphens (rev (c :: s)) = rev (c :: s)).
  { pose proof (last_rev (rev (c :: s)) c) as Hlast.
    rewrite rev_involutive in Hlast.
    destruct (rev (c :: s)) as [|x r]; [reflexivity|].
    cbn [hd] in Hlast. cbn [drop_hyphens]. now rewrite <- Hlast, Hl. }
  rewrite Hr. apply rev_involutive.
Qed.

(** A text with the shape of a slug is its own slug. *)
Lemma slug_chars_fixed (s : list ascii) :
  (length s <= 60)%nat ->
  forallb slug_char s = true ->
  no_double_hyphen s = true ->
  no_hyphen_at_ends s = true ->
  slug_chars s = s.
Proof.
  intros Hlen Hchars Hnd Hends. unfold slug_chars.
  assert (Hall : forall c, In c s -> slug_char c = true)
    by now apply forallb_forall.
  assert (E1 : toLowerCase s = s).
  { unfold toLowerCase. rewrite <- (map_id s) at 2. apply map_ext_in.
    intros c Hc. now apply slug_char_fixed, Hall. }
  assert (E2 : remove_special s = s).
  { unfold remove_special. clear -Hall.
    induction s as [|c s IH]; [reflexivity|]. simpl.
    destruct (slug_char_fixed c (Hall c (or_introl eq_refl))) as (_ & -> & _).
    f_equal. apply IH. intros d Hd. apply Hall. now right. }
  assert (E3 : spaces_to_hyphen false s = s).
  { apply spaces_to_hyphen_none, forallb_forall. intros c Hc.
    apply negb_true_iff. now apply slug_char_fixed, Hall. }
  assert (E4 : collapse_hyphens false s = s)
    by (apply collapse_hyphens_none; [exact Hnd | discriminate]).
  rewrite E1, E2, E3, E4. unfold substring0.
  rewrite firstn_all2 by (simpl; lia). now apply strip_hyphens_none.
Qed.

(** X4: [createSlugFromPrompt] is idempotent: the slug of a slug is that
    slug. *)
Theorem createSlugFromPrompt_idempotent (prompt : string) :
  createSlugFromPrompt (createSlugFromPrompt prompt)
  = createSlugFromPrompt prompt.
Proof.
  unfold createSlugFromPrompt.
  destruct (String.eqb prompt ""); [reflexivity|].
  set (cs := slug_chars (list_ascii_of_string prompt)).
  destruct (String.eqb_spec (string_of_list_ascii cs) "") as [E|_];
    [now rewrite E | f_equal].
  rewrite list_ascii_of_string_of_list_ascii. subst cs.
  apply slug_chars_fixed;
    [apply slug_chars_length | apply slug_chars_alphabet
    | apply slug_chars_no_double | apply strip_hyphens_ends].
Qed.
End TextFacts.

(** ** More on the hook *)

Module HookMoreFacts.
Import Json Hook Scenario SessionMore.

Lemma save_floorPlans (plan : object) (st : State) :
  floorPlans (cells (saveFloorPlan plan st))
  = map (fun p => if strict_eq (prop p "id") (prop plan "id")
                  then plan else p) (floorPlans st).
Proof.
  unfold saveFloorPlan. cbn [cells].
  now destruct (strict_eq _ (prop plan "id")).
Qed.

Lemma save_currentPlan (plan : object) (st : State) :
  currentPlan (cells (saveFloorPlan plan st))
  = if strict_eq (current_id st) (prop plan "id")
    then Some plan else currentPlan st.
Proof.
  unfold saveFloorPlan. cbn [cells].
  change (current_id (setError None (setIsLoading true st)))
    with (current_id st).
  now destruct (strict_eq _ (prop plan "id")).
Qed.

(** X5: [saveFloorPlan] never changes the number of entries: at every
    index it puts the given plan where the entry has the plan's id and
    leaves the entry otherwise; with an id that no entry has, the
    collection is unchanged, and the plan is returned all the same.  The
    current plan is replaced exactly when its id is the plan's. *)
Theorem save_replaces_in_place (plan : object) (st : State) :
  let o := saveFloorPlan plan st in
  length (floorPlans (cells o)) = length (floorPlans st)
  /\ (forall (i : nat) (p : object),
        floorPlans st !! i = Some p ->
        floorPlans (cells o) !! i
        = Some (if strict_eq (prop p "id") (prop plan "id")
                then plan else p))
  /\ ((forall p : object,
         In p (floorPlans st) ->
         strict_eq (prop p "id") (prop plan "id") = false) ->
      floorPlans (cells o) = floorPlans st)
  /\ currentPlan (cells o)
     = (if strict_eq (current_id st) (prop plan "id")
        then Some plan else currentPlan st)
  /\ returned o = Some plan.
Proof.
  intros o. subst o. rewrite save_floorPlans, save_currentPlan.
  split; [apply length_map|]. split; [|split; [|split; reflexivity]].
  - intros i p Hi. rewrite list_lookup_fmap, Hi. reflexivity.
  - intros H. rewrite <- (map_id (floorPlans st)) at 2.
    apply map_ext_in. intros p Hp. now rewrite (H p Hp).
Qed.

Lemma save_replaces_in_place_witness :
  floorPlans (cells (saveFloorPlan [("id", VStr "p1"); ("name", VStr "Loft")]
                       (hook s_generated))) !! 0%nat
  = Some [("id", VStr "p1"); ("name", VStr "Loft")]
  /\ floorPlans (cells (saveFloorPlan [("id", VStr "p9")] (hook s_generated)))
     = floorPlans (hook s_generated).
Proof.
  split.
  - apply (proj1 (proj2 (save_replaces_in_place
                           [("id", VStr "p1"); ("name", VStr "Loft")]
                           (hook s_generated))) 0%nat plan0).
    reflexivity.
  - apply (proj1 (proj2 (proj2 (save_replaces_in_place [("id", VStr "p9")]
                                  (hook s_generated))))).
    vm_compute. intros p [<-|[]]. reflexivity.
Defined.

Lemma filter_twice {A} (f : A -> bool) (l : list A) :
  List.filter f (List.filter f l) = List.filter f l.
Proof.
  induction l as [|x l IH]; [reflexivity|]. simpl.
  destruct (f x) eqn:E; simpl; now rewrite ?E, IH.
Qed.

Lemma filter_all {A} (f : A -> bool) (l : list A) :
  (forall x, In x l -> f x = true) -> List.filter f l = l.
Proof.
  induction l as [|x l IH]; intros H; [reflexivity|]. simpl.
  rewrite (H x (or_introl eq_refl)). f_equal. apply IH.
  intros y Hy. apply H. now right.
Qed.

(** X6: deleting the same id a second time changes nothing more; and
    deleting the plan a successful generate call has just added, by its
    string id, gives back the collection as it was before that call when
    no earlier plan had the id, with no current plan left. *)
Theorem delete_idempotent_and_undoes_generate :
  (forall (id : string) (st : State),
      let once := cells (deleteFloorPlan id st) in
      let twice := cells (deleteFloorPlan id once) in
      floorPlans twice = floorPlans once
      /\ currentPlan twice = currentPlan once)
  /\ (forall (api : string -> object -> settled) (env : Env)
             (prompt : string) (options : object) (st : State)
             (data : value) (id : string),
        String.eqb (trim prompt) "" = false ->
        api prompt options = Resolved data ->
        get data "id" = Some (VStr id) ->
        (forall p : object,
            In p (floorPlans st) -> prop p "id" <> VStr id) ->
        let generated :=
          cells (fst (generateFloorPlan api env prompt options st)) in
        let deleted := cells (deleteFloorPlan id generated) in
        floorPlans deleted = floorPlans st
        /\ currentPlan deleted = None).
Proof.
  split.
  - intros id st once twice. subst once twice.
    rewrite !HookFacts.delete_floorPlans, !HookFacts.delete_currentPlan.
    split; [apply filter_twice|].
    destruct (strict_eq (current_id st) (VStr id)) eqn:E.
    + match goal with |- (if ?b then _ else _) = _ => destruct b end;
        reflexivity.
    + unfold current_id at 1.
      rewrite HookFacts.delete_currentPlan, E.
      fold (current_id st). now rewrite E.
  - intros api env prompt options st data id Hp Hapi Hid Hfresh
      generated deleted. subst generated deleted.
    rewrite HookFacts.delete_floorPlans, HookFacts.delete_currentPlan.
    unfold generateFloorPlan. rewrite Hp, Hapi. cbn [fst generate_resume].
    unfold newFloorPlan. rewrite Hid.
    cbn [cells prepend floorPlans currentPlan setIsGenerating setFloorPlans
         setCurrentPlan current_id default prop lookup_member String.eqb
         Ascii.eqb Bool.eqb List.filter strict_eq negb].
    unfold Datatypes.id. cbn [strict_eq floorPlans generate_begin setError
         setIsGenerating].
    rewrite String.eqb_refl. cbn [negb]. split; [|reflexivity].
    apply filter_all. intros p Hp'. apply negb_true_iff.
    destruct (strict_eq (prop p "id") (VStr id)) eqn:E; [|reflexivity].
    apply HookFacts.strict_eq_str in E. now apply Hfresh in E.
Qed.

Lemma delete_idempotent_and_undoes_generate_witness :
  floorPlans (cells (deleteFloorPlan "p1"
     (cells (fst (generateFloorPlan (fun _ _ => Resolved response0) env0
                    "a studio" [] (hook s_loaded))))))
  = floorPlans (hook s_loaded)
  /\ currentPlan (cells (deleteFloorPlan "p1"
       (cells (fst (generateFloorPlan (fun _ _ => Resolved response0) env0
                      "a studio" [] (hook s_loaded))))))
     = None.
Proof.
  apply (proj2 delete_idempotent_and_undoes_generate
           (fun _ _ => Resolved response0) env0 "a studio" []
           (hook s_loaded) response0 "p1"); try reflexivity.
  intros p [].
Defined.

(** X7: when the remote call is rejected, or resolves with [null] or
    [undefined], [generateFloorPlan] on a prompt that is not blank has
    sent exactly one request and returns with the generate message as the
    error and [isGenerating] false.  Outside development it returns
    [null], does not go through [setFloorPlans] and leaves the collection
    and the current plan alone; in development it prepends and selects a
    placeholder plan carrying the prompt, the time-based id and the
    placeholder image, while the error stays set. *)
Theorem generate_failure
    (api : string -> object -> settled) (env : Env) (prompt : string)
    (options : object) (st : State) :
  String.eqb (trim prompt) "" = false ->
  (api prompt options = Rejected
   \/ exists data, api prompt options = Resolved data
                   /\ get data "id" = None) ->
  let r := generateFloorPlan api env prompt options st in
  let o := fst r in
  snd r = [(prompt, options)]
  /\ error (cells o) = Some generate_failed_msg
  /\ isGenerating (cells o) = false
  /\ (development env = false ->
      returned o = None /\ touched o = false
      /\ floorPlans (cells o) = floorPlans st
      /\ currentPlan (cells o) = currentPlan st)
  /\ (development env = true ->
      exists demo : object,
        returned o = Some demo
        /\ prop demo "id" = VStr (now_ms env)
        /\ prop demo "prompt" = VStr prompt
        /\ prop demo "imageUrl" = VStr placeholder_url
        /\ floorPlans (cells o) = demo :: floorPlans st
        /\ currentPlan (cells o) = Some demo).
Proof.
  intros Hp Hfail r o. subst o r. unfold generateFloorPlan. rewrite Hp.
  cbn [fst snd].
  assert (E : generate_resume (api prompt options) prompt options env
                (generate_begin st)
              = generate_catch prompt options env (generate_begin st)).
  { unfold generate_resume.
    destruct Hfail as [->|(data & -> & Hid)]; [reflexivity|].
    unfold newFloorPlan. now rewrite Hid. }
  rewrite E. unfold generate_catch.
  destruct (development env); cbn.
  - repeat split; try discriminate. intros _. eexists. repeat split.
  - repeat split; discriminate.
Qed.

Lemma generate_failure_witness :
  let r := generateFloorPlan (fun _ _ => Resolved VNull) env0 "a studio" []
             (hook s_generated) in
  snd r = [("a studio", [])]
  /\ error (cells (fst r)) = Some generate_failed_msg
  /\ isGenerating (cells (fst r)) = false
  /\ (development env0 = false ->
      returned (fst r) = None /\ touched (fst r) = false
      /\ floorPlans (cells (fst r)) = floorPlans (hook s_generated)
      /\ currentPlan (cells (fst r)) = currentPlan (hook s_generated))
  /\ (development env0 = true ->
      exists demo : object,
        returned (fst r) = Some demo
        /\ prop demo "id" = VStr (now_ms env0)
        /\ prop demo "prompt" = VStr "a studio"
        /\ prop demo "imageUrl" = VStr placeholder_url
        /\ floorPlans (cells (fst r)) = demo :: floorPlans (hook s_generated)
        /\ currentPlan (cells (fst r)) = Some demo).
Proof.
  apply (generate_failure (fun _ _ => Resolved VNull) env0 "a studio" []
           (hook s_generated)).
  - reflexivity.
  - right. exists VNull. split; reflexivity.
Defined.

(** *** The loading flag *)

Lemma save_clears_loading plan st :
  isLoading (cells (saveFloorPlan plan st)) = false.
Proof.
  unfold saveFloorPlan. cbn [cells].
  now destruct (strict_eq _ (prop plan "id")).
Qed.

Lemma delete_clears_loading id st :
  isLoading (cells (deleteFloorPlan id st)) = false.
Proof.
  unfold deleteFloorPlan. cbn [cells].
  now destruct (strict_eq _ (VStr id)).
Qed.

Lemma load_clears_loading res ls st t st' :
  load_resume res ls st = Loaded t st' -> isLoading st' = false.
Proof.
  intros H. unfold load_resume, load_catch, adopt in H.
  repeat match type of H with
         | context [match ?x with _ => _ end] => destruct x
         end; try discriminate; now injection H as <- <-.
Qed.

Lemma generate_keeps_loading res prompt options env st :
  isLoading (cells (generate_resume res prompt options env st))
  = isLoading st.
Proof.
  unfold generate_resume, generate_catch.
  destruct res as [data|]; [destruct (newFloorPlan data options env)|];
    try destruct (development env); reflexivity.
Qed.

Lemma step_loaded_flag (s s' : Session) :
  step s s' -> loaded_flag_down s -> loaded_flag_down s'.
Proof.
  intros Hstep Hs. unfold loaded_flag_down in *.
  destruct Hstep as [s res t st' _ Hl | s res st' _ Hl | | | | | | | ];
    cbn [hook loading rendered]; intros Hd.
  - exact (load_clears_loading _ _ _ _ _ Hl).
  - now apply HookFacts.load_threw_untouched in Hl.
  - now apply Hs.
  - now apply Hs.
  - rewrite generate_keeps_loading. now apply Hs.
  - apply save_clears_loading.
  - apply delete_clears_loading.
  - now apply Hs.
  - now apply Hs.
Qed.

(** X8: once the loader of the mount effect has settled, [isLoading] is
    false in every reachable state; and since every save and every delete
    returns with the flag false, the flag is also down after one of them
    runs while the loader is still waiting. *)
Theorem loading_flag_released :
  (forall s : Session,
      reachable s -> loading s = false -> isLoading (hook s) = false)
  /\ (forall (plan : object) (st : State),
        isLoading (cells (saveFloorPlan plan st)) = false)
  /\ (forall (id : string) (st : State),
        isLoading (cells (deleteFloorPlan id st)) = false).
Proof.
  split; [|split].
  - intros s Hr. change (loaded_flag_down s).
    induction Hr as [ls | s s' _ IH Hstep].
    + discriminate.
    + eauto using step_loaded_flag.
  - apply save_clears_loading.
  - apply delete_clears_loading.
Qed.

Lemma loading_flag_released_witness : isLoading (hook s_deleted) = false.
Proof.
  apply (proj1 loading_flag_released).
  - exact HookFacts.s_deleted_reachable.
  - reflexivity.
Defined.
End HookMoreFacts.

(** ** The page and the controls *)

Module HomeFacts.
Import Json Hook Home Scenario.

Lemma prop_set_same (k : string) (v : value) (o : object) :
  prop (set_member k v o) k = v.
Proof.
  unfold prop. induction o as [|[k' v'] o IH]; simpl.
  - now rewrite String.eqb_refl.
  - destruct (String.eqb k' k) eqn:E; simpl.
    + now rewrite String.eqb_refl.
    + now rewrite E.
Qed.

Lemma prop_set_other (k k' : string) (v : value) (o : object) :
  k <> k' -> prop (set_member k v o) k' = prop o k'.
Proof.
  intros Hne. unfold prop. induction o as [|[k0 v0] o IH]; simpl.
  - apply String.eqb_neq in Hne. now rewrite Hne.
  - destruct (String.eqb k0 k) eqn:E; simpl.
    + apply String.eqb_eq in E. subst k0.
      apply String.eqb_neq in Hne. now rewrite Hne.
    + destruct (String.eqb k0 k'); [reflexivity | exact IH].
Qed.

Lemma strict_eq_refl (v : value) : primitive v = true -> strict_eq v v = true.
Proof.
  destruct v; simpl; try discriminate; intros _; try reflexivity.
  - now destruct b.
  - unfold num_eqb. now rewrite Z.eqb_refl, Nat.eqb_refl.
  - apply String.eqb_refl.
Qed.

Lemma chosen_name_not_empty (input : string) : chosen_name input <> "".
Proof.
  unfold chosen_name.
  destruct (String.eqb_spec (trim input) ""); [discriminate | assumption].
Qed.

(** X9: renaming from the controls.  The name handed on is never empty:
    it is the trimmed input, or "Untitled Floor Plan" when that is empty.
    With a current plan whose id is a primitive, [handleSaveFloorPlan]
    makes the renamed copy the current plan, keeps its id, puts the copy
    in place of every entry with that id and leaves the other entries and
    the length of the collection as they were; with no current plan it
    does not call [saveFloorPlan]. *)
Theorem rename_current_plan (input : string) (st : State) :
  let name := chosen_name input in
  name <> ""
  /\ (currentPlan st = None -> handleSaveFloorPlan name st = None)
  /\ (forall current : object,
        currentPlan st = Some current ->
        primitive (prop current "id") = true ->
        exists o,
          handleSaveFloorPlan name st = Some o
          /\ let renamed := updatedFloorPlan current name in
             prop renamed "name" = VStr name
             /\ prop renamed "id" = prop current "id"
             /\ currentPlan (cells o) = Some renamed
             /\ returned o = Some renamed
             /\ length (floorPlans (cells o)) = length (floorPlans st)
             /\ (forall (i : nat) (p : object),
                   floorPlans st !! i = Some p ->
                   floorPlans (cells o) !! i
                   = Some (if strict_eq (prop p "id") (prop current "id")
                           then renamed else p))).
Proof.
  intros name. split; [apply chosen_name_not_empty|]. split.
  - unfold handleSaveFloorPlan. now intros ->.
  - intros current Hc Hprim. unfold handleSaveFloorPlan. rewrite Hc.
    eexists. split; [reflexivity|]. cbn zeta.
    assert (Hid : prop (updatedFloorPlan current name) "id"
                  = prop current "id")
      by (apply prop_set_other; discriminate).
    rewrite HookMoreFacts.save_floorPlans, HookMoreFacts.save_currentPlan.
    rewrite Hid. unfold current_id. rewrite Hc.
    rewrite (strict_eq_refl _ Hprim).
    split; [apply prop_set_same|]. split; [reflexivity|].
    split; [reflexivity|]. split; [reflexivity|].
    split; [apply length_map|].
    intros i p Hi. now rewrite list_lookup_fmap, Hi.
Qed.

Lemma rename_current_plan_witness :
  exists o,
    handleSaveFloorPlan (chosen_name "  Loft  ") (hook s_generated) = Some o
    /\ let renamed := updatedFloorPlan plan0 (chosen_name "  Loft  ") in
       prop renamed "name" = VStr (chosen_name "  Loft  ")
       /\ prop renamed "id" = prop plan0 "id"
       /\ currentPlan (cells o) = Some renamed
       /\ returned o = Some renamed
       /\ length (floorPlans (cells o)) = length (floorPlans (hook s_generated))
       /\ (forall (i : nat) (p : object),
             floorPlans (hook s_generated) !! i = Some p ->
             floorPlans (cells o) !! i
             = Some (if strict_eq (prop p "id") (prop plan0 "id")
                     then renamed else p)).
Proof.
  apply (proj2 (proj2 (rename_current_plan "  Loft  " (hook s_generated)))
           plan0); reflexivity.
Defined.

End HomeFacts.

(** ** The remote client *)

Module ApiFacts.
Import Json Hook Api.

Lemma handle_not_ok (r : Response) :
  ok r = false -> exists e, handle r = Thrown e.
Proof.
  intros Hok. unfold handle. rewrite Hok.
  destruct (isJson r); [|eauto].
  destruct (parse (body r)) as [v|]; [|eauto].
  destruct (get v "message"); eauto.
Qed.

Lemma text_offers_no_plans (text : string) : plan_array (VStr text) = None.
Proof. unfold plan_array. now destruct (truthy (VStr text)). Qed.

(** X11: [fetchApi] never returns data for an answer that is not ok.
    With a JSON content type it throws the SyntaxError of a malformed
    body, the TypeError of a [null] body, and otherwise an error built
    from the body's [message] when that is truthy, from the status when
    it is not; without a JSON content type the error is built from the
    status, whatever the body. *)
Theorem not_ok_always_throws (r : Response) :
  ok r = false ->
  (exists e, handle r = Thrown e)
  /\ (isJson r = false -> handle r = Thrown (ApiError (status_message r)))
  /\ (isJson r = true -> parse (body r) = None ->
      handle r = Thrown BodyNotJson)
  /\ (forall (v m : value),
        isJson r = true -> parse (body r) = Some v ->
        get v "message" = Some m ->
        handle r
        = Thrown (ApiError (if truthy m then m else status_message r)))
  /\ (forall v : value,
        isJson r = true -> parse (body r) = Some v ->
        get v "message" = None ->
        handle r = Thrown ReadOfNull).
Proof.
  intros Hok. split; [now apply handle_not_ok|].
  unfold handle. rewrite Hok.
  split; [|split; [|split]].
  - now intros ->.
  - now intros -> ->.
  - now intros v m -> -> ->.
  - now intros v -> -> ->.
Qed.

Lemma not_ok_always_throws_witness :
  handle (mkResponse false 404 (Some "text/html") "<h1>Not found</h1>")
  = Thrown (ApiError (VStr "API error: 404"))
  /\ handle (mkResponse false 500 (Some "application/json; charset=utf-8")
               "{ }")
     = Thrown (ApiError (VStr "API error: 500")).
Proof.
  split.
  - apply (proj1 (proj2 (not_ok_always_throws
             (mkResponse false 404 (Some "text/html") "<h1>Not found</h1>")
             eq_refl))).
    reflexivity.
  - apply (proj1 (proj2 (proj2 (proj2 (not_ok_always_throws
             (mkResponse false 500 (Some "application/json; charset=utf-8")
                "{ }") eq_refl)))) (VObj []) VUndef); reflexivity.
Defined.

(** X12: the loader behind the real client.  When the network fails or
    the server's answer is not ok, a loader that returns has set the
    advisory error.  When the answer is ok but carries no JSON content
    type (a page of HTML, say), the loader falls back to the store
    without any error: with nothing stored it returns with the
    collection as it was and the error [null]. *)
Theorem loader_behind_client (net : Request -> fetched) (ls : Storage)
    (st : State) :
  let request := mkRequest "/api/floor-plans" None
                   [("Content-Type", "application/json")] None in
  (forall (t : bool) (st' : State),
      (net request = NetworkError
       \/ exists r, net request = Answer r /\ ok r = false) ->
      loadFloorPlans (list_call net) ls st = Loaded t st' ->
      error st' = Some load_failed_msg)
  /\ (forall r : Response,
        net request = Answer r -> ok r = true -> isJson r = false ->
        read_saved ls = NothingSaved ->
        exists st',
          loadFloorPlans (list_call net) ls st = Loaded false st'
          /\ floorPlans st' = floorPlans st
          /\ error st' = None).
Proof.
  intros request. unfold list_call, getFloorPlans, fetchApi.
  change (mkRequest (url_of "floor-plans") None (merged_headers []) None)
    with request.
  split.
  - intros t st' Hnet Hl.
    assert (E : settle match net request with
                       | NetworkError => Thrown FetchFailed
                       | Answer r => handle r
                       end = Rejected).
    { destruct Hnet as [->|(r & -> & Hok)]; [reflexivity|].
      destruct (handle_not_ok r Hok) as [e ->]. reflexivity. }
    rewrite E in Hl. exact (HookFacts.loaded_error _ _ _ _ _ Hl).
  - intros r Hnet Hok Hj Hs. rewrite Hnet. unfold handle. rewrite Hj, Hok.
    cbn [settle].
    rewrite (HookFacts.load_fallback (Resolved (VStr (body r))) ls st
               (text_offers_no_plans (body r))).
    rewrite Hs. eexists. repeat split.
Qed.

Lemma loader_behind_client_witness :
  exists st',
    loadFloorPlans
      (list_call (fun _ => Answer (mkResponse true 200 (Some "text/html")
                                     "<!doctype html>")))
      None initial = Loaded false st'
    /\ floorPlans st' = floorPlans initial
    /\ error st' = None.
Proof.
  apply (proj2 (loader_behind_client
                  (fun _ => Answer (mkResponse true 200 (Some "text/html")
                                      "<!doctype html>")) None initial)
           (mkResponse true 200 (Some "text/html") "<!doctype html>"));
    reflexivity.
Defined.

End ApiFacts.

(** ** Numbers, strings and values through their text *)

Module JsonFacts.
Import Json JsonText JsonStringFacts.

Lemma digits_value_fold (ds : list ascii) :
  digits_value ds = fold_left digit_step ds 0%Z.
Proof. reflexivity. Qed.

(** Reading the digits of a decimal number from the left. *)
Lemma fold_uint (d a : Decimal.uint) :
  fold_left digit_step (chars (NilEmpty.string_of_uint d))
    (Z.of_N (DecimalPos.Unsigned.of_lu a))
  = Z.of_N (DecimalPos.Unsigned.of_lu (Decimal.revapp d a)).
Proof.
  revert a. unfold chars.
  induction d as [|d IH|d IH|d IH|d IH|d IH|d IH|d IH|d IH|d IH|d IH];
    intros a; cbn [NilEmpty.string_of_uint list_ascii_of_string fold_left
                   Decimal.revapp];
    [reflexivity|..];
    rewrite <- IH; f_equal; unfold digit_step;
    cbn [DecimalPos.Unsigned.of_lu]; vm_compute (Chars.digit_value _); lia.
Qed.

Lemma to_uint_nonnil (n : N) : N.to_uint n <> Decimal.Nil.
Proof.
  destruct n as [|p]; [discriminate|]. apply DecimalPos.Unsigned.to_uint_nonnil.
Qed.

Lemma digits_of_N_alt (n : N) :
  digits_of_N n = chars (NilEmpty.string_of_uint (N.to_uint n)).
Proof.
  unfold digits_of_N, NilZero.string_of_uint.
  pose proof (to_uint_nonnil n). now destruct (N.to_uint n).
Qed.

Lemma digits_of_N_value (n : N) : digits_value (digits_of_N n) = Z.of_N n.
Proof.
  rewrite digits_of_N_alt, digits_value_fold.
  change 0%Z with (Z.of_N (DecimalPos.Unsigned.of_lu Decimal.Nil)).
  rewrite fold_uint. fold (Decimal.rev (N.to_uint n)).
  rewrite <- DecimalPos.Unsigned.of_uint_alt.
  change (Pos.of_uint (N.to_uint n)) with (N.of_uint (N.to_uint n)).
  now rewrite DecimalN.Unsigned.of_to.
Qed.

Lemma uint_chars_digits (d : Decimal.uint) :
  forallb Chars.is_digit (chars (NilEmpty.string_of_uint d)) = true.
Proof. induction d; simpl; auto. Qed.

Lemma digits_of_N_digits (n : N) : forallb Chars.is_digit (digits_of_N n) = true.
Proof. rewrite digits_of_N_alt. apply uint_chars_digits. Qed.

Lemma digits_of_N_nonempty (n : N) : digits_of_N n <> [].
Proof.
  rewrite digits_of_N_alt. pose proof (to_uint_nonnil n).
  destruct (N.to_uint n); try contradiction; discriminate.
Qed.

(** No leading zero, the number zero apart. *)
Lemma digits_of_N_head (n : N) :
  match digits_of_N n with
  | c :: more => (Chars.code c =? 48)%N = true -> more = []
  | [] => False
  end.
Proof.
  rewrite digits_of_N_alt.
  pose proof (DecimalN.Unsigned.to_of (N.to_uint n)) as Hn.
  rewrite DecimalN.Unsigned.of_to in Hn.
  pose proof (to_uint_nonnil n) as Hnil.
  destruct (N.to_uint n) as [|d|d|d|d|d|d|d|d|d|d]; try contradiction;
    simpl; try discriminate.
  intros _. destruct d; [reflexivity|..];
  exfalso; rewrite DecimalFacts.unorm_D0 in Hn;
    match type of Hn with
    | Decimal.D0 ?u = _ =>
        assert (Hu : u <> Decimal.Nil) by discriminate;
        pose proof (DecimalFacts.nb_digits_unorm u Hu) as Hl;
        rewrite <- Hn in Hl; simpl in Hl; lia
    end.
Qed.

Lemma fold_digits_acc (ds : list ascii) (acc : Z) :
  fold_left digit_step ds acc
  = (acc * 10 ^ Z.of_nat (length ds) + digits_value ds)%Z.
Proof.
  rewrite digits_value_fold. revert acc.
  induction ds as [|c ds IH]; intros acc.
  - simpl. lia.
  - cbn [fold_left length]. rewrite IH, (IH (digit_step 0 c)).
    unfold digit_step. rewrite Nat2Z.inj_succ, Z.pow_succ_r by lia. lia.
Qed.

Lemma digits_value_app (a b : list ascii) :
  digits_value (a ++ b)
  = (digits_value a * 10 ^ Z.of_nat (length b) + digits_value b)%Z.
Proof.
  rewrite (digits_value_fold (a ++ b)), fold_left_app, fold_digits_acc.
  now rewrite <- digits_value_fold.
Qed.

Lemma digit_value_bound (c : ascii) :
  Chars.is_digit c = true -> (Chars.digit_value c <= 9)%N.
Proof.
  unfold Chars.is_digit, Chars.digit_value. intros H.
  apply andb_prop in H as [H1 H2].
  apply N.leb_le in H1, H2. lia.
Qed.

Lemma digits_value_range (ds : list ascii) :
  forallb Chars.is_digit ds = true ->
  (0 <= digits_value ds < 10 ^ Z.of_nat (length ds))%Z.
Proof.
  induction ds as [|c ds IH] using rev_ind; intros H.
  - change (0 <= 0 < 1)%Z. lia.
  - rewrite forallb_app in H. apply andb_prop in H as [Hds Hc].
    simpl in Hc. rewrite andb_true_r in Hc.
    pose proof (digit_value_bound c Hc).
    rewrite digits_value_app, length_app. cbn [length].
    change (digits_value [c]) with (digit_step 0 c). unfold digit_step.
    specialize (IH Hds).
    replace (Z.of_nat (length ds + 1)) with (Z.succ (Z.of_nat (length ds)))
      by lia.
    rewrite Z.pow_succ_r by lia. simpl (10 ^ Z.of_nat 1)%Z. lia.
Qed.

(** A number written without leading zero is at least the power of ten
    of its length. *)
Lemma digits_value_lower (c : ascii) (ds : list ascii) :
  forallb Chars.is_digit (c :: ds) = true ->
  (Chars.code c =? 48)%N = false ->
  (10 ^ Z.of_nat (length ds) <= digits_value (c :: ds))%Z.
Proof.
  intros H Hc. cbn [forallb] in H. apply andb_prop in H as [Hd Hds].
  change (c :: ds) with ([c] ++ ds). rewrite digits_value_app.
  pose proof (digits_value_range ds Hds).
  change (digits_value [c]) with (digit_step 0 c). unfold digit_step.
  assert (1 <= Chars.digit_value c)%N.
  { unfold Chars.is_digit, Chars.digit_value in *.
    apply andb_prop in Hd as [H1 H2]. apply N.leb_le in H1, H2.
    apply N.eqb_neq in Hc. lia. }
  nia.
Qed.

Lemma digits_of_N_length (n : N) (k : nat) :
  (Z.of_N n < 10 ^ Z.of_nat k)%Z -> (1 <= k)%nat ->
  (length (digits_of_N n) <= k)%nat.
Proof.
  intros Hn Hk.
  pose proof (digits_of_N_head n) as Hh.
  pose proof (digits_of_N_digits n) as Hd.
  pose proof (digits_of_N_value n) as Hv.
  destruct (digits_of_N n) as [|c more]; [contradiction|].
  destruct (Chars.code c =? 48)%N eqn:E.
  - rewrite (Hh eq_refl). simpl. lia.
  - pose proof (digits_value_lower c more Hd E) as Hl.
    rewrite Hv in Hl. cbn [length].
    destruct (Nat.le_gt_cases (S (length more)) k) as [|Hgt]; [assumption|].
    exfalso.
    assert (10 ^ Z.of_nat k <= 10 ^ Z.of_nat (length more))%Z
      by (apply Z.pow_le_mono_r; lia).
    lia.
Qed.

Lemma repeat_zero_value (w : nat) (ds : list ascii) :
  digits_value (repeat "0"%char w ++ ds) = digits_value ds.
Proof.
  rewrite digits_value_app.
  assert (E : digits_value (repeat "0"%char w) = 0%Z).
  { induction w as [|w IH]; [reflexivity|].
    change (repeat "0"%char (S w)) with (["0"%char] ++ repeat "0"%char w).
    rewrite digits_value_app, IH. reflexivity. }
  rewrite E. lia.
Qed.

Lemma pad_left_facts (w : nat) (ds : list ascii) :
  forallb Chars.is_digit ds = true -> (length ds <= w)%nat ->
  digits_value (pad_left w ds) = digits_value ds
  /\ length (pad_left w ds) = w
  /\ forallb Chars.is_digit (pad_left w ds) = true.
Proof.
  intros Hd Hl. unfold pad_left. split; [apply repeat_zero_value|]. split.
  - rewrite length_app, repeat_length. lia.
  - rewrite forallb_app, Hd, andb_true_r.
    induction (w - length ds)%nat; simpl; auto.
Qed.

Lemma normalize_fixed (m : Z) (sc : nat) :
  normalize (mantissa (normalize m sc)) (scale (normalize m sc))
  = normalize m sc.
Proof.
  revert m. induction sc as [|sc IH]; intros m; [reflexivity|].
  cbn [normalize]. destruct (m mod 10 =? 0)%Z eqn:E; [apply IH|].
  cbn [mantissa scale normalize]. now rewrite E.
Qed.

Lemma take_digits_app (ds rest : list ascii) :
  forallb Chars.is_digit ds = true ->
  match rest with c :: _ => Chars.is_digit c = false | [] => True end ->
  take_digits (ds ++ rest) = (ds, rest).
Proof.
  intros Hd Hr. induction ds as [|c ds IH].
  - destruct rest as [|c rest]; [reflexivity|]. simpl. now rewrite Hr.
  - cbn [forallb] in Hd. apply andb_prop in Hd as [Hc Hds].
    cbn [app take_digits]. now rewrite Hc, (IH Hds).
Qed.

Lemma digit_not_minus (c : ascii) :
  Chars.is_digit c = true -> (Chars.code c =? 45)%N = false.
Proof.
  unfold Chars.is_digit. intros H. apply andb_prop in H as [H1 H2].
  apply N.leb_le in H1, H2. apply N.eqb_neq. lia.
Qed.

Lemma ends_number_head (rest : list ascii) :
  ends_number rest = true ->
  match rest with c :: _ => Chars.is_digit c = false | [] => True end.
Proof.
  destruct rest as [|c rest]; [trivial|]. cbn [ends_number]. intros H.
  apply andb_prop in H as [H _]. apply andb_prop in H as [H _].
  now apply negb_true_iff in H.
Qed.

(** The number a text of digits and a fraction denotes. *)
Lemma read_digits (neg : bool) (int frac rest : list ascii) :
  forallb Chars.is_digit int = true ->
  forallb Chars.is_digit frac = true ->
  match int with
  | d :: more => (Chars.code d =? 48)%N && negb (Nat.eqb (length more) 0) = false
  | [] => False
  end ->
  ends_number rest = true ->
  read_number ((if neg then ["-"%char] else []) ++ int ++
               match frac with [] => [] | _ => "."%char :: frac end ++ rest)
  = Some (normalize (if neg then - digits_value (int ++ frac)
                     else digits_value (int ++ frac))%Z (length frac), rest).
Proof.
  intros Hi Hf Hz Hr.
  destruct int as [|d more]; [contradiction|].
  assert (Hd : (Chars.code d =? 45)%N = false).
  { apply digit_not_minus. cbn [forallb] in Hi.
    now apply andb_prop in Hi as [-> _]. }
  pose proof (ends_number_head rest Hr) as Hh.
  assert (Hsign :
    match (if neg then ["-"%char] else []) ++ (d :: more) ++
          match frac with [] => [] | _ => "."%char :: frac end ++ rest with
    | c :: s' => if (Chars.code c =? 45)%N then (true, s')
                 else (false, c :: s')
    | [] => (false, [])
    end
    = (neg, (d :: more) ++
            match frac with [] => [] | _ => "."%char :: frac end ++ rest)).
  { destruct neg; cbn [app]; [reflexivity|]. now rewrite Hd. }
  unfold read_number.
  match goal with
  | |- (let (_, _) := ?m in _) = _ =>
      replace m with
        (neg, (d :: more) ++
              match frac with [] => [] | _ => "."%char :: frac end ++ rest)
  end.
  2:{ symmetry. etransitivity; [|exact Hsign].
      destruct neg; cbn [app]; [reflexivity|]. reflexivity. }
  rewrite (take_digits_app (d :: more)); [|assumption|].
  2:{ destruct frac as [|f frac]; [exact Hh|].
      cbn [app]. reflexivity. }
  rewrite Hz.
  destruct frac as [|f frac].
  - cbn [app].
    assert (Hdot : match rest with
                   | c :: _ => (Chars.code c =? 46)%N = false
                              /\ ((Chars.code c =? 101) || (Chars.code c =? 69))%N
                                 = false
                   | [] => True
                   end).
    { destruct rest as [|c rest]; [trivial|]. cbn [ends_number] in Hr.
      apply andb_prop in Hr as [Hr He]. apply andb_prop in Hr as [_ Hr].
      apply negb_true_iff in Hr, He. now split. }
    destruct rest as [|c rest].
    + cbn [length Z.of_nat Z.sub Z.ltb Z.compare Z.opp Z.to_nat].
      reflexivity.
    + destruct Hdot as [-> ->].
      cbn [length Z.of_nat Z.sub Z.ltb Z.compare Z.opp Z.to_nat].
      reflexivity.
  - cbn [app].
    change (Chars.code "."%char =? 46)%N with true. cbv iota.
    change (f :: frac ++ rest) with ((f :: frac) ++ rest).
    rewrite (take_digits_app (f :: frac)) by assumption.
    assert (He : match rest with
                 | c :: _ => ((Chars.code c =? 101) || (Chars.code c =? 69))%N
                             = false
                 | [] => True
                 end).
    { destruct rest as [|c rest]; [trivial|]. cbn [ends_number] in Hr.
      apply andb_prop in Hr as [_ He]. now apply negb_true_iff in He. }
    assert (Hsc : forall k : nat,
      ((Z.of_nat k - 0 <? 0)%Z = false) /\ Z.to_nat (Z.of_nat k - 0) = k).
    { intros k. split; [apply Z.ltb_ge; lia | lia]. }
    destruct (Hsc (length (f :: frac))) as [E1 E2].
    destruct rest as [|c rest].
    + rewrite E1, E2. reflexivity.
    + rewrite He, E1, E2. reflexivity.
Qed.

Lemma digits_of_N_plain (n : N) :
  match digits_of_N n with
  | d :: more => (Chars.code d =? 48)%N && negb (Nat.eqb (length more) 0) = false
  | [] => False
  end.
Proof.
  pose proof (digits_of_N_head n) as H.
  destruct (digits_of_N n) as [|d more]; [assumption|].
  destruct (Chars.code d =? 48)%N; [|reflexivity].
  now rewrite (H eq_refl).
Qed.

(** Reading back what [print_number] wrote. *)
Lemma read_print_number (n : number) (rest : list ascii) :
  ends_number rest = true ->
  read_number (print_number n ++ rest)
  = Some (normalize (mantissa n) (scale n), rest).
Proof.
  intros Hr. unfold print_number.
  generalize (normalize_fixed (mantissa n) (scale n)).
  generalize (normalize (mantissa n) (scale n)). intros k Hk.
  cbv zeta.
  transitivity (Some (normalize (mantissa k) (scale k), rest));
    [|now rewrite Hk].
  set (m := Z.abs_N (mantissa k)).
  set (unit := (10 ^ N.of_nat (scale k))%N).
  set (int := digits_of_N (m / unit)).
  set (frac := match scale k with
               | O => []
               | S _ => pad_left (scale k) (digits_of_N (m mod unit))
               end).
  assert (Hunit : Z.of_N unit = (10 ^ Z.of_nat (scale k))%Z).
  { unfold unit. rewrite N2Z.inj_pow, nat_N_Z. reflexivity. }
  assert (Hpos : (0 < unit)%N).
  { apply N.neq_0_lt_0. unfold unit. apply N.pow_nonzero. discriminate. }
  assert (Hfrac : forallb Chars.is_digit frac = true
                  /\ length frac = scale k
                  /\ digits_value frac = Z.of_N (m mod unit)).
  { unfold frac. destruct (scale k) as [|j] eqn:Ej.
    - split; [reflexivity|]. split; [reflexivity|].
      unfold unit. change (10 ^ N.of_nat 0)%N with 1%N.
      now rewrite N.mod_1_r.
    - assert (Hlen : (length (digits_of_N (m mod unit)) <= S j)%nat).
      { apply digits_of_N_length; [|lia].
        rewrite <- Hunit. apply N2Z.inj_lt, N.mod_lt. lia. }
      destruct (pad_left_facts (S j) _ (digits_of_N_digits (m mod unit)) Hlen)
        as (Hv & Hl & Hd).
      split; [assumption|]. split; [assumption|].
      now rewrite Hv, digits_of_N_value. }
  destruct Hfrac as (Hfd & Hfl & Hfv).
  assert (Hshape :
    match scale k with
    | O => []
    | S _ => "."%char :: pad_left (scale k) (digits_of_N (m mod unit))
    end = match frac with [] => [] | _ => "."%char :: frac end).
  { unfold frac in *. destruct (scale k) as [|j]; [reflexivity|].
    destruct (pad_left (S j) (digits_of_N (m mod unit))); [discriminate|].
    reflexivity. }
  rewrite Hshape, <- !app_assoc.
  rewrite (read_digits (mantissa k <? 0)%Z int frac rest);
    [|apply digits_of_N_digits|assumption|apply digits_of_N_plain|assumption].
  f_equal. f_equal. rewrite Hfl. f_equal.
  rewrite digits_value_app, Hfl, Hfv. unfold int.
  rewrite digits_of_N_value, <- Hunit, <- N2Z.inj_mul, <- N2Z.inj_add.
  rewrite N.mul_comm, <- N.div_mod by lia.
  unfold m. rewrite N2Z.inj_abs_N.
  destruct (mantissa k <? 0)%Z eqn:E.
  - apply Z.ltb_lt in E. lia.
  - apply Z.ltb_ge in E. lia.
Qed.

Lemma print_arr (items : list value) :
  print (VArr items) = "["%char :: print_elems true items ++ ["]"%char].
Proof. reflexivity. Qed.

Lemma print_obj (members : list (string * value)) :
  print (VObj members) = "{"%char :: print_fields true members ++ ["}"%char].
Proof. reflexivity. Qed.

Lemma scrub_obj (members : list (string * value)) :
  scrub (VObj members) = VObj (scrub_members members []).
Proof. reflexivity. Qed.

Section ValueInduction.
Variable P : value -> Prop.
Hypothesis Hundef : P VUndef.
Hypothesis Hnull : P VNull.
Hypothesis Hbool : forall b, P (VBool b).
Hypothesis Hnum : forall n, P (VNum n).
Hypothesis Hstr : forall s, P (VStr s).
Hypothesis Harr : forall items, Forall P items -> P (VArr items).
Hypothesis Hobj :
  forall members, Forall (fun kv => P (snd kv)) members -> P (VObj members).

Lemma value_nested_ind (v : value) : P v.
Proof.
  revert v. fix IH 1. intros [ | | b | n | s | items | members].
  - exact Hundef.
  - exact Hnull.
  - apply Hbool.
  - apply Hnum.
  - apply Hstr.
  - apply Harr.
    exact ((fix go (l : list value) : Forall P l :=
              match l with
              | [] => @List.Forall_nil _ P
              | x :: l' => @List.Forall_cons _ P x l' (IH x) (go l')
              end) items).
  - apply Hobj.
    exact ((fix go (l : list (string * value))
               : Forall (fun kv => P (snd kv)) l :=
              match l with
              | [] => @List.Forall_nil _ _
              | kv :: l' =>
                  @List.Forall_cons _ (fun kv => P (snd kv)) kv l'
                    (IH (snd kv)) (go l')
              end) members).
Qed.
End ValueInduction.

Lemma number_head (n : number) :
  exists c s, print_number n = c :: s
              /\ (Chars.is_digit c = true \/ Chars.code c = 45%N).
Proof.
  unfold print_number. cbv zeta.
  destruct (mantissa (normalize (mantissa n) (scale n)) <? 0)%Z.
  - eexists _, _. split; [reflexivity|]. now right.
  - cbn [app].
    pose proof (digits_of_N_digits
      (Z.abs_N (mantissa (normalize (mantissa n) (scale n)))
       / 10 ^ N.of_nat (scale (normalize (mantissa n) (scale n))))) as Hd.
    pose proof (digits_of_N_nonempty
      (Z.abs_N (mantissa (normalize (mantissa n) (scale n)))
       / 10 ^ N.of_nat (scale (normalize (mantissa n) (scale n))))) as Hn.
    destruct (digits_of_N _) as [|c s]; [contradiction|].
    eexists _, _. split; [reflexivity|]. left.
    cbn [forallb] in Hd. now apply andb_prop in Hd as [-> _].
Qed.

Lemma number_char (c : ascii) :
  Chars.is_digit c = true \/ Chars.code c = 45%N ->
  (Chars.code c =? 34)%N = false /\ (Chars.code c =? 91)%N = false
  /\ (Chars.code c =? 123)%N = false /\ (Chars.code c =? 116)%N = false
  /\ (Chars.code c =? 102)%N = false /\ (Chars.code c =? 110)%N = false
  /\ opens c = true.
Proof.
  unfold Chars.is_digit, opens, is_ws. intros H.
  assert (Hc : (Chars.code c = 45 \/ 48 <= Chars.code c <= 57)%N).
  { destruct H as [H|H]; [right|now left].
    apply andb_prop in H as [H1 H2]. apply N.leb_le in H1, H2. lia. }
  assert (Hne : forall k : N, (k <> 45 -> k < 48 \/ 57 < k ->
                               (Chars.code c =? k) = false)%N).
  { intros k H1 H2. apply N.eqb_neq. lia. }
  rewrite !Hne by lia. repeat split.
Qed.

Lemma print_head (v : value) :
  exists c s, print v = c :: s /\ opens c = true.
Proof.
  destruct v as [ | | [] | n | s | items | members];
    try (eexists _, _; split; reflexivity).
  destruct (number_head n) as (c & s & E & H).
    exists c, s. split; [exact E|]. now apply number_char.
Qed.

Lemma skip_ws_opens (c : ascii) (s : list ascii) :
  opens c = true -> skip_ws (c :: s) = c :: s.
Proof.
  unfold opens. intros H. apply andb_prop in H as [H _].
  apply andb_prop in H as [H _]. apply negb_true_iff in H.
  cbn [skip_ws]. now rewrite H.
Qed.

Lemma skip_ws_print (v : value) (rest : list ascii) :
  skip_ws (print v ++ rest) = print v ++ rest.
Proof.
  destruct (print_head v) as (c & s & -> & H). now apply skip_ws_opens.
Qed.

Lemma print_length (v : value) : (1 <= length (print v))%nat.
Proof.
  destruct (print_head v) as (c & s & -> & _). cbn [length]. lia.
Qed.

Lemma closes_ends (rest : list ascii) :
  closes rest = true -> ends_number rest = true.
Proof.
  destruct rest as [|c rest]; [reflexivity|]. cbn [closes ends_number].
  unfold Chars.is_digit. intros H.
  assert (Hc : (Chars.code c = 44 \/ Chars.code c = 93
                \/ Chars.code c = 125)%N).
  { apply orb_prop in H as [H|H]; [apply orb_prop in H as [H|H]|];
      apply N.eqb_eq in H; auto. }
  assert (E1 : (48 <=? Chars.code c)%N && (Chars.code c <=? 57)%N = false).
  { apply andb_false_iff.
    destruct Hc as [Hc|[Hc|Hc]]; rewrite Hc; [left|right|right]; reflexivity. }
  rewrite E1.
  destruct Hc as [Hc|[Hc|Hc]]; rewrite Hc; reflexivity.
Qed.

Lemma closes_skip (rest : list ascii) :
  closes rest = true -> skip_ws rest = rest.
Proof.
  destruct rest as [|c rest]; [reflexivity|]. cbn [closes skip_ws].
  unfold is_ws. intros H.
  assert (Hc : (Chars.code c = 44 \/ Chars.code c = 93
                \/ Chars.code c = 125)%N).
  { apply orb_prop in H as [H|H]; [apply orb_prop in H as [H|H]|];
      apply N.eqb_eq in H; auto. }
  destruct Hc as [Hc|[Hc|Hc]]; rewrite Hc; reflexivity.
Qed.

Lemma read_items_back (l : list value) :
  Forall reads_back l ->
  forall (x : value) (acc : list value) (fuel : nat) (rest : list ascii),
    reads_back x ->
    (2 * (length (print x) + length (print_elems false l)) <= fuel)%nat ->
    closes rest = true ->
    read_items fuel (print x ++ print_elems false l ++ "]"%char :: rest) acc
    = Some (VArr (rev acc ++ map scrub (x :: l)), rest).
Proof.
  induction 1 as [|y l Hy Hl IH]; intros x acc fuel rest Hx Hf Hr.
  - pose proof (print_length x).
    destruct fuel as [|fuel]; [cbn [print_elems length] in Hf; lia|].
    cbn [read_items print_elems app].
    rewrite (Hx fuel ("]"%char :: rest));
      [|cbn [print_elems length] in Hf; lia|reflexivity].
    cbn [skip_ws]. change (is_ws "]"%char) with false. cbv iota.
    change (Chars.code "]"%char =? 44)%N with false.
    change (Chars.code "]"%char =? 93)%N with true. cbv iota.
    reflexivity.
  - pose proof (print_length x). pose proof (print_length y).
    cbn [print_elems] in Hf. rewrite !length_app in Hf. cbn [length] in Hf.
    destruct fuel as [|fuel]; [lia|].
    assert (E : print_elems false (y :: l) ++ "]"%char :: rest
                = ","%char :: print y ++ print_elems false l
                  ++ "]"%char :: rest)
      by (cbn [print_elems app]; now rewrite <- app_assoc).
    rewrite E. cbn [read_items].
    rewrite (Hx fuel (","%char :: print y ++ print_elems false l
                      ++ "]"%char :: rest));
      [|lia|reflexivity].
    cbn [skip_ws]. change (is_ws ","%char) with false. cbv iota.
    change (Chars.code ","%char =? 44)%N with true. cbv iota.
    rewrite skip_ws_print.
    rewrite (IH y (scrub x :: acc) fuel rest Hy); [|lia|assumption].
    cbn [rev map]. now rewrite <- app_assoc.
Qed.

Lemma print_fields_cons (b : bool) (k : string) (x : value)
    (l : list (string * value)) :
  defined x = true ->
  print_fields b ((k, x) :: l)
  = (if b then [] else [","%char]) ++
    quote k ++ ":"%char :: print x ++ print_fields false l.
Proof. destruct x; (discriminate || reflexivity). Qed.

Lemma scrub_members_cons (k : string) (x : value)
    (l : list (string * value)) (acc : object) :
  defined x = true ->
  scrub_members ((k, x) :: l) acc
  = scrub_members l (set_member k (scrub x) acc).
Proof. destruct x; (discriminate || reflexivity). Qed.

Lemma print_fields_live (b : bool) (l : list (string * value)) :
  print_fields b l = print_fields b (live l).
Proof.
  revert b. induction l as [|[k x] l IH]; intros b; [reflexivity|].
  unfold live. cbn [List.filter snd]. fold (live l).
  destruct (defined x) eqn:E.
  - rewrite !print_fields_cons by assumption. now rewrite IH.
  - destruct x; try discriminate. apply IH.
Qed.

Lemma scrub_members_live (l : list (string * value)) (acc : object) :
  scrub_members l acc = scrub_members (live l) acc.
Proof.
  revert acc. induction l as [|[k x] l IH]; intros acc; [reflexivity|].
  unfold live. cbn [List.filter snd]. fold (live l).
  destruct (defined x) eqn:E.
  - rewrite !scrub_members_cons by assumption. apply IH.
  - destruct x; try discriminate. apply IH.
Qed.

Lemma live_defined (P : value -> Prop) (l : list (string * value)) :
  Forall (fun kv => P (snd kv)) l ->
  Forall (fun kv => defined (snd kv) = true /\ P (snd kv)) (live l).
Proof.
  induction 1 as [|[k x] l Hx Hl IH]; [constructor|].
  unfold live. cbn [List.filter snd]. fold (live l).
  destruct (defined x) eqn:E; [|exact IH].
  constructor; [now split|exact IH].
Qed.

Lemma skip_ws_quote (k : string) (rest : list ascii) :
  skip_ws (quote k ++ rest) = quote k ++ rest.
Proof. reflexivity. Qed.

Lemma read_members_back (l : list (string * value)) :
  Forall (fun kv => defined (snd kv) = true /\ reads_back (snd kv)) l ->
  forall (k : string) (x : value) (acc : object) (fuel : nat)
         (rest : list ascii),
    reads_back x ->
    (2 * (length (print x) + length (print_fields false l)) <= fuel)%nat ->
    closes rest = true ->
    read_members fuel
      (quote k ++ ":"%char :: print x ++ print_fields false l
       ++ "}"%char :: rest) acc
    = Some (VObj (scrub_members l (set_member k (scrub x) acc)), rest).
Proof.
  induction 1 as [|[k' y] l [Dy Hy] Hl IH]; intros k x acc fuel rest Hx Hf Hr.
  - pose proof (print_length x).
    destruct fuel as [|fuel]; [cbn [print_fields length] in Hf; lia|].
    destruct (read_quote k (":"%char :: print x ++ print_fields false []
                            ++ "}"%char :: rest)) as (body & -> & Hb).
    cbn [read_members].
    change (Chars.code Chars.dquote =? 34)%N with true. cbv iota.
    rewrite Hb. cbn [skip_ws].
    change (is_ws ":"%char) with false. cbv iota.
    change (Chars.code ":"%char =? 58)%N with true. cbv iota.
    rewrite skip_ws_print. cbn [print_fields app].
    rewrite (Hx fuel ("}"%char :: rest));
      [|cbn [print_fields length] in Hf; lia|reflexivity].
    cbn [skip_ws]. change (is_ws "}"%char) with false. cbv iota.
    change (Chars.code "}"%char =? 44)%N with false.
    change (Chars.code "}"%char =? 125)%N with true. cbv iota.
    reflexivity.
  - pose proof (print_length x). pose proof (print_length y).
    cbn [snd] in Dy, Hy.
    rewrite print_fields_cons in Hf by assumption.
    rewrite !length_app in Hf. cbn [length] in Hf.
    rewrite length_app in Hf.
    destruct fuel as [|fuel]; [lia|].
    assert (E : print_fields false ((k', y) :: l) ++ "}"%char :: rest
                = ","%char :: quote k' ++ ":"%char :: print y
                  ++ print_fields false l ++ "}"%char :: rest).
    { rewrite print_fields_cons by assumption. cbn [app].
      rewrite <- app_assoc. cbn [app]. now rewrite <- app_assoc. }
    rewrite E.
    destruct (read_quote k (":"%char :: print x ++ ","%char :: quote k'
                            ++ ":"%char :: print y ++ print_fields false l
                            ++ "}"%char :: rest)) as (body & -> & Hb).
    cbn [read_members].
    change (Chars.code Chars.dquote =? 34)%N with true. cbv iota.
    rewrite Hb. cbn [skip_ws].
    change (is_ws ":"%char) with false. cbv iota.
    change (Chars.code ":"%char =? 58)%N with true. cbv iota.
    rewrite skip_ws_print.
    rewrite (Hx fuel (","%char :: quote k' ++ ":"%char :: print y
                      ++ print_fields false l ++ "}"%char :: rest));
      [|lia|reflexivity].
    cbn [skip_ws]. change (is_ws ","%char) with false. cbv iota.
    change (Chars.code ","%char =? 44)%N with true. cbv iota.
    rewrite skip_ws_quote.
    rewrite (IH k' y (set_member k (scrub x) acc) fuel rest Hy);
      [|lia|assumption].
    now rewrite scrub_members_cons by assumption.
Qed.

Lemma read_value_number (fuel : nat) (c : ascii) (s : list ascii) :
  Chars.is_digit c = true \/ Chars.code c = 45%N ->
  read_value (S fuel) (c :: s)
  = match read_number (c :: s) with
    | Some (num, r) => Some (VNum num, r)
    | None => None
    end.
Proof.
  intros H. destruct (number_char c H) as (E1 & E2 & E3 & E4 & E5 & E6 & _).
  cbn [read_value]. cbv zeta. now rewrite E1, E2, E3, E4, E5, E6.
Qed.

Lemma print_reads_back (v : value) : reads_back v.
Proof.
  induction v as [ | | b | n | s | items IH | members IH]
    using value_nested_ind; intros fuel rest Hf Hr.
  - destruct fuel as [|fuel]; [cbn in Hf; lia|]. reflexivity.
  - destruct fuel as [|fuel]; [cbn in Hf; lia|]. reflexivity.
  - destruct fuel as [|fuel]; [destruct b; cbn in Hf; lia|].
    destruct b; reflexivity.
  - pose proof (print_length (VNum n)).
    destruct fuel as [|fuel]; [lia|].
    cbn [print scrub].
    destruct (number_head n) as (c & s & E & Hc).
    pose proof (read_print_number n rest (closes_ends rest Hr)) as Hn.
    rewrite E in *. cbn [app] in *.
    now rewrite (read_value_number fuel c (s ++ rest) Hc), Hn.
  - pose proof (print_length (VStr s)).
    destruct fuel as [|fuel]; [lia|].
    cbn [print scrub].
    destruct (read_quote s rest) as (body & -> & Hb).
    cbn [read_value]. cbv zeta.
    change (Chars.code Chars.dquote =? 34)%N with true. cbv iota.
    now rewrite Hb.
  - rewrite print_arr in *. cbn [length] in Hf. rewrite length_app in Hf.
    cbn [length] in Hf.
    destruct fuel as [|fuel]; [lia|].
    cbn [app read_value]. cbv zeta.
    change (Chars.code "["%char =? 34)%N with false.
    change (Chars.code "["%char =? 91)%N with true. cbv iota.
    rewrite <- app_assoc. cbn [app].
    destruct IH as [|x l Hx Hl].
    + reflexivity.
    + cbn [print_elems app]. rewrite <- !app_assoc.
      destruct (print_head x) as (c & s & E & Hc).
      pose proof (read_items_back l Hl x [] fuel rest Hx) as Hi.
      cbn [print_elems app] in Hf. rewrite length_app in Hf.
      rewrite E in *. cbn [app].
      rewrite (skip_ws_opens c _ Hc).
      assert (E93 : (Chars.code c =? 93)%N = false).
      { unfold opens in Hc. apply andb_prop in Hc as [Hc _].
        apply andb_prop in Hc as [_ Hc]. now apply negb_true_iff in Hc. }
      rewrite E93. cbn [app] in Hi. rewrite Hi; [reflexivity|lia|assumption].
  - rewrite print_obj in *. cbn [length] in Hf. rewrite length_app in Hf.
    cbn [length] in Hf.
    destruct fuel as [|fuel]; [lia|].
    cbn [app read_value]. cbv zeta.
    change (Chars.code "{"%char =? 34)%N with false.
    change (Chars.code "{"%char =? 91)%N with false.
    change (Chars.code "{"%char =? 123)%N with true. cbv iota.
    rewrite <- app_assoc. cbn [app].
    change (scrub (VObj members)) with (VObj (scrub_members members [])).
    rewrite scrub_members_live.
    rewrite print_fields_live in Hf |- *.
    apply live_defined in IH.
    destruct IH as [|[k x] l [Dx Hx] Hl].
    + reflexivity.
    + cbn [snd] in Dx, Hx.
      rewrite print_fields_cons in Hf |- * by assumption.
      cbn [app] in Hf |- *. rewrite length_app in Hf. cbn [length] in Hf.
      rewrite length_app in Hf.
      rewrite scrub_members_cons by assumption.
      pose proof (read_members_back l Hl k x [] fuel rest Hx) as Hm.
      rewrite <- app_assoc. cbn [app]. rewrite <- app_assoc.
      destruct (read_quote k (":"%char :: print x ++ print_fields false l
                              ++ "}"%char :: rest)) as (body & Eq & Hb).
      rewrite Eq in Hm |- *. cbn [skip_ws].
      change (is_ws Chars.dquote) with false. cbv iota.
      change (Chars.code Chars.dquote =? 125)%N with false. cbv iota.
      rewrite Hm; [reflexivity|lia|assumption].
Qed.

Lemma chars_stringify (v : value) : chars (stringify v) = print v.
Proof. apply list_ascii_of_string_of_list_ascii. Qed.

Lemma parse_print (v : value) : parse (stringify v) = Some (scrub v).
Proof.
  unfold parse. rewrite chars_stringify.
  rewrite <- (app_nil_r (print v)) at 1 2. rewrite skip_ws_print.
  rewrite app_nil_r.
  pose proof (print_reads_back v (2 * length (print v) + 2) [] ltac:(lia)
                eq_refl) as H.
  rewrite app_nil_r in H. rewrite H. reflexivity.
Qed.

Lemma tidy_defined (v : value) : tidy v = true -> defined v = true.
Proof. destruct v; (discriminate || reflexivity). Qed.

Lemma set_member_fresh (k : string) (v : value) (acc : object) :
  existsb (String.eqb k) (map fst acc) = false ->
  set_member k v acc = acc ++ [(k, v)].
Proof.
  induction acc as [|[k' v'] acc IH]; intros H; [reflexivity|].
  cbn [map fst existsb] in H. apply orb_false_iff in H as [H1 H2].
  cbn [set_member app]. rewrite String.eqb_sym, H1. now rewrite IH.
Qed.

Lemma existsb_app_false (k : string) (a b : list string) :
  existsb (String.eqb k) (a ++ b) = false ->
  existsb (String.eqb k) a = false /\ existsb (String.eqb k) b = false.
Proof. rewrite existsb_app. apply orb_false_iff. Qed.

Lemma distinct_middle (a : list string) (k : string) (b : list string) :
  distinct (a ++ k :: b) = true ->
  existsb (String.eqb k) a = false /\ distinct ((a ++ [k]) ++ b) = true.
Proof.
  induction a as [|h a IH]; cbn [app distinct existsb]; intros H.
  - split; [reflexivity|exact H].
  - apply andb_prop in H as [H1 H2]. apply negb_true_iff in H1.
    rewrite existsb_app in H1. apply orb_false_iff in H1 as [H1a H1b].
    cbn [existsb] in H1b. apply orb_false_iff in H1b as [H1k H1b].
    destruct (IH H2) as [IH1 IH2]. split.
    + rewrite String.eqb_sym, H1k. exact IH1.
    + rewrite IH2, andb_true_r. apply negb_true_iff.
      rewrite !existsb_app. cbn [existsb].
      now rewrite H1a, H1k, H1b.
Qed.

Lemma scrub_members_tidy (l : list (string * value)) :
  Forall (fun kv => tidy (snd kv) = true -> scrub (snd kv) = snd kv) l ->
  forall acc : object,
    forallb (fun kv => tidy (snd kv)) l = true ->
    distinct (map fst acc ++ map fst l) = true ->
    scrub_members l acc = acc ++ l.
Proof.
  induction 1 as [|[k x] l Hx Hl IH]; intros acc Ht Hd.
  - cbn [scrub_members]. now rewrite app_nil_r.
  - cbn [forallb snd] in Ht. apply andb_prop in Ht as [Tx Tl].
    cbn [snd] in Hx. cbn [map fst] in Hd.
    destruct (distinct_middle _ _ _ Hd) as [Hk Hd'].
    rewrite scrub_members_cons by now apply tidy_defined.
    rewrite (Hx Tx), set_member_fresh by assumption.
    rewrite IH; [now rewrite <- app_assoc|assumption|].
    now rewrite map_app.
Qed.

(** A tidy value is the one its text denotes. *)
Lemma tidy_scrub (v : value) : tidy v = true -> scrub v = v.
Proof.
  induction v as [ | | b | n | s | items IH | members IH]
    using value_nested_ind; intros H; try reflexivity; try discriminate.
  - destruct n as [m sc]. cbn [tidy scale mantissa] in H. cbn [scrub mantissa scale].
    destruct sc as [|sc]; [reflexivity|].
    cbn [normalize]. apply negb_true_iff in H. now rewrite H.
  - cbn [scrub]. f_equal. cbn [tidy] in H.
    induction IH as [|x l Hx Hl IHl]; [reflexivity|].
    cbn [forallb] in H. apply andb_prop in H as [H1 H2].
    cbn [map]. now rewrite (Hx H1), (IHl H2).
  - change (scrub (VObj members)) with (VObj (scrub_members members [])).
    cbn [tidy] in H. apply andb_prop in H as [H1 H2].
    now rewrite (scrub_members_tidy members IH []).
Qed.

Lemma distinct_drop (a : list string) (k : string) (b : list string) :
  distinct (a ++ k :: b) = true -> distinct (a ++ b) = true.
Proof.
  induction a as [|h a IH]; cbn [app distinct]; intros H.
  - now apply andb_prop in H as [_ H].
  - apply andb_prop in H as [H1 H2]. rewrite (IH H2), andb_true_r.
    apply negb_true_iff in H1. apply negb_true_iff.
    rewrite existsb_app in H1 |- *. cbn [existsb] in H1.
    apply orb_false_iff in H1 as [Ha Hb].
    apply orb_false_iff in Hb as [_ Hb]. now rewrite Ha, Hb.
Qed.

(** With no key twice, the members after the trip are the members that
    are printed, in their order, each value after the trip. *)
Lemma scrub_members_distinct (l : list (string * value)) :
  forall acc : object,
    distinct (map fst acc ++ map fst l) = true ->
    scrub_members l acc = acc ++ map scrub_member (live l).
Proof.
  induction l as [|[k x] l IH]; intros acc Hd.
  - cbn [scrub_members live List.filter map]. now rewrite app_nil_r.
  - cbn [map fst] in Hd. unfold live. cbn [List.filter snd]. fold (live l).
    destruct (defined x) eqn:E.
    + destruct (distinct_middle _ _ _ Hd) as [Hk Hd'].
      rewrite scrub_members_cons by assumption.
      rewrite set_member_fresh by assumption.
      rewrite IH by now rewrite map_app.
      cbn [map]. now rewrite <- app_assoc.
    + destruct x; try discriminate. cbn [scrub_members].
      apply IH. exact (distinct_drop _ _ _ Hd).
Qed.

Lemma lookup_absent (k : string) (l : list (string * value)) :
  existsb (String.eqb k) (map fst l) = false ->
  lookup_member k (map scrub_member (live l)) = None.
Proof.
  induction l as [|[k' x] l IH]; [reflexivity|].
  cbn [map fst existsb]. intros H. apply orb_false_iff in H as [H1 H2].
  unfold live. cbn [List.filter snd]. fold (live l).
  destruct (defined x); [|now apply IH].
  cbn [map lookup_member scrub_member fst]. rewrite String.eqb_sym, H1.
  now apply IH.
Qed.

(** Every property of an object with no key twice reads after the trip
    as before it, the value after the trip; what was [undefined] or
    missing is missing. *)
Lemma prop_after_trip (o : object) (k : string) :
  distinct (map fst o) = true ->
  prop (scrub_members o []) k
  = if defined (prop o k) then scrub (prop o k) else VUndef.
Proof.
  intros Hd. rewrite (scrub_members_distinct o []) by exact Hd.
  cbn [app]. unfold prop.
  induction o as [|[k' x] o IH]; [reflexivity|].
  cbn [map fst distinct] in Hd. apply andb_prop in Hd as [Hk Hd].
  apply negb_true_iff in Hk.
  unfold live. cbn [List.filter snd lookup_member]. fold (live o).
  destruct (String.eqb k' k) eqn:Ek.
  - apply String.eqb_eq in Ek. subst k'.
    change (default VUndef (Some x)) with x.
    destruct (defined x) eqn:E.
    + cbn [map lookup_member scrub_member fst snd].
      rewrite String.eqb_refl. reflexivity.
    + rewrite (lookup_absent k o Hk). reflexivity.
  - destruct (defined x); [|exact (IH Hd)].
    cbn [map lookup_member scrub_member fst]. rewrite Ek. exact (IH Hd).
Qed.

Lemma storable_distinct (o : object) :
  storable (VObj o) = true -> distinct (map fst o) = true.
Proof. cbn [storable]. intros H. now apply andb_prop in H as [H _]. Qed.

Lemma objects_of_scrub (plans : list object) :
  Hook.objects_of (map scrub (map VObj plans)) = Some (map stored_plan plans).
Proof.
  induction plans as [|o plans IH]; [reflexivity|].
  cbn [map]. change (scrub (VObj o)) with (VObj (stored_plan o)).
  cbn [Hook.objects_of]. now rewrite IH.
Qed.

Lemma stringify_not_empty (v : value) : String.eqb (stringify v) "" = false.
Proof.
  unfold stringify. destruct (print_head v) as (c & s & -> & _). reflexivity.
Qed.

(** Reading the item the mirror effect writes. *)
Lemma read_saved_plans (plans : list object) :
  Hook.read_saved (Some (stringify (VArr (map VObj plans))))
  = Hook.Parsed (VArr (map scrub (map VObj plans))).
Proof.
  unfold Hook.read_saved. rewrite stringify_not_empty, parse_print.
  reflexivity.
Qed.

End JsonFacts.

(** ** The store, the loader and the client together *)

Module StoreFacts.
Import Json JsonText Hook Store JsonFacts.

Lemma adopt_scrubbed (plans : list object) (rest : State -> State)
    (st : State) :
  adopt (VArr (map scrub (map VObj plans))) rest st
  = Loaded true
      (setIsLoading false (rest (setFloorPlans (map stored_plan plans) st))).
Proof. unfold adopt, as_plans. now rewrite objects_of_scrub. Qed.

Lemma mirror_writes (st : State) (ls : Storage) :
  floorPlans st <> [] -> mirror st ls = Some (stringify (collection st)).
Proof.
  intros H. unfold mirror. destruct (floorPlans st); [contradiction|].
  reflexivity.
Qed.

Lemma stored_plans_tidy (plans : list object) :
  forallb (fun o => tidy (VObj o)) plans = true ->
  map stored_plan plans = plans.
Proof.
  induction plans as [|o plans IH]; [reflexivity|].
  cbn [forallb map]. intros H. apply andb_prop in H as [H1 H2].
  rewrite (IH H2). f_equal.
  pose proof (tidy_scrub (VObj o) H1) as E.
  change (scrub (VObj o)) with (VObj (stored_plan o)) in E. congruence.
Qed.

Lemma stored_plans_read (plans : list object) (o : object) (k : string) :
  forallb (fun o => storable (VObj o)) plans = true ->
  In o plans ->
  prop (stored_plan o) k
  = if defined (prop o k) then scrub (prop o k) else VUndef.
Proof.
  intros Hs Hin. rewrite forallb_forall in Hs.
  apply prop_after_trip, storable_distinct, Hs, Hin.
Qed.

Lemma reload_of_stored (st0 st : State) (ls : Storage) (res : settled) :
  floorPlans st0 <> [] ->
  match res with
  | Rejected => True
  | Resolved data =>
      forall (o : object) (items : list value),
        data = VObj o -> prop o "floorPlans" <> VArr items
  end ->
  loadFloorPlans res (mirror st0 ls) st
  = Loaded true
      (setIsLoading false
         ((match res with
           | Rejected => setError (Some load_failed_msg)
           | Resolved _ => id
           end)
            (setFloorPlans (map stored_plan (floorPlans st0))
               (load_begin st)))).
Proof.
  intros Hne Hres. rewrite (mirror_writes st0 ls Hne).
  unfold loadFloorPlans, load_resume, load_catch.
  destruct res as [data|].
  - rewrite (HookFacts.plan_array_none data Hres). unfold collection.
    rewrite read_saved_plans. apply adopt_scrubbed.
  - unfold collection. rewrite read_saved_plans. apply adopt_scrubbed.
Qed.

(** X13: once the mirror effect has written a collection that is not
    empty, of plans within the range where JSON text is exact (numbers of
    at most fifteen figures and six decimals, named keys, none twice), a
    loader that is offered no plan array (the call rejects, or answers
    with something other than an object whose [floorPlans] is an array)
    reads the item back without a SyntaxError and adopts as many plans,
    in their order.  Every property of every plan reads as when it was
    stored, as its text denotes it (inside it, [undefined] in an array
    has become [null] and a member holding [undefined] is gone); a
    property that held [undefined] is missing.  The fallback message is
    set when the call rejected, and only then. *)
Theorem stored_collection_reloads (st0 st : State) (ls : Storage)
    (res : settled) :
  floorPlans st0 <> [] ->
  forallb (fun o => storable (VObj o)) (floorPlans st0) = true ->
  match res with
  | Rejected => True
  | Resolved data =>
      forall (o : object) (items : list value),
        data = VObj o -> prop o "floorPlans" <> VArr items
  end ->
  exists reloaded : list object,
    loadFloorPlans res (mirror st0 ls) st
    = Loaded true
        (setIsLoading false
           ((match res with
             | Rejected => setError (Some load_failed_msg)
             | Resolved _ => id
             end)
              (setFloorPlans reloaded (load_begin st))))
    /\ length reloaded = length (floorPlans st0)
    /\ forall (n : nat) (o o' : object) (k : string),
         floorPlans st0 !! n = Some o -> reloaded !! n = Some o' ->
         prop o' k = if defined (prop o k) then scrub (prop o k) else VUndef.
Proof.
  intros Hne Hs Hres. exists (map stored_plan (floorPlans st0)).
  split; [now apply reload_of_stored|]. split; [apply length_map|].
  intros n o o' k Ho Ho'. rewrite list_lookup_fmap, Ho in Ho'.
  injection Ho' as <-. apply (stored_plans_read (floorPlans st0)); [exact Hs|].
  now apply (list_elem_of_lookup_2 _ n), list_elem_of_In in Ho.
Qed.

Lemma stored_collection_reloads_witness :
  floorPlans (hook Scenario.s_generated) <> []
  /\ forallb (fun o => storable (VObj o))
       (floorPlans (hook Scenario.s_generated)) = true
  /\ exists reloaded : list object,
       loadFloorPlans Rejected
         (mirror (hook Scenario.s_generated) None) initial
       = Loaded true
           (setIsLoading false
              (setError (Some load_failed_msg)
                 (setFloorPlans reloaded (load_begin initial))))
       /\ length reloaded = length (floorPlans (hook Scenario.s_generated))
       /\ forall (n : nat) (o o' : object) (k : string),
            floorPlans (hook Scenario.s_generated) !! n = Some o ->
            reloaded !! n = Some o' ->
            prop o' k
            = if defined (prop o k) then scrub (prop o k) else VUndef.
Proof.
  split; [discriminate|]. split; [reflexivity|].
  apply (stored_collection_reloads (hook Scenario.s_generated) initial None
           Rejected); [discriminate|reflexivity|exact I].
Defined.

(** X14: when, besides, every plan of the collection is tidy (nothing
    undefined inside, no trailing zero in a fraction), the reload of X13
    adopts the very plans that were stored, in their order. *)
Theorem tidy_collection_survives_reload (st0 st : State) (ls : Storage)
    (res : settled) :
  floorPlans st0 <> [] ->
  forallb (fun o => storable (VObj o) && tidy (VObj o)) (floorPlans st0)
  = true ->
  match res with
  | Rejected => True
  | Resolved data =>
      forall (o : object) (items : list value),
        data = VObj o -> prop o "floorPlans" <> VArr items
  end ->
  exists st' : State,
    loadFloorPlans res (mirror st0 ls) st = Loaded true st'
    /\ floorPlans st' = floorPlans st0.
Proof.
  intros Hne Ht Hres.
  assert (Ht' : forallb (fun o => tidy (VObj o)) (floorPlans st0) = true).
  { rewrite forallb_forall in Ht |- *. intros o Ho.
    now apply Ht, andb_prop in Ho as [_ Ho]. }
  rewrite (reload_of_stored st0 st ls res Hne Hres).
  rewrite (stored_plans_tidy _ Ht').
  eexists. split; [reflexivity|]. now destruct res.
Qed.

Lemma own_store_reads (ls : Storage) :
  own_store ls -> read_saved ls <> SyntaxError.
Proof.
  intros [->|(plans & ->)]; [discriminate|].
  rewrite read_saved_plans. discriminate.
Qed.

Lemma after_render_own (t : bool) (st : State) (ls : Storage) :
  own_store ls -> own_store (after_render t st ls).
Proof.
  intros H. unfold after_render, mirror.
  destruct t; [|exact H].
  destruct (0 <? length (floorPlans st))%nat; [|exact H].
  right. exists (floorPlans st). reflexivity.
Qed.

Lemma step_own_store (s s' : Session) :
  step s s' -> own_store (storage s) -> own_store (storage s').
Proof.
  intros Hs H. destruct Hs; cbn [storage rendered]; try assumption;
    now apply after_render_own.
Qed.

Lemma never_threw (res : settled) (ls : Storage) (st st' : State) :
  own_store ls -> load_resume res ls st <> LoadThrew st'.
Proof.
  intros H. pose proof (own_store_reads ls H) as Hr.
  unfold load_resume, load_catch, adopt.
  destruct res as [data|].
  - destruct (plan_array data) as [fp|].
    + destruct (as_plans fp); discriminate.
    + destruct (read_saved ls) as [|v|]; [discriminate| |contradiction].
      destruct (as_plans v); discriminate.
  - destruct (read_saved ls) as [|v|]; [discriminate| |contradiction].
    destruct (as_plans v); discriminate.
Qed.

(** X15: in a session that starts with no stored item, or with the text
    of a collection, the item is one of the two after every step; so the
    loader, whatever the server answers, never ends with the SyntaxError
    of [JSON.parse]. *)
Theorem own_store_never_throws (ls : Storage) (s : Session) :
  own_store ls -> rtc step (start ls) s ->
  own_store (storage s)
  /\ forall (res : settled) (st' : State),
       load_resume res (storage s) (hook s) <> LoadThrew st'.
Proof.
  intros Hls Hrun.
  assert (H : own_store (storage s)).
  { revert s Hrun.
    apply (rtc_ind_r (fun s => own_store (storage s)) (start ls));
      [exact Hls|].
    intros y z _ Hstep IH. exact (step_own_store y z Hstep IH). }
  split; [exact H|]. intros res st'. now apply never_threw.
Qed.

Lemma tidy_collection_survives_reload_witness :
  floorPlans demo_state <> []
  /\ forallb (fun o => storable (VObj o) && tidy (VObj o))
       (floorPlans demo_state) = true
  /\ exists st' : State,
       loadFloorPlans Rejected (mirror demo_state None) initial
       = Loaded true st'
       /\ floorPlans st' = floorPlans demo_state.
Proof.
  split; [discriminate|]. split; [reflexivity|].
  apply (tidy_collection_survives_reload demo_state initial None Rejected);
    [discriminate|reflexivity|exact I].
Defined.

Lemma s_generated_run : rtc step (start None) Scenario.s_generated.
Proof.
  eapply rtc_l;
    [apply (StepLoaded (start None) Rejected false); reflexivity|].
  eapply rtc_l;
    [exact (StepGenerateSent Scenario.s_loaded "a studio" [] eq_refl)|].
  eapply rtc_l;
    [exact (StepGenerateSettled Scenario.s_sent 0 "a studio" []
              (Resolved Scenario.response0) Scenario.env0 eq_refl)|].
  apply rtc_refl.
Qed.

Lemma own_store_never_throws_witness :
  own_store None
  /\ rtc step (start None) Scenario.s_generated
  /\ own_store (storage Scenario.s_generated)
  /\ forall (res : settled) (st' : State),
       load_resume res (storage Scenario.s_generated)
         (hook Scenario.s_generated) <> LoadThrew st'.
Proof.
  split; [now left|]. split; [exact s_generated_run|].
  apply (own_store_never_throws None Scenario.s_generated);
    [now left|exact s_generated_run].
Defined.

Lemma normalize_zero (m : Z) (sc : nat) :
  (mantissa (normalize m sc) =? 0)%Z = (m =? 0)%Z.
Proof.
  revert m. induction sc as [|sc IH]; intros m; [reflexivity|].
  cbn [normalize]. destruct (m mod 10 =? 0)%Z eqn:E; [|reflexivity].
  rewrite IH. apply Z.eqb_eq in E.
  destruct (Z.eqb_spec m 0) as [->|Hm]; [reflexivity|].
  apply Z.eqb_neq. intros Hd.
  pose proof (Z.div_mod m 10 ltac:(lia)). lia.
Qed.

Lemma truthy_scrub (v : value) : truthy (scrub v) = truthy v.
Proof.
  destruct v as [ | | b | n | s | items | members]; try reflexivity.
  cbn [scrub truthy]. unfold is_zero. cbn [mantissa].
  now rewrite normalize_zero.
Qed.

Lemma truthy_defined (v : value) : truthy v = true -> defined v = true.
Proof. destruct v; (discriminate || reflexivity). Qed.

Lemma or_else_truthy (a b : value) :
  truthy b = true -> truthy (or_else a b) = true.
Proof. intros H. unfold or_else. now destruct (truthy a) eqn:E. Qed.

Lemma scrub_or_else (a b : value) :
  scrub b = b ->
  scrub (or_else a b) = if truthy a then scrub a else b.
Proof. intros H. unfold or_else. now destruct (truthy a). Qed.

(** X16: [apiService.generateFloorPlan] sends one POST request to
    [/api/generate-floor-plan] with the JSON content type.  For a prompt
    and options within the range where JSON text is exact, its body is
    the text of an object with the members [prompt], the prompt as
    given; [num_inference_steps], the option [numInferenceSteps] when
    that is truthy and 50 when it is not; [guidance_scale], the option
    [guidanceScale] when that is truthy and 7.5 when it is not; and
    [seed], the option [seed], present exactly when that is not
    [undefined]; in this order and no other.  What the call returns or
    throws is what [fetchApi] makes of the answer to that request. *)
Theorem generate_request_body (net : Api.Request -> Api.fetched)
    (prompt : string) (options : object) :
  storable (VStr prompt) = true ->
  storable (VObj options) = true ->
  exists (text : string) (sent : object),
    Api.generateFloorPlan net prompt options
    = match net (Api.mkRequest "/api/generate-floor-plan" (Some "POST")
                   [("Content-Type", "application/json")] (Some text)) with
      | Api.NetworkError => Api.Thrown Api.FetchFailed
      | Api.Answer r => Api.handle r
      end
    /\ parse text = Some (VObj sent)
    /\ sent
       = [ ("prompt", VStr prompt);
           ("num_inference_steps",
              if truthy (prop options "numInferenceSteps")
              then scrub (prop options "numInferenceSteps") else of_Z 50);
           ("guidance_scale",
              if truthy (prop options "guidanceScale")
              then scrub (prop options "guidanceScale")
              else VNum (Num 75 1)) ]
         ++ (if defined (prop options "seed")
             then [("seed", scrub (prop options "seed"))] else []).
Proof.
  intros _ _.
  exists (stringify (Api.generate_payload prompt options)).
  exists (scrub_members
            [ ("prompt", VStr prompt);
              ("num_inference_steps",
                 or_else (prop options "numInferenceSteps") (of_Z 50));
              ("guidance_scale",
                 or_else (prop options "guidanceScale") (VNum (Num 75 1)));
              ("seed", prop options "seed") ] []).
  split; [reflexivity|]. split; [apply parse_print|].
  rewrite scrub_members_distinct by reflexivity.
  set (a := prop options "numInferenceSteps").
  set (b := prop options "guidanceScale").
  set (c := prop options "seed").
  assert (Da : defined (or_else a (of_Z 50)) = true)
    by (apply truthy_defined, or_else_truthy; reflexivity).
  assert (Db : defined (or_else b (VNum (Num 75 1))) = true)
    by (apply truthy_defined, or_else_truthy; reflexivity).
  unfold live. cbn [List.filter snd defined]. rewrite Da, Db.
  cbn [app map]. unfold scrub_member at 1 2 3. cbn [fst snd].
  rewrite (scrub_or_else a (of_Z 50) eq_refl).
  rewrite (scrub_or_else b (VNum (Num 75 1)) eq_refl).
  destruct (defined c); reflexivity.
Qed.

Lemma generate_request_body_witness :
  storable (VStr "a studio") = true
  /\ storable (VObj sample_options) = true
  /\ exists (text : string) (sent : object),
       Api.generateFloorPlan sample_net "a studio" sample_options
       = match sample_net
                 (Api.mkRequest "/api/generate-floor-plan" (Some "POST")
                    [("Content-Type", "application/json")] (Some text)) with
         | Api.NetworkError => Api.Thrown Api.FetchFailed
         | Api.Answer r => Api.handle r
         end
       /\ parse text = Some (VObj sent)
       /\ sent = [ ("prompt", VStr "a studio");
                   ("num_inference_steps", of_Z 50);
                   ("guidance_scale", VNum (Num 75 1));
                   ("seed", of_Z 7) ].
Proof.
  split; [reflexivity|]. split; [reflexivity|].
  destruct (generate_request_body sample_net "a studio" sample_options
              eq_refl eq_refl) as (text & sent & H1 & H2 & H3).
  exists text, sent. repeat split; assumption.
Defined.

Lemma starts_with_itself (w post : list ascii) :
  Api.starts_with w (w ++ post) = true.
Proof.
  induction w as [|c w IH]; [reflexivity|].
  cbn [app Api.starts_with]. now rewrite N.eqb_refl, IH.
Qed.

Lemma includes_inside (w pre post : list ascii) :
  Api.includes w (pre ++ w ++ post) = true.
Proof.
  induction pre as [|c pre IH].
  - cbn [app]. destruct (w ++ post) eqn:E; cbn [Api.includes];
      rewrite <- E, starts_with_itself; reflexivity.
  - cbn [app Api.includes]. rewrite IH. apply orb_true_r.
Qed.

(** A content type that mentions [application/json] anywhere. *)
Lemma isJson_mentions (r : Api.Response) (ct : string)
    (pre post : list ascii) :
  Api.contentType r = Some ct ->
  chars ct = pre ++ chars "application/json" ++ post ->
  Api.isJson r = true.
Proof.
  intros Hct Hm. unfold Api.isJson. rewrite Hct, Hm, includes_inside.
  destruct ct; [|reflexivity].
  destruct pre; discriminate Hm.
Qed.

(** X17: the loader behind the client.  On an ok answer whose content
    type mentions [application/json] and whose body is the text of an
    object, within the range where JSON text is exact, whose member
    [floorPlans] is an array of plans, the loader adopts those plans,
    empty or not, whatever else the object holds and however the text is
    spaced; the store is not read, no error is set and the loading flag
    is down. *)
Theorem load_end_to_end (net : Api.Request -> Api.fetched)
    (r : Api.Response) (ct : string) (pre post : list ascii)
    (o : object) (items : list value) (l : list object)
    (ls : Storage) (st : State) :
  net (Api.mkRequest "/api/floor-plans" None
         [("Content-Type", "application/json")] None) = Api.Answer r ->
  Api.ok r = true ->
  Api.contentType r = Some ct ->
  chars ct = pre ++ chars "application/json" ++ post ->
  parse (Api.body r) = Some (VObj o) ->
  storable (VObj o) = true ->
  prop o "floorPlans" = VArr items ->
  objects_of items = Some l ->
  loadFloorPlans (Api.list_call net) ls st
  = Loaded true (setIsLoading false (setFloorPlans l (load_begin st))).
Proof.
  intros Hnet Hok Hct Hm Hbody _ Hfp Hl.
  unfold Api.list_call, Api.getFloorPlans, Api.fetchApi.
  change (Api.url_of "floor-plans") with "/api/floor-plans".
  change (Api.merged_headers []) with [("Content-Type", "application/json")].
  rewrite Hnet. unfold Api.handle.
  rewrite (isJson_mentions r ct pre post Hct Hm), Hbody, Hok.
  cbn [Api.settle]. unfold loadFloorPlans, load_resume.
  rewrite (HookFacts.plan_array_offered o items Hfp).
  unfold adopt, as_plans. now rewrite Hl.
Qed.

Lemma load_end_to_end_witness :
  sample_net (Api.mkRequest "/api/floor-plans" None
                [("Content-Type", "application/json")] None)
  = Api.Answer sample_response
  /\ Api.ok sample_response = true
  /\ Api.contentType sample_response
     = Some "application/json; charset=utf-8"
  /\ parse (Api.body sample_response) = Some (VObj sample_listing)
  /\ storable (VObj sample_listing) = true
  /\ prop sample_listing "floorPlans" = VArr [VObj [("id", VStr "p1")]]
  /\ loadFloorPlans (Api.list_call sample_net) None initial
     = Loaded true
         (setIsLoading false
            (setFloorPlans [[("id", VStr "p1")]] (load_begin initial))).
Proof.
  split; [reflexivity|]. split; [reflexivity|]. split; [reflexivity|].
  split; [reflexivity|]. split; [reflexivity|]. split; [reflexivity|].
  apply (load_end_to_end sample_net sample_response
           "application/json; charset=utf-8" []
           (chars "; charset=utf-8") sample_listing
           [VObj [("id", VStr "p1")]] [[("id", VStr "p1")]] None initial);
    reflexivity.
Defined.

End StoreFacts.

(** ** More on room extraction *)

Module RoomFacts.
Import Regex Helpers HelpersFacts Casing.

Lemma code_of_N (n : N) : (n < 256)%N -> Chars.code (ascii_of_N n) = n.
Proof. apply N_ascii_embedding. Qed.

Lemma code_inj (x c : ascii) : Chars.code x = Chars.code c -> x = c.
Proof.
  unfold Chars.code. intros H.
  rewrite <- (ascii_N_embedding x), <- (ascii_N_embedding c). now rewrite H.
Qed.

(** A character that matches a lower-case letter under the [i] flag is
    that letter in either case. *)
Lemma same_char_lower (x c : ascii) :
  Chars.is_lower c = true -> same_char_i x c = true ->
  Chars.to_lower x = c /\ Chars.is_digit x = false.
Proof.
  unfold same_char_i, Chars.to_upper, Chars.to_lower, Chars.is_upper,
    Chars.is_digit. intros Hc. rewrite Hc.
  unfold Chars.is_lower in *.
  apply andb_prop in Hc as [Hc1 Hc2]. apply N.leb_le in Hc1, Hc2.
  pose proof (N_ascii_bounded x) as Hx. fold (Chars.code x) in Hx.
  rewrite (code_of_N (Chars.code c - 32)) by lia.
  destruct ((97 <=? Chars.code x)%N && (Chars.code x <=? 122)%N) eqn:El.
  - apply andb_prop in El as [E1 E2]. apply N.leb_le in E1, E2.
    rewrite (code_of_N (Chars.code x - 32)) by lia. intros H.
    apply N.eqb_eq in H.
    assert (Hxc : x = c) by (apply code_inj; lia). subst x.
    replace (Chars.code c <=? 90)%N with false
      by (symmetry; apply N.leb_gt; lia).
    replace (Chars.code c <=? 57)%N with false
      by (symmetry; apply N.leb_gt; lia).
    rewrite !andb_false_r. now split.
  - intros H. apply N.eqb_eq in H.
    replace (65 <=? Chars.code x)%N with true
      by (symmetry; apply N.leb_le; lia).
    replace (Chars.code x <=? 90)%N with true
      by (symmetry; apply N.leb_le; lia).
    replace (Chars.code x <=? 57)%N with false
      by (symmetry; apply N.leb_gt; lia).
    rewrite andb_false_r. cbn [andb]. split; [|reflexivity].
    apply code_inj. rewrite code_of_N by lia. lia.
Qed.

Lemma lower_match (w : list ascii) :
  forallb Chars.is_lower w = true ->
  forall a : list ascii,
    length a = length w -> starts_with_i w a = true ->
    map Chars.to_lower a = w /\ (w <> [] -> isNaN a = true).
Proof.
  induction w as [|c w IH]; intros Hw a Hl Hs.
  - destruct a; [|discriminate]. split; [reflexivity|congruence].
  - destruct a as [|x a]; [discriminate|].
    cbn [forallb] in Hw. apply andb_prop in Hw as [Hc Hw].
    cbn [starts_with_i] in Hs. apply andb_prop in Hs as [Hx Hs].
    injection Hl as Hl.
    destruct (same_char_lower x c Hc Hx) as [E1 E2].
    destruct (IH Hw a Hl Hs) as [E3 _].
    split; [cbn [map]; now rewrite E1, E3|].
    intros _. unfold isNaN. cbn [forallb]. now rewrite E2.
Qed.

Lemma lit_walk (w : list ascii) :
  forall st k m,
    rmatch (lit w) st k = Some m ->
    exists a st',
      rest st = a ++ rest st' /\ length a = length w
      /\ starts_with_i w a = true
      /\ pos st' = (pos st + length w)%nat
      /\ cap1 st' = cap1 st /\ k st' = Some m.
Proof.
  induction w as [|c w IH]; intros st k m H; cbn [lit rmatch] in H.
  - exists [], st. cbn [length]. repeat split; auto with arith.
  - destruct (rest st) as [|x s] eqn:Er; [discriminate|].
    destruct (same_char_i x c) eqn:E; [|discriminate].
    apply IH in H as (a & st' & Hr & Hl & Hs & Hp & Hc & Hk).
    cbn [rest cap1 pos] in *.
    exists (x :: a), st'. cbn [app length starts_with_i].
    rewrite E, Hs, Hl, Hr. repeat split; auto; lia.
Qed.

(** The tail of both numeric patterns leaves the capture alone. *)
Lemma tail_keeps_capture (type : string) st m :
  rmatch (RSeq (RPlus Chars.is_space)
            (RSeq (word type) (ROpt (RChar "s")))) st Some = Some m ->
  cap1 m = cap1 st.
Proof.
  cbn [rmatch]. intros H.
  apply plus_sound in H as (W & tl & pv' & i' & _ & _ & _ & Hk).
  apply lit_walk in Hk as (a & st' & _ & _ & _ & _ & Hc & Hk).
  cbn [cap1] in Hc. rewrite <- Hc.
  destruct (rest st') as [|x s']; cbn [orelse] in Hk.
  - now injection Hk as <-.
  - destruct (same_char_i x "s"); cbn [orelse] in Hk; now injection Hk as <-.
Qed.

Lemma firstn_length_app {A} (a b : list A) (n : nat) :
  n = length a -> firstn n (a ++ b) = a.
Proof.
  intros ->. rewrite firstn_app, Nat.sub_diag, firstn_all. cbn [firstn].
  apply app_nil_r.
Qed.

(** What group 1 holds after a match of the words pattern. *)
Lemma words_capture (type : string) st m :
  rmatch (words_pattern type) st Some = Some m ->
  exists a w,
    cap1 m = Some a /\ In w number_words
    /\ length a = length w /\ starts_with_i w a = true.
Proof.
  unfold words_pattern. cbn [rmatch]. intros H.
  assert (Hw : exists w, In w number_words
             /\ rmatch (lit w) st
                  (fun st' =>
                     rmatch (RSeq (RPlus Chars.is_space)
                               (RSeq (word type) (ROpt (RChar "s"))))
                       (MState (prev st') (pos st') (rest st')
                          (Some (firstn (pos st' - pos st) (rest st)))) Some)
                = Some m).
  { unfold number_words. cbn [map In].
    repeat (apply orelse_some in H as [H|H];
            [eexists; split; [|exact H]; tauto|]).
    eexists; split; [|exact H]; tauto. }
  destruct Hw as (w & Hin & Hm).
  apply lit_walk in Hm as (a & st' & Hr & Hl & Hs & Hp & _ & Hk).
  apply tail_keeps_capture in Hk. cbn [cap1] in Hk.
  exists a, w. split; [|auto].
  rewrite Hk, Hr. f_equal. apply firstn_length_app. lia.
Qed.

(** The count of a number word: its rank among the five. *)
Lemma word_count (a w : list ascii) :
  In w number_words -> length a = length w -> starts_with_i w a = true ->
  isNaN a = true
  /\ exists n : N, textToNumber a = Some n /\ (1 <= n <= 5)%N.
Proof.
  intros Hin Hl Hs.
  assert (Hlow : forallb Chars.is_lower w = true /\ w <> []).
  { unfold number_words in Hin. cbn [map In list_ascii_of_string] in Hin.
    destruct Hin as [<-|[<-|[<-|[<-|[<-|[]]]]]]; split;
      (reflexivity || discriminate). }
  destruct Hlow as [Hlow Hne].
  destruct (lower_match w Hlow a Hl Hs) as [Hmap Hnan].
  split; [now apply Hnan|].
  unfold textToNumber. rewrite Hmap.
  unfold number_words in Hin. cbn [map In list_ascii_of_string] in Hin.
  destruct Hin as [<-|[<-|[<-|[<-|[<-|[]]]]]];
    eexists; (split; [reflexivity|lia]).
Qed.

Lemma exec_not_empty (type : string) :
  exec (words_pattern type) "" = None.
Proof. reflexivity. Qed.

(** X18: when the digits rule finds nothing for a room type and the
    number-word rule matches, the word captured is one of the table in
    either letter case, so the count stored is between 1 and 5: the
    default of [textToNumber[...] || 1] is never taken. *)
Theorem number_word_count (prompt type : string) (m : mstate) :
  In type roomTypes ->
  exec (digits_pattern type) prompt = None ->
  exec (words_pattern type) prompt = Some m ->
  exists n : N,
    textToNumber (default [] (cap1 m)) = Some n
    /\ (1 <= n <= 5)%N
    /\ extractRoomInfo prompt !! type = Some n.
Proof.
  intros Hin Hd Hw.
  assert (Hp : prompt <> "").
  { intros ->. rewrite exec_not_empty in Hw. discriminate. }
  pose proof Hw as Hs. unfold exec in Hs.
  apply search_sound in Hs as (a0 & s' & pv' & _ & Hm).
  apply words_capture in Hm as (a & w & Hc & Hwin & Hl & Hst).
  destruct (word_count a w Hwin Hl Hst) as (Hnan & n & Hn & Hrange).
  exists n. rewrite Hc. cbn [default]. unfold Datatypes.id.
  split; [exact Hn|]. split; [exact Hrange|].
  apply first_rule_wins; [assumption..| |lia].
  unfold patterns. cbn [first_match]. rewrite Hd, Hw. f_equal.
  unfold count_of. rewrite Hc. cbn [default]. unfold Datatypes.id.
  rewrite Hnan, Hn. destruct n; [lia|reflexivity].
Qed.

Lemma number_word_count_witness :
  In "bathroom" roomTypes
  /\ exec (digits_pattern "bathroom") "a flat with Two bathrooms" = None
  /\ exec (words_pattern "bathroom") "a flat with Two bathrooms"
     = Some (MState (Some "s"%char) 13 [] (Some (list_ascii_of_string "Two")))
  /\ exists n : N,
       textToNumber (list_ascii_of_string "Two") = Some n
       /\ (1 <= n <= 5)%N
       /\ extractRoomInfo "a flat with Two bathrooms" !! "bathroom" = Some n.
Proof.
  split; [cbn; tauto|]. split; [reflexivity|]. split; [reflexivity|].
  apply (number_word_count "a flat with Two bathrooms" "bathroom"
           (MState (Some "s"%char) 13 []
              (Some (list_ascii_of_string "Two"))));
    [cbn; tauto|reflexivity|reflexivity].
Defined.

Lemma bare_sound (type : string) st k m :
  rmatch (bare_pattern type) st k = Some m ->
  starts_with_i (list_ascii_of_string type) (rest st) = true.
Proof.
  unfold bare_pattern. cbn [rmatch].
  destruct (xorb _ _); [|discriminate]. intros H.
  now apply lit_sound in H as (a & st' & _ & _ & Hs & _).
Qed.

Lemma occurs_somewhere (type : string) (a0 B tl : list ascii) :
  starts_with_i (list_ascii_of_string type) tl = true ->
  occurrences_from (list_ascii_of_string type) 0 (a0 ++ B ++ tl) <> [].
Proof.
  intros Hs Hnil.
  pose proof (occurs_at (list_ascii_of_string type) (a0 ++ B) tl 0%nat Hs)
    as Hin.
  rewrite <- app_assoc, Hnil in Hin. exact Hin.
Qed.

Lemma numeric_match_occurs (type prompt : string) (n : N) :
  first_match (patterns type) prompt = Some n ->
  occurrences type prompt <> [].
Proof.
  unfold patterns, occurrences. cbn [first_match]. intros H.
  destruct (exec (digits_pattern type) prompt) as [m|] eqn:Ed.
  - unfold exec in Ed.
    apply search_sound in Ed as (a0 & s' & pv' & -> & Hm).
    apply digits_sound in Hm as (D & W & tl & Hr & _ & _ & _ & _ & Hs).
    cbn [rest] in Hr. subst s'. rewrite (app_assoc D W tl).
    now apply occurs_somewhere.
  - destruct (exec (words_pattern type) prompt) as [m|] eqn:Ew;
      [|discriminate].
    unfold exec in Ew.
    apply search_sound in Ew as (a0 & s' & pv' & -> & Hm).
    apply words_sound in Hm as (a & W & tl & w & Hr & _ & _ & _ & _ & _ & Hs).
    cbn [rest] in Hr. subst s'. rewrite (app_assoc a W tl).
    now apply occurs_somewhere.
Qed.

Lemma bare_match_occurs (type prompt : string) :
  test (bare_pattern type) prompt = true ->
  occurrences type prompt <> [].
Proof.
  unfold test, occurrences. intros H.
  destruct (exec (bare_pattern type) prompt) as [m|] eqn:E; [|discriminate].
  unfold exec in E. apply search_sound in E as (a0 & s' & pv' & -> & Hm).
  apply bare_sound in Hm. cbn [rest] in Hm.
  apply (occurs_somewhere type a0 [] s' Hm).
Qed.

(** X19: [extractRoomInfo] reports nothing it was not told: a key of
    the result is one of the ten room types, and its name occurs in the
    prompt, letter case apart. *)
Theorem reported_room_is_named (prompt type : string) (n : N) :
  extractRoomInfo prompt !! type = Some n ->
  In type roomTypes /\ occurrences type prompt <> [].
Proof.
  intros H.
  assert (Hp : prompt <> "").
  { intros ->. unfold extractRoomInfo in H. cbn [String.eqb] in H.
    now rewrite lookup_empty in H. }
  assert (Hin : In type roomTypes).
  { destruct (in_dec string_dec type roomTypes) as [Hin|Hout]; [exact Hin|].
    unfold extractRoomInfo in H.
    destruct (String.eqb prompt "");
      [now rewrite lookup_empty in H|].
    rewrite fold_visit_other, lookup_empty in H by assumption.
    discriminate. }
  split; [exact Hin|].
  rewrite extractRoomInfo_at in H by assumption.
  unfold room_count in H.
  destruct (first_match (patterns type) prompt) as [c|] eqn:Ef.
  - now apply (numeric_match_occurs type prompt c).
  - destruct (test (bare_pattern type) prompt) eqn:Eb; [|discriminate].
    now apply bare_match_occurs.
Qed.

Lemma reported_room_is_named_witness :
  extractRoomInfo "2 Bedrooms" !! "bedroom" = Some 2%N
  /\ In "bedroom" roomTypes
  /\ occurrences "bedroom" "2 Bedrooms" <> [].
Proof.
  split; [vm_compute; reflexivity|].
  apply (reported_room_is_named "2 Bedrooms" "bedroom" 2%N).
  vm_compute. reflexivity.
Defined.

Lemma up_idem (c : ascii) : up (up c) = up c.
Proof. destruct c as [[] [] [] [] [] [] [] []]; reflexivity. Qed.

Lemma is_digit_up (c : ascii) : Chars.is_digit (up c) = Chars.is_digit c.
Proof. destruct c as [[] [] [] [] [] [] [] []]; reflexivity. Qed.

Lemma is_space_up (c : ascii) : Chars.is_space (up c) = Chars.is_space c.
Proof. destruct c as [[] [] [] [] [] [] [] []]; reflexivity. Qed.

Lemma is_word_up (c : ascii) : Chars.is_word (up c) = Chars.is_word c.
Proof. destruct c as [[] [] [] [] [] [] [] []]; reflexivity. Qed.

Lemma to_lower_up (c : ascii) : Chars.to_lower (up c) = Chars.to_lower c.
Proof. destruct c as [[] [] [] [] [] [] [] []]; reflexivity. Qed.

Lemma digit_up (c : ascii) : Chars.is_digit c = true -> up c = c.
Proof.
  destruct c as [[] [] [] [] [] [] [] []]; (reflexivity || discriminate).
Qed.

Lemma same_char_up (x c : ascii) : same_char_i (up x) c = same_char_i x c.
Proof. unfold same_char_i. fold up. now rewrite up_idem. Qed.

Lemma orelse_map {A B} (f : A -> B) (a b : option A) :
  orelse (option_map f a) (option_map f b) = option_map f (orelse a b).
Proof. now destruct a. Qed.

Lemma rstar_up (cls : ascii -> bool) (k k' : mstate -> option mstate)
    (s : list ascii) :
  (forall c, cls (up c) = cls c) ->
  (forall st, k' (up_state st) = option_map up_state (k st)) ->
  forall pv i cap,
    rstar cls k' (option_map up pv) i (map up s) (option_map (map up) cap)
    = option_map up_state (rstar cls k pv i s cap).
Proof.
  intros Hcls Hk. induction s as [|x s IH]; intros pv i cap.
  - cbn [map rstar]. apply (Hk (MState pv i [] cap)).
  - cbn [map rstar]. rewrite Hcls.
    assert (Hhere :
      k' (MState (option_map up pv) i (up x :: map up s)
            (option_map (map up) cap))
      = option_map up_state (k (MState pv i (x :: s) cap)))
      by apply (Hk (MState pv i (x :: s) cap)).
    destruct (cls x); [|exact Hhere].
    rewrite <- orelse_map, <- Hhere.
    now rewrite <- (IH (Some x) (S i) cap).
Qed.

Lemma word_at_up (o : option ascii) : word_at (option_map up o) = word_at o.
Proof. destruct o as [c|]; [apply is_word_up|reflexivity]. Qed.

Lemma hd_error_up (s : list ascii) :
  hd_error (map up s) = option_map up (hd_error s).
Proof. now destruct s. Qed.

Lemma rmatch_up (r : regex) :
  case_blind r ->
  forall (st : mstate) (k k' : mstate -> option mstate),
    (forall s, k' (up_state s) = option_map up_state (k s)) ->
    rmatch r (up_state st) k' = option_map up_state (rmatch r st k).
Proof.
  induction r as [ | c | cls | r1 IH1 | r1 IH1 r2 IH2 | r1 IH1 r2 IH2
                 | r1 IH1 | ]; intros Hr st k k' Hk; cbn [rmatch].
  - apply Hk.
  - unfold up_state at 1. cbn [rest pos cap1].
    destruct (rest st) as [|x s'] eqn:Er; [reflexivity|].
    cbn [map]. rewrite same_char_up.
    destruct (same_char_i x c); [|reflexivity].
    apply (Hk (MState (Some x) (S (pos st)) s' (cap1 st))).
  - unfold up_state at 1. cbn [rest pos cap1].
    destruct (rest st) as [|x s'] eqn:Er; [reflexivity|].
    cbn [map]. cbn [case_blind] in Hr. rewrite Hr.
    destruct (cls x); [|reflexivity].
    now apply (rstar_up cls k k' s' Hr Hk (Some x)).
  - cbn [case_blind] in Hr.
    rewrite (IH1 Hr st k k' Hk), (Hk st). apply orelse_map.
  - cbn [case_blind] in Hr. destruct Hr as [H1 H2].
    apply (IH1 H1). intros s. now apply (IH2 H2).
  - cbn [case_blind] in Hr. destruct Hr as [H1 H2].
    rewrite (IH1 H1 st k k' Hk), (IH2 H2 st k k' Hk). apply orelse_map.
  - cbn [case_blind] in Hr. apply (IH1 Hr). intros s. cbv beta.
    transitivity
      (k' (up_state (MState (prev s) (pos s) (rest s)
                       (Some (firstn (pos s - pos st) (rest st))))));
      [|apply Hk].
    f_equal. unfold up_state. cbn [prev pos rest cap1 option_map].
    now rewrite firstn_map.
  - unfold up_state at 1 2. cbn [prev rest].
    rewrite word_at_up, hd_error_up, word_at_up.
    destruct (xorb _ _); [apply Hk|reflexivity].
Qed.

Lemma search_up (r : regex) (s : list ascii) :
  case_blind r ->
  forall pv,
    search r (option_map up pv) (map up s)
    = option_map up_state (search r pv s).
Proof.
  intros Hr. induction s as [|x s IH]; intros pv.
  - cbn [map search].
    assert (E :
      rmatch r (MState (option_map up pv) 0 [] None) Some
      = option_map up_state (rmatch r (MState pv 0 [] None) Some))
      by apply (rmatch_up r Hr (MState pv 0 [] None) Some Some
                  (fun s => eq_refl)).
    rewrite E.
    destruct (rmatch r (MState pv 0 [] None) Some); reflexivity.
  - cbn [map search].
    assert (E :
      rmatch r (MState (option_map up pv) 0 (up x :: map up s) None) Some
      = option_map up_state (rmatch r (MState pv 0 (x :: s) None) Some))
      by apply (rmatch_up r Hr (MState pv 0 (x :: s) None) Some Some
                  (fun s => eq_refl)).
    rewrite E.
    destruct (rmatch r (MState pv 0 (x :: s) None) Some); [reflexivity|].
    apply (IH (Some x)).
Qed.

Lemma lit_case_blind (w : list ascii) : case_blind (lit w).
Proof. induction w; cbn [lit case_blind]; auto. Qed.

Lemma patterns_case_blind (type : string) :
  case_blind (digits_pattern type) /\ case_blind (words_pattern type)
  /\ case_blind (bare_pattern type).
Proof.
  unfold digits_pattern, words_pattern, bare_pattern, word.
  cbn [case_blind].
  pose proof (lit_case_blind (list_ascii_of_string type)).
  pose proof is_digit_up. pose proof is_space_up.
  repeat split; auto using lit_case_blind.
Qed.

Lemma isNaN_up (a : list ascii) : isNaN (map up a) = isNaN a.
Proof.
  unfold isNaN. f_equal. induction a as [|x a IH]; [reflexivity|].
  cbn [map forallb]. now rewrite is_digit_up, IH.
Qed.

Lemma digits_up (a : list ascii) :
  forallb Chars.is_digit a = true -> map up a = a.
Proof.
  induction a as [|x a IH]; [reflexivity|].
  cbn [forallb]. intros H. apply andb_prop in H as [E1 E2].
  cbn [map]. now rewrite (digit_up x E1), (IH E2).
Qed.

Lemma count_of_up (m : mstate) : count_of (up_state m) = count_of m.
Proof.
  unfold count_of, up_state. cbn [cap1].
  assert (E : default [] (option_map (map up) (cap1 m))
              = map up (default [] (cap1 m))) by now destruct (cap1 m).
  rewrite E. generalize (default [] (cap1 m)). intros a.
  rewrite isNaN_up. unfold isNaN.
  destruct (forallb Chars.is_digit a) eqn:Ed; cbn [negb].
  - now rewrite (digits_up a Ed).
  - f_equal. unfold textToNumber. rewrite map_map.
    now rewrite (map_ext _ _ to_lower_up).
Qed.

(** Two texts that differ in letter case only are matched alike. *)
Lemma exec_case (r : regex) (p q : string) :
  case_blind r ->
  map up (list_ascii_of_string p) = map up (list_ascii_of_string q) ->
  option_map up_state (exec r p) = option_map up_state (exec r q).
Proof.
  intros Hr E. unfold exec.
  rewrite <- (search_up r _ Hr None), <- (search_up r _ Hr None).
  now rewrite E.
Qed.

Lemma first_match_case (ps : list regex) (p q : string) :
  Forall case_blind ps ->
  map up (list_ascii_of_string p) = map up (list_ascii_of_string q) ->
  first_match ps p = first_match ps q.
Proof.
  intros Hps E. induction Hps as [|r ps Hr _ IH]; [reflexivity|].
  cbn [first_match]. pose proof (exec_case r p q Hr E) as Hx.
  destruct (exec r p) as [m|], (exec r q) as [m'|]; try discriminate.
  - assert (Hx' : up_state m = up_state m')
      by (cbn [option_map] in Hx; congruence).
    now rewrite <- (count_of_up m), Hx', count_of_up.
  - exact IH.
Qed.

Lemma test_case (r : regex) (p q : string) :
  case_blind r ->
  map up (list_ascii_of_string p) = map up (list_ascii_of_string q) ->
  test r p = test r q.
Proof.
  intros Hr E. unfold test. pose proof (exec_case r p q Hr E) as Hx.
  now destruct (exec r p), (exec r q).
Qed.

(** X20: two prompts that differ in the case of their letters only give
    the same result. *)
Theorem extractRoomInfo_case_blind (p q : string) :
  map Chars.to_upper (list_ascii_of_string p)
  = map Chars.to_upper (list_ascii_of_string q) ->
  extractRoomInfo p = extractRoomInfo q.
Proof.
  intros E. fold up in E. unfold extractRoomInfo.
  assert (Hempty : String.eqb p "" = String.eqb q "").
  { destruct p, q; try reflexivity; discriminate. }
  rewrite Hempty. destruct (String.eqb q ""); [reflexivity|].
  generalize (∅ : gmap string N). generalize roomTypes.
  intros types. induction types as [|type types IH]; intros result;
    [reflexivity|].
  cbn [fold_left].
  assert (Hv : visit p result type = visit q result type).
  { unfold visit.
    destruct (patterns_case_blind type) as (Hd & Hw & Hb).
    rewrite (first_match_case (patterns type) p q);
      [|exact (@List.Forall_cons _ case_blind _ _ Hd
                 (@List.Forall_cons _ case_blind _ _ Hw
                    (@List.Forall_nil _ case_blind)))
       |exact E].
    now rewrite (test_case (bare_pattern type) p q Hb E). }
  rewrite Hv. apply IH.
Qed.

Lemma extractRoomInfo_case_blind_witness :
  map Chars.to_upper (list_ascii_of_string "Two Bedrooms, 1 garage")
  = map Chars.to_upper (list_ascii_of_string "two bedROOMs, 1 GARAGE")
  /\ extractRoomInfo "Two Bedrooms, 1 garage"
     = extractRoomInfo "two bedROOMs, 1 GARAGE".
Proof.
  split; [reflexivity|].
  apply (extractRoomInfo_case_blind "Two Bedrooms, 1 garage"
           "two bedROOMs, 1 GARAGE").
  reflexivity.
Defined.

End RoomFacts.

(** ** Debouncing *)

Module DebounceFacts.
Import Debounce.

Section Facts.
Context {A : Type}.
Variable wait : nat.

Lemma clear_armed (s : State A) :
  armed wait s -> clearTimeout (timeout s) (pending s) = ∅.
Proof.
  intros [E|(id & at' & args & earlier & Ht & _ & Ep)].
  - rewrite E. destruct (timeout s); [apply delete_empty|reflexivity].
  - rewrite Ht, Ep. cbn [clearTimeout]. apply delete_singleton_eq.
Qed.

Lemma call_armed (s : State A) (args : A) :
  armed wait s -> armed wait (executedFunction wait args s).
Proof.
  intros H. right. exists (next_id s), (now s), args, (calls s).
  unfold executedFunction. cbn [timeout calls pending].
  rewrite (clear_armed s H), insert_empty. auto.
Qed.

Lemma fire_armed (s s' : State A) (id : nat) :
  armed wait s -> fire id s = Some s' ->
  exists since args earlier,
    calls s = (since, args) :: earlier
    /\ (since + wait <= now s)%nat
    /\ runs s' = args :: runs s
    /\ calls s' = calls s
    /\ pending s' = ∅.
Proof.
  intros [E|(id0 & at' & args & earlier & Ht & Ec & Ep)] Hf; unfold fire in Hf.
  - rewrite E, lookup_empty in Hf. discriminate.
  - rewrite Ep in Hf.
    destruct (decide (id = id0)) as [->|Hne].
    + rewrite lookup_singleton_eq in Hf.
      destruct (Nat.leb_spec (at' + wait) (now s)) as [Hle|]; [|discriminate].
      injection Hf as <-. cbn [runs calls pending].
      exists at', args, earlier. rewrite Ht. cbn [clearTimeout].
      rewrite delete_singleton_eq, delete_empty. auto.
    + rewrite lookup_singleton_ne in Hf by congruence. discriminate.
Qed.

Lemma step_armed (s s' : State A) :
  step wait s s' -> armed wait s -> armed wait s'.
Proof.
  intros Hs H. destruct Hs as [s args|s s' id Hf|s d].
  - now apply call_armed.
  - destruct (fire_armed s s' id H Hf) as (_ & _ & _ & _ & _ & _ & _ & E).
    now left.
  - exact H.
Qed.

Lemma step_count (s s' : State A) :
  step wait s s' -> armed wait s ->
  (length (runs s) + size (pending s) <= length (calls s))%nat ->
  (length (runs s') + size (pending s') <= length (calls s'))%nat.
Proof.
  intros Hs H Hc. destruct Hs as [s args|s s' id Hf|s d].
  - unfold executedFunction. cbn [runs pending calls length].
    rewrite (clear_armed s H), insert_empty, map_size_singleton. lia.
  - pose proof Hf as Hf'.
    destruct (fire_armed s s' id H Hf) as (at' & args & e & Ec & _ & Er & Ec' & Ep).
    rewrite Er, Ec', Ep, map_size_empty. cbn [length].
    assert (Hp : size (pending s) = 1%nat).
    { destruct H as [E|(id0 & ? & ? & ? & _ & _ & E)].
      - unfold fire in Hf'. rewrite E, lookup_empty in Hf'. discriminate.
      - rewrite E. apply map_size_singleton. }
    lia.
  - exact Hc.
Qed.

(** X21: however the calls of a debounced function, the firing of its
    timers and the passing of time interleave, at most one timer is
    pending, [func] has run at most once per call, a timer that fires
    runs [func] with the arguments of the latest call, no sooner than
    [wait] after that call, and leaves no timer behind. *)
Theorem debounce_runs_latest_call (start : nat) (s : State A) :
  rtc (step wait) (fresh start) s ->
  (size (pending s) <= 1)%nat
  /\ (length (runs s) + size (pending s) <= length (calls s))%nat
  /\ forall (id : nat) (s' : State A),
       fire id s = Some s' ->
       exists since args earlier,
         calls s = (since, args) :: earlier
         /\ (since + wait <= now s)%nat
         /\ runs s' = args :: runs s
         /\ pending s' = ∅.
Proof.
  intros Hrun.
  assert (H : armed wait s
              /\ (length (runs s) + size (pending s) <= length (calls s))%nat).
  { revert s Hrun.
    apply (rtc_ind_r
             (fun s => armed wait s
                       /\ (length (runs s) + size (pending s)
                           <= length (calls s))%nat) (fresh start)).
    - split; [now left|]. cbn [fresh runs pending calls length].
      rewrite map_size_empty. lia.
    - intros y z _ Hstep [Ha Hc].
      split; [exact (step_armed y z Hstep Ha)|exact (step_count y z Hstep Ha Hc)]. }
  destruct H as [Ha Hc]. split; [|split; [exact Hc|]].
  - destruct Ha as [E|(id0 & ? & ? & ? & _ & _ & E)]; rewrite E.
    + rewrite map_size_empty. lia.
    + rewrite map_size_singleton. lia.
  - intros id s' Hf.
    destruct (fire_armed s s' id Ha Hf) as (at' & args & e & Ec & Hle & Er & _ & Ep).
    exists at', args, e. auto.
Qed.

End Facts.

Lemma debounce_runs_latest_call_witness :
  rtc (step 300) (fresh 0) sample_burst
  /\ (size (pending sample_burst) <= 1)%nat
  /\ (length (runs sample_burst) + size (pending sample_burst)
      <= length (calls sample_burst))%nat
  /\ forall (id : nat) (s' : State string),
       fire id sample_burst = Some s' ->
       exists since args earlier,
         calls sample_burst = (since, args) :: earlier
         /\ (since + 300 <= now sample_burst)%nat
         /\ runs s' = args :: runs sample_burst
         /\ pending s' = ∅.
Proof.
  assert (Hrun : rtc (step 300) (fresh 0) sample_burst).
  { eapply rtc_l; [apply (StepCall 300 (fresh 0) "a")|].
    eapply rtc_l; [apply (StepElapse 300 _ 100)|].
    eapply rtc_l; [apply (StepCall 300 _ "b")|].
    eapply rtc_l; [apply (StepElapse 300 _ 300)|].
    apply rtc_refl. }
  split; [exact Hrun|].
  exact (debounce_runs_latest_call 300 0 sample_burst Hrun).
Defined.

End DebounceFacts.
